(** * mathcat: bounding volumes and intersection tests

    A shallow embedding of the [box3], [obb3] and [raycast3] modules of
    mathcat, together with the properties of them that the specification
    states.

    Numbers.  A JavaScript [number] is modelled by [num]: an exact rational,
    [+Infinity], [-Infinity] or [NaN].  Arithmetic on finite values is exact
    (no rounding, no overflow, a single unsigned zero); arithmetic that
    involves an infinity or [NaN] follows IEEE-754, and every comparison
    with [NaN] is false.  The empty-box sentinel and the accumulators of
    [transformMat4] therefore behave as they do in the program, and the
    geometric statements are read, as usual, in exact arithmetic on finite
    values. *)

From Stdlib Require Import QArith Qabs Lqa Bool List Lia PeanoNat.
From Stdlib Require Import QNsatz.
Import ListNotations.

Declare Scope num_scope.
Delimit Scope num_scope with num.

(** ** Numbers *)

Inductive num : Type :=
| Fin (q : Q)
| PInf
| NInf
| NaN.

Definition Qltb (x y : Q) : bool := negb (Qle_bool y x).

(** Sign of a rational: [Gt] positive, [Lt] negative, [Eq] zero. *)
Definition Qsign (q : Q) : comparison := Qcompare q 0.

Definition isFinite (a : num) : bool :=
  match a with Fin _ => true | _ => false end.

Definition isNaN (a : num) : bool :=
  match a with NaN => true | _ => false end.

Definition nneg (a : num) : num :=
  match a with
  | Fin q => Fin (- q)
  | PInf => NInf
  | NInf => PInf
  | NaN => NaN
  end.

Definition nadd (a b : num) : num :=
  match a, b with
  | NaN, _ | _, NaN => NaN
  | Fin x, Fin y => Fin (x + y)
  | PInf, NInf | NInf, PInf => NaN
  | PInf, _ | _, PInf => PInf
  | NInf, _ | _, NInf => NInf
  end.

Definition nsub (a b : num) : num :=
  match a, b with
  | NaN, _ | _, NaN => NaN
  | Fin x, Fin y => Fin (x - y)
  | PInf, PInf | NInf, NInf => NaN
  | PInf, _ | _, NInf => PInf
  | NInf, _ | _, PInf => NInf
  end.

(** An infinity scaled by a value of the given sign. *)
Definition inf_signed (s : comparison) (positive : bool) : num :=
  match s with
  | Eq => NaN
  | Gt => if positive then PInf else NInf
  | Lt => if positive then NInf else PInf
  end.

Definition nmul (a b : num) : num :=
  match a, b with
  | NaN, _ | _, NaN => NaN
  | Fin x, Fin y => Fin (x * y)
  | Fin x, PInf | PInf, Fin x => inf_signed (Qsign x) true
  | Fin x, NInf | NInf, Fin x => inf_signed (Qsign x) false
  | PInf, PInf | NInf, NInf => PInf
  | PInf, NInf | NInf, PInf => NInf
  end.

(** Division; a finite value divided by zero gives an infinity of the sign
    of the numerator (the zero is taken as [+0]) and [0/0] is [NaN]. *)
Definition ndiv (a b : num) : num :=
  match a, b with
  | NaN, _ | _, NaN => NaN
  | Fin x, Fin y =>
      if Qeq_bool y 0 then inf_signed (Qsign x) true else Fin (x / y)
  | Fin _, _ => Fin 0
  | PInf, Fin y => if Qltb y 0 then NInf else PInf
  | NInf, Fin y => if Qltb y 0 then PInf else NInf
  | _, _ => NaN
  end.

(** [Math.abs] *)
Definition nabs (a : num) : num :=
  match a with
  | Fin q => Fin (Qabs q)
  | PInf | NInf => PInf
  | NaN => NaN
  end.

(** [a <= b] *)
Definition nleb (a b : num) : bool :=
  match a, b with
  | NaN, _ | _, NaN => false
  | Fin x, Fin y => Qle_bool x y
  | NInf, _ | _, PInf => true
  | _, _ => false
  end.

(** [a < b] *)
Definition nltb (a b : num) : bool :=
  match a, b with
  | NaN, _ | _, NaN => false
  | Fin x, Fin y => Qltb x y
  | PInf, _ | _, NInf => false
  | _, _ => true
  end.

(** [a >= b] and [a > b] *)
Definition ngeb (a b : num) : bool := nleb b a.
Definition ngtb (a b : num) : bool := nltb b a.

(** [a === b] *)
Definition neqb (a b : num) : bool :=
  match a, b with
  | Fin x, Fin y => Qeq_bool x y
  | PInf, PInf | NInf, NInf => true
  | _, _ => false
  end.

(** [Math.max(a, b)] and [Math.min(a, b)]: [NaN] if either argument is. *)
Definition nmax (a b : num) : num :=
  match a, b with
  | NaN, _ | _, NaN => NaN
  | _, _ => if nleb a b then b else a
  end.

Definition nmin (a b : num) : num :=
  match a, b with
  | NaN, _ | _, NaN => NaN
  | _, _ => if nleb a b then a else b
  end.

(** The same number: equal rationals, or the same infinity. *)
Definition num_eq (a b : num) : Prop :=
  match a, b with
  | Fin x, Fin y => x == y
  | PInf, PInf | NInf, NInf | NaN, NaN => True
  | _, _ => False
  end.

Notation "a + b" := (nadd a b) : num_scope.
Notation "a - b" := (nsub a b) : num_scope.
Notation "a * b" := (nmul a b) : num_scope.
Notation "a / b" := (ndiv a b) : num_scope.
Notation "- a" := (nneg a) : num_scope.
Notation "a <? b" := (nltb a b) (at level 70) : num_scope.
Notation "a <=? b" := (nleb a b) (at level 70) : num_scope.
Notation "a >? b" := (ngtb a b) (at level 70) : num_scope.
Notation "a >=? b" := (ngeb a b) (at level 70) : num_scope.
Notation "a =? b" := (neqb a b) (at level 70) : num_scope.
Notation "$ q" := (Fin q) (at level 5, format "$ q") : num_scope.

Local Open Scope num_scope.

(** ** Vectors and matrices *)

Record Vec3 : Type := mkVec3 { v_0 : num; v_1 : num; v_2 : num }.

(** [v[i]]; an index outside the array reads [undefined], which every
    arithmetic operation and comparison treats as [NaN]. *)
Definition vget (v : Vec3) (i : nat) : num :=
  match i with
  | 0%nat => v_0 v
  | 1%nat => v_1 v
  | 2%nat => v_2 v
  | _ => NaN
  end.

Definition vec3_eq (u v : Vec3) : Prop :=
  num_eq (v_0 u) (v_0 v) /\ num_eq (v_1 u) (v_1 v) /\ num_eq (v_2 u) (v_2 v).

Definition vec3_finite (v : Vec3) : bool :=
  isFinite (v_0 v) && isFinite (v_1 v) && isFinite (v_2 v).

(** Column-major 3x3 matrix, [r[0..8]]. *)
Record Mat3 : Type := mkMat3 {
  r_0 : num; r_1 : num; r_2 : num;
  r_3 : num; r_4 : num; r_5 : num;
  r_6 : num; r_7 : num; r_8 : num }.

(** Column-major 4x4 matrix, [e[0..15]]. *)
Record Mat4 : Type := mkMat4 {
  e_0 : num; e_1 : num; e_2 : num; e_3 : num;
  e_4 : num; e_5 : num; e_6 : num; e_7 : num;
  e_8 : num; e_9 : num; e_10 : num; e_11 : num;
  e_12 : num; e_13 : num; e_14 : num; e_15 : num }.

Definition mat3_finite (r : Mat3) : bool :=
  isFinite (r_0 r) && isFinite (r_1 r) && isFinite (r_2 r) &&
  isFinite (r_3 r) && isFinite (r_4 r) && isFinite (r_5 r) &&
  isFinite (r_6 r) && isFinite (r_7 r) && isFinite (r_8 r).

Definition mat4_finite (e : Mat4) : bool :=
  isFinite (e_0 e) && isFinite (e_1 e) && isFinite (e_2 e) && isFinite (e_3 e) &&
  isFinite (e_4 e) && isFinite (e_5 e) && isFinite (e_6 e) && isFinite (e_7 e) &&
  isFinite (e_8 e) && isFinite (e_9 e) && isFinite (e_10 e) && isFinite (e_11 e) &&
  isFinite (e_12 e) && isFinite (e_13 e) && isFinite (e_14 e) && isFinite (e_15 e).

(** ** vec3: the vector helpers the three modules call *)

Module vec3.

(** Modelled from the spec: [vec3.dot] belongs to the vector algebra library
    ([vec3.ts]), which is not under [src/]; the spec takes it as the usual
    dot product. *)
Definition dot (a b : Vec3) : num :=
  v_0 a * v_0 b + v_1 a * v_1 b + v_2 a * v_2 b.

(** Modelled from the spec: [vec3.subtract] of the absent [vec3.ts],
    component-wise [a - b]. *)
Definition subtract (a b : Vec3) : Vec3 :=
  mkVec3 (v_0 a - v_0 b) (v_1 a - v_1 b) (v_2 a - v_2 b).

(** Modelled from the spec: [vec3.cross] of the absent [vec3.ts], the cross
    product [a x b]. *)
Definition cross (a b : Vec3) : Vec3 :=
  mkVec3 (v_1 a * v_2 b - v_2 a * v_1 b)
         (v_2 a * v_0 b - v_0 a * v_2 b)
         (v_0 a * v_1 b - v_1 a * v_0 b).

(** Modelled from the spec: [vec3.transformMat4] of the absent [vec3.ts].
    The spec describes it as taking a point through the full matrix, the
    3x3 part applied to the point plus the translation column. *)
Definition transformMat4 (a : Vec3) (m : Mat4) : Vec3 :=
  let x := v_0 a in
  let y := v_1 a in
  let z := v_2 a in
  mkVec3 (e_0 m * x + e_4 m * y + e_8 m * z + e_12 m)
         (e_1 m * x + e_5 m * y + e_9 m * z + e_13 m)
         (e_2 m * x + e_6 m * y + e_10 m * z + e_14 m).

(** Modelled from the spec: [vec3.add] of the absent [vec3.ts],
    component-wise [a + b]. *)
Definition add (a b : Vec3) : Vec3 :=
  mkVec3 (v_0 a + v_0 b) (v_1 a + v_1 b) (v_2 a + v_2 b).

(** Modelled from the spec: [vec3.scale] of the absent [vec3.ts], every
    component times the scalar [b]. *)
Definition scale (a : Vec3) (b : num) : Vec3 :=
  mkVec3 (v_0 a * b) (v_1 a * b) (v_2 a * b).

(** Modelled from the spec: [vec3.negate] of the absent [vec3.ts]. *)
Definition negate (a : Vec3) : Vec3 :=
  mkVec3 (- v_0 a) (- v_1 a) (- v_2 a).

(** Modelled from the spec: [vec3.scaleAndAdd] of the absent [vec3.ts],
    [a + b * scale]. *)
Definition scaleAndAdd (a b : Vec3) (scale : num) : Vec3 :=
  mkVec3 (v_0 a + v_0 b * scale) (v_1 a + v_1 b * scale) (v_2 a + v_2 b * scale).

End vec3.

(** ** box3: axis-aligned boxes, [minX, minY, minZ, maxX, maxY, maxZ] *)

Record Box3 : Type := mkBox3 {
  b_0 : num; b_1 : num; b_2 : num;
  b_3 : num; b_4 : num; b_5 : num }.

Record Sphere : Type := mkSphere { center : Vec3; radius : num }.

Record Plane3 : Type := mkPlane3 { normal : Vec3; constant : num }.

Definition box3_finite (b : Box3) : bool :=
  isFinite (b_0 b) && isFinite (b_1 b) && isFinite (b_2 b) &&
  isFinite (b_3 b) && isFinite (b_4 b) && isFinite (b_5 b).

(** A valid (non-empty) box: [min <= max] on each axis. *)
Definition box3_valid (b : Box3) : bool :=
  (b_0 b <=? b_3 b) && (b_1 b <=? b_4 b) && (b_2 b <=? b_5 b).

Module box3.

Definition create : Box3 := mkBox3 PInf PInf PInf NInf NInf NInf.

Definition empty (out : Box3) : Box3 := mkBox3 PInf PInf PInf NInf NInf NInf.

Definition set_0 (out : Box3) (x : num) : Box3 :=
  mkBox3 x (b_1 out) (b_2 out) (b_3 out) (b_4 out) (b_5 out).
Definition set_1 (out : Box3) (x : num) : Box3 :=
  mkBox3 (b_0 out) x (b_2 out) (b_3 out) (b_4 out) (b_5 out).
Definition set_2 (out : Box3) (x : num) : Box3 :=
  mkBox3 (b_0 out) (b_1 out) x (b_3 out) (b_4 out) (b_5 out).
Definition set_3 (out : Box3) (x : num) : Box3 :=
  mkBox3 (b_0 out) (b_1 out) (b_2 out) x (b_4 out) (b_5 out).
Definition set_4 (out : Box3) (x : num) : Box3 :=
  mkBox3 (b_0 out) (b_1 out) (b_2 out) (b_3 out) x (b_5 out).
Definition set_5 (out : Box3) (x : num) : Box3 :=
  mkBox3 (b_0 out) (b_1 out) (b_2 out) (b_3 out) (b_4 out) x.

Section TransformMat4.

(** [vec3.transformMat4], which is not under [src/]: the point transform
    that [transformMat4] applies to every corner. *)
Variable vec3_transformMat4 : Vec3 -> Mat4 -> Vec3.

(** The corner that iteration [i] reads from the box [src]. *)
Definition corner (src : Box3) (i : nat) : Vec3 :=
  mkVec3 (if (Nat.land i 1 =? 0)%nat then b_0 src else b_3 src)
         (if (Nat.land i 2 =? 0)%nat then b_1 src else b_4 src)
         (if (Nat.land i 4 =? 0)%nat then b_2 src else b_5 src).

(** One iteration of the loop.  [out_is_box] tells whether the caller passed
    the same array as [out] and as [box]; the corner is then read from the
    array being written. *)
Definition transformMat4_step (out_is_box : bool) (box : Box3) (mat : Mat4)
    (out : Box3) (i : nat) : Box3 :=
  let c := vec3_transformMat4 (corner (if out_is_box then out else box) i) mat in
  let out := if v_0 c <? b_0 out then set_0 out (v_0 c) else out in
  let out := if v_0 c >? b_3 out then set_3 out (v_0 c) else out in
  let out := if v_1 c <? b_1 out then set_1 out (v_1 c) else out in
  let out := if v_1 c >? b_4 out then set_4 out (v_1 c) else out in
  let out := if v_2 c <? b_2 out then set_2 out (v_2 c) else out in
  let out := if v_2 c >? b_5 out then set_5 out (v_2 c) else out in
  out.

Definition transformMat4 (out_is_box : bool) (box : Box3) (mat : Mat4) : Box3 :=
  fold_left (transformMat4_step out_is_box box mat) (seq 0 8)
            (mkBox3 PInf PInf PInf NInf NInf NInf).

End TransformMat4.

Definition containsPoint (box : Box3) (point : Vec3) : bool :=
  (v_0 point >=? b_0 box) && (v_0 point <=? b_3 box) &&
  (v_1 point >=? b_1 box) && (v_1 point <=? b_4 box) &&
  (v_2 point >=? b_2 box) && (v_2 point <=? b_5 box).

Definition containsBox3 (container contained : Box3) : bool :=
  (b_0 contained >=? b_0 container) && (b_3 contained <=? b_3 container) &&
  (b_1 contained >=? b_1 container) && (b_4 contained <=? b_4 container) &&
  (b_2 contained >=? b_2 container) && (b_5 contained <=? b_5 container).

Definition intersectsBox3 (boxA boxB : Box3) : bool :=
  (b_0 boxA <=? b_3 boxB) &&
  (b_3 boxA >=? b_0 boxB) &&
  (b_1 boxA <=? b_4 boxB) &&
  (b_4 boxA >=? b_1 boxB) &&
  (b_2 boxA <=? b_5 boxB) &&
  (b_5 boxA >=? b_2 boxB).

(** [_satForAxes]: the scratch vectors [_v0], [_v1], [_v2] and [_extents]
    that the source keeps at module level are passed explicitly; [i] is the
    loop counter and [n] the number of iterations left. *)
Fixpoint _satForAxes_loop (_v0 _v1 _v2 _extents : Vec3) (axes : list num)
    (i n : nat) : bool :=
  match n with
  | O => true
  | S n' =>
      let ax := nth (i * 3 + 0) axes NaN in
      let ay := nth (i * 3 + 1) axes NaN in
      let az := nth (i * 3 + 2) axes NaN in
      if (ax =? $0) && (ay =? $0) && (az =? $0)
      then _satForAxes_loop _v0 _v1 _v2 _extents axes (S i) n'
      else
        let p0 := v_0 _v0 * ax + v_1 _v0 * ay + v_2 _v0 * az in
        let p1 := v_0 _v1 * ax + v_1 _v1 * ay + v_2 _v1 * az in
        let p2 := v_0 _v2 * ax + v_1 _v2 * ay + v_2 _v2 * az in
        let minP := p0 in
        let maxP := p0 in
        let '(minP, maxP) :=
          if p1 <? minP then (p1, maxP)
          else if p1 >? maxP then (minP, p1) else (minP, maxP) in
        let '(minP, maxP) :=
          if p2 <? minP then (p2, maxP)
          else if p2 >? maxP then (minP, p2) else (minP, maxP) in
        let r := v_0 _extents * nabs ax + v_1 _extents * nabs ay
                 + v_2 _extents * nabs az in
        if (maxP <? - r) || (minP >? r) then false
        else _satForAxes_loop _v0 _v1 _v2 _extents axes (S i) n'
  end.

Definition _satForAxes (_v0 _v1 _v2 _extents : Vec3) (axes : list num)
    (axisCount : nat) : bool :=
  _satForAxes_loop _v0 _v1 _v2 _extents axes 0 axisCount.

Definition _axesBoxFaces : list num :=
  [$1; $0; $0; $0; $1; $0; $0; $0; $1].

Definition intersectsTriangle3 (box : Box3) (a b c : Vec3) : bool :=
  if (b_0 box >? b_3 box) || (b_1 box >? b_4 box) || (b_2 box >? b_5 box)
  then false
  else
    let _center := mkVec3 ((b_0 box + b_3 box) * $0.5)
                          ((b_1 box + b_4 box) * $0.5)
                          ((b_2 box + b_5 box) * $0.5) in
    let _extents := mkVec3 (b_3 box - v_0 _center)
                           (b_4 box - v_1 _center)
                           (b_5 box - v_2 _center) in
    let _v0 := mkVec3 (v_0 a - v_0 _center) (v_1 a - v_1 _center)
                      (v_2 a - v_2 _center) in
    let _v1 := mkVec3 (v_0 b - v_0 _center) (v_1 b - v_1 _center)
                      (v_2 b - v_2 _center) in
    let _v2 := mkVec3 (v_0 c - v_0 _center) (v_1 c - v_1 _center)
                      (v_2 c - v_2 _center) in
    let _f0 := mkVec3 (v_0 _v1 - v_0 _v0) (v_1 _v1 - v_1 _v0) (v_2 _v1 - v_2 _v0) in
    let _f1 := mkVec3 (v_0 _v2 - v_0 _v1) (v_1 _v2 - v_1 _v1) (v_2 _v2 - v_2 _v1) in
    let _f2 := mkVec3 (v_0 _v0 - v_0 _v2) (v_1 _v0 - v_1 _v2) (v_2 _v0 - v_2 _v2) in
    let _axesCross :=
      [ $0; - v_2 _f0; v_1 _f0;
        $0; - v_2 _f1; v_1 _f1;
        $0; - v_2 _f2; v_1 _f2;
        v_2 _f0; $0; - v_0 _f0;
        v_2 _f1; $0; - v_0 _f1;
        v_2 _f2; $0; - v_0 _f2;
        - v_1 _f0; v_0 _f0; $0;
        - v_1 _f1; v_0 _f1; $0;
        - v_1 _f2; v_0 _f2; $0 ] in
    if negb (_satForAxes _v0 _v1 _v2 _extents _axesCross 9) then false
    else if negb (_satForAxes _v0 _v1 _v2 _extents _axesBoxFaces 3) then false
    else
      let _triangleNormal := vec3.cross _f0 _f1 in
      let _axisTriangle :=
        [ v_0 _triangleNormal; v_1 _triangleNormal; v_2 _triangleNormal ] in
      _satForAxes _v0 _v1 _v2 _extents _axisTriangle 1.

Definition intersectsSphere (box : Box3) (sphere : Sphere) : bool :=
  let center := center sphere in
  let radius := radius sphere in
  let _closestPoint :=
    mkVec3
      (if v_0 center <? b_0 box then b_0 box
       else if v_0 center >? b_3 box then b_3 box else v_0 center)
      (if v_1 center <? b_1 box then b_1 box
       else if v_1 center >? b_4 box then b_4 box else v_1 center)
      (if v_2 center <? b_2 box then b_2 box
       else if v_2 center >? b_5 box then b_5 box else v_2 center) in
  let dx := v_0 _closestPoint - v_0 center in
  let dy := v_1 _closestPoint - v_1 center in
  let dz := v_2 _closestPoint - v_2 center in
  dx * dx + dy * dy + dz * dz <=? radius * radius.

Definition intersectsPlane3 (box : Box3) (plane : Plane3) : bool :=
  let normal := normal plane in
  let constant := constant plane in
  let '(minDot, maxDot) :=
    if v_0 normal >? $0
    then (v_0 normal * b_0 box, v_0 normal * b_3 box)
    else (v_0 normal * b_3 box, v_0 normal * b_0 box) in
  let '(minDot, maxDot) :=
    if v_1 normal >? $0
    then (minDot + v_1 normal * b_1 box, maxDot + v_1 normal * b_4 box)
    else (minDot + v_1 normal * b_4 box, maxDot + v_1 normal * b_1 box) in
  let '(minDot, maxDot) :=
    if v_2 normal >? $0
    then (minDot + v_2 normal * b_2 box, maxDot + v_2 normal * b_5 box)
    else (minDot + v_2 normal * b_5 box, maxDot + v_2 normal * b_2 box) in
  (minDot + constant <=? $0) && (maxDot + constant >=? $0).

(** The remaining operations of [box3.ts].  Each writes all six entries of
    [out]; where an entry of [out] is written before the same entry of the
    input is read the two are the same index, so the result does not depend
    on whether [out] is the input array. *)

Definition clone (box : Box3) : Box3 :=
  mkBox3 (b_0 box) (b_1 box) (b_2 box) (b_3 box) (b_4 box) (b_5 box).

Definition copy (out box : Box3) : Box3 :=
  mkBox3 (b_0 box) (b_1 box) (b_2 box) (b_3 box) (b_4 box) (b_5 box).

Definition set (out : Box3) (minX minY minZ maxX maxY maxZ : num) : Box3 :=
  mkBox3 minX minY minZ maxX maxY maxZ.

Definition setFromVectors (out : Box3) (min max : Vec3) : Box3 :=
  mkBox3 (v_0 min) (v_1 min) (v_2 min) (v_0 max) (v_1 max) (v_2 max).

Definition min (box : Box3) : Vec3 := mkVec3 (b_0 box) (b_1 box) (b_2 box).

Definition max (box : Box3) : Vec3 := mkVec3 (b_3 box) (b_4 box) (b_5 box).

Definition exactEquals (a b : Box3) : bool :=
  (b_0 a =? b_0 b) &&
  (b_1 a =? b_1 b) &&
  (b_2 a =? b_2 b) &&
  (b_3 a =? b_3 b) &&
  (b_4 a =? b_4 b) &&
  (b_5 a =? b_5 b).

Section Equals.

(** [common.EPSILON]; [common.ts] is not under [src/]. *)
Variable EPSILON : num.

(** [Math.abs(a - b) <= EPSILON * Math.max(1.0, Math.abs(a), Math.abs(b))] *)
Definition close (a b : num) : bool :=
  nabs (a - b) <=? EPSILON * nmax (nmax $1 (nabs a)) (nabs b).

Definition equals (a b : Box3) : bool :=
  let a0 := b_0 a in
  let a1 := b_1 a in
  let a2 := b_2 a in
  let a3 := b_3 a in
  let a4 := b_4 a in
  let a5 := b_5 a in
  let b0 := b_0 b in
  let b1 := b_1 b in
  let b2 := b_2 b in
  let b3 := b_3 b in
  let b4 := b_4 b in
  let b5 := b_5 b in
  close a0 b0 && close a1 b1 && close a2 b2 &&
  close a3 b3 && close a4 b4 && close a5 b5.

End Equals.

Definition setFromCenterAndSize (out : Box3) (center size : Vec3) : Box3 :=
  let halfSize := vec3.scale size $0.5 in
  let _setFromCenterAndSize_min := vec3.subtract center halfSize in
  let _setFromCenterAndSize_max := vec3.add center halfSize in
  mkBox3 (v_0 _setFromCenterAndSize_min) (v_1 _setFromCenterAndSize_min)
         (v_2 _setFromCenterAndSize_min) (v_0 _setFromCenterAndSize_max)
         (v_1 _setFromCenterAndSize_max) (v_2 _setFromCenterAndSize_max).

Definition expandByPoint (box : Box3) (point : Vec3) : Box3 :=
  mkBox3 (nmin (b_0 box) (v_0 point))
         (nmin (b_1 box) (v_1 point))
         (nmin (b_2 box) (v_2 point))
         (nmax (b_3 box) (v_0 point))
         (nmax (b_4 box) (v_1 point))
         (nmax (b_5 box) (v_2 point)).

Definition expandByExtents (box : Box3) (vector : Vec3) : Box3 :=
  mkBox3 (b_0 box - v_0 vector)
         (b_1 box - v_1 vector)
         (b_2 box - v_2 vector)
         (b_3 box + v_0 vector)
         (b_4 box + v_1 vector)
         (b_5 box + v_2 vector).

Definition expandByMargin (box : Box3) (margin : num) : Box3 :=
  mkBox3 (b_0 box - margin)
         (b_1 box - margin)
         (b_2 box - margin)
         (b_3 box + margin)
         (b_4 box + margin)
         (b_5 box + margin).

Definition union (boxA boxB : Box3) : Box3 :=
  mkBox3 (nmin (b_0 boxA) (b_0 boxB))
         (nmin (b_1 boxA) (b_1 boxB))
         (nmin (b_2 boxA) (b_2 boxB))
         (nmax (b_3 boxA) (b_3 boxB))
         (nmax (b_4 boxA) (b_4 boxB))
         (nmax (b_5 boxA) (b_5 boxB)).

Definition center (box : Box3) : Vec3 :=
  mkVec3 ((b_0 box + b_3 box) * $0.5)
         ((b_1 box + b_4 box) * $0.5)
         ((b_2 box + b_5 box) * $0.5).

Definition extents (box : Box3) : Vec3 :=
  mkVec3 ((b_3 box - b_0 box) * $0.5)
         ((b_4 box - b_1 box) * $0.5)
         ((b_5 box - b_2 box) * $0.5).

Definition size (box : Box3) : Vec3 :=
  mkVec3 (b_3 box - b_0 box)
         (b_4 box - b_1 box)
         (b_5 box - b_2 box).

Definition surfaceArea (box : Box3) : num :=
  let width := b_3 box - b_0 box in
  let height := b_4 box - b_1 box in
  let depth := b_5 box - b_2 box in
  $2 * (width * height + width * depth + height * depth).

Definition scale (box : Box3) (scale : Vec3) : Box3 :=
  let minX := b_0 box * v_0 scale in
  let maxX := b_3 box * v_0 scale in
  let minY := b_1 box * v_1 scale in
  let maxY := b_4 box * v_1 scale in
  let minZ := b_2 box * v_2 scale in
  let maxZ := b_5 box * v_2 scale in
  mkBox3 (nmin minX maxX) (nmin minY maxY) (nmin minZ maxZ)
         (nmax minX maxX) (nmax minY maxY) (nmax minZ maxZ).

End box3.

(** ** mat3, mat4: the matrix helpers [obb3] calls *)

Module mat3.

(** Modelled from the spec: [mat3.create] of the absent [mat3.ts], the
    identity matrix. *)
Definition create : Mat3 := mkMat3 $1 $0 $0 $0 $1 $0 $0 $0 $1.

(** Modelled from the spec: [mat3.fromMat4] of the absent [mat3.ts], the
    upper-left 3x3 part of a 4x4 matrix. *)
Definition fromMat4 (a : Mat4) : Mat3 :=
  mkMat3 (e_0 a) (e_1 a) (e_2 a)
         (e_4 a) (e_5 a) (e_6 a)
         (e_8 a) (e_9 a) (e_10 a).

(** Modelled from the spec: [mat3.multiply] of the absent [mat3.ts], the
    matrix product [a . b] of column-major matrices. *)
Definition multiply (a b : Mat3) : Mat3 :=
  mkMat3
    (r_0 b * r_0 a + r_1 b * r_3 a + r_2 b * r_6 a)
    (r_0 b * r_1 a + r_1 b * r_4 a + r_2 b * r_7 a)
    (r_0 b * r_2 a + r_1 b * r_5 a + r_2 b * r_8 a)
    (r_3 b * r_0 a + r_4 b * r_3 a + r_5 b * r_6 a)
    (r_3 b * r_1 a + r_4 b * r_4 a + r_5 b * r_7 a)
    (r_3 b * r_2 a + r_4 b * r_5 a + r_5 b * r_8 a)
    (r_6 b * r_0 a + r_7 b * r_3 a + r_8 b * r_6 a)
    (r_6 b * r_1 a + r_7 b * r_4 a + r_8 b * r_7 a)
    (r_6 b * r_2 a + r_7 b * r_5 a + r_8 b * r_8 a).

(** Modelled from the spec: [mat3.identity] of the absent [mat3.ts]. *)
Definition identity (out : Mat3) : Mat3 := mkMat3 $1 $0 $0 $0 $1 $0 $0 $0 $1.

End mat3.

Module mat4.

(** Modelled from the spec: [mat4.determinant] of the absent [mat4.ts], the
    determinant of a 4x4 matrix (expansion by 2x2 minors). *)
Definition determinant (a : Mat4) : num :=
  let b0 := e_0 a * e_5 a - e_1 a * e_4 a in
  let b1 := e_0 a * e_6 a - e_2 a * e_4 a in
  let b2 := e_1 a * e_6 a - e_2 a * e_5 a in
  let b3 := e_8 a * e_13 a - e_9 a * e_12 a in
  let b4 := e_8 a * e_14 a - e_10 a * e_12 a in
  let b5 := e_9 a * e_14 a - e_10 a * e_13 a in
  let b6 := e_0 a * b5 - e_1 a * b4 + e_2 a * b3 in
  let b7 := e_4 a * b5 - e_5 a * b4 + e_6 a * b3 in
  let b8 := e_8 a * b2 - e_9 a * b1 + e_10 a * b0 in
  let b9 := e_12 a * b2 - e_13 a * b1 + e_14 a * b0 in
  e_7 a * b6 - e_3 a * b7 + e_15 a * b8 - e_11 a * b9.

End mat4.

(** ** obb3: oriented boxes (rotation stored as a [Mat3]) *)

Module obb3.

Record OBB3 : Type := mkOBB3 {
  center : Vec3;
  halfExtents : Vec3;
  rotation : Mat3 }.

Definition create : OBB3 :=
  mkOBB3 (mkVec3 $0 $0 $0) (mkVec3 $1 $1 $1) mat3.create.

(** [Number.EPSILON], the default [epsilon] of [intersectsOBB3]. *)
Definition EPSILON : num := $(1 # 4503599627370496).

Definition containsPoint (obb : OBB3) (point : Vec3) : bool :=
  let dx := v_0 point - v_0 (center obb) in
  let dy := v_1 point - v_1 (center obb) in
  let dz := v_2 point - v_2 (center obb) in
  let r := rotation obb in
  let _containsPoint_localPoint :=
    mkVec3 (dx * r_0 r + dy * r_1 r + dz * r_2 r)
           (dx * r_3 r + dy * r_4 r + dz * r_5 r)
           (dx * r_6 r + dy * r_7 r + dz * r_8 r) in
  (nabs (v_0 _containsPoint_localPoint) <=? v_0 (halfExtents obb)) &&
  (nabs (v_1 _containsPoint_localPoint) <=? v_1 (halfExtents obb)) &&
  (nabs (v_2 _containsPoint_localPoint) <=? v_2 (halfExtents obb)).

(** [out[0] += a * d; out[1] += ...; out[2] += ...] *)
Definition add_scaled (out axis : Vec3) (dist : num) : Vec3 :=
  mkVec3 (v_0 out + v_0 axis * dist)
         (v_1 out + v_1 axis * dist)
         (v_2 out + v_2 axis * dist).

(** [clampPoint(out, obb, point)]: [out] is overwritten with the centre
    before anything is read from it, so the result does not depend on what
    it held. *)
Definition clampPoint (obb : OBB3) (point : Vec3) : Vec3 :=
  let r := rotation obb in
  let _clampPoint_xAxis := mkVec3 (r_0 r) (r_1 r) (r_2 r) in
  let _clampPoint_yAxis := mkVec3 (r_3 r) (r_4 r) (r_5 r) in
  let _clampPoint_zAxis := mkVec3 (r_6 r) (r_7 r) (r_8 r) in
  let dx := v_0 point - v_0 (center obb) in
  let dy := v_1 point - v_1 (center obb) in
  let dz := v_2 point - v_2 (center obb) in
  let out := center obb in
  let dist := dx * v_0 _clampPoint_xAxis + dy * v_1 _clampPoint_xAxis
              + dz * v_2 _clampPoint_xAxis in
  let dist := nmax (- v_0 (halfExtents obb)) (nmin (v_0 (halfExtents obb)) dist) in
  let out := add_scaled out _clampPoint_xAxis dist in
  let dist := dx * v_0 _clampPoint_yAxis + dy * v_1 _clampPoint_yAxis
              + dz * v_2 _clampPoint_yAxis in
  let dist := nmax (- v_1 (halfExtents obb)) (nmin (v_1 (halfExtents obb)) dist) in
  let out := add_scaled out _clampPoint_yAxis dist in
  let dist := dx * v_0 _clampPoint_zAxis + dy * v_1 _clampPoint_zAxis
              + dz * v_2 _clampPoint_zAxis in
  let dist := nmax (- v_2 (halfExtents obb)) (nmin (v_2 (halfExtents obb)) dist) in
  let out := add_scaled out _clampPoint_zAxis dist in
  out.

(** Column [i] of a rotation matrix: the box axis [i]. *)
Definition axis (rot : Mat3) (i : nat) : Vec3 :=
  match i with
  | 0%nat => mkVec3 (r_0 rot) (r_1 rot) (r_2 rot)
  | 1%nat => mkVec3 (r_3 rot) (r_4 rot) (r_5 rot)
  | 2%nat => mkVec3 (r_6 rot) (r_7 rot) (r_8 rot)
  | _ => mkVec3 NaN NaN NaN
  end.

Section IntersectsOBB3.

Variables (a b : OBB3) (epsilon : num).

(** The scratch arrays of [intersectsOBB3], as functions of the indices. *)
Definition _intersectsOBB3_aU (i : nat) : Vec3 := axis (rotation a) i.
Definition _intersectsOBB3_bU (j : nat) : Vec3 := axis (rotation b) j.

Definition _intersectsOBB3_R (i j : nat) : num :=
  vec3.dot (_intersectsOBB3_aU i) (_intersectsOBB3_bU j).

Definition _intersectsOBB3_t : Vec3 := vec3.subtract (center b) (center a).

Definition _intersectsOBB3_tInA (i : nat) : num :=
  vget (mkVec3 (vec3.dot _intersectsOBB3_t (_intersectsOBB3_aU 0))
               (vec3.dot _intersectsOBB3_t (_intersectsOBB3_aU 1))
               (vec3.dot _intersectsOBB3_t (_intersectsOBB3_aU 2))) i.

Definition _intersectsOBB3_AbsR (i j : nat) : num :=
  nabs (_intersectsOBB3_R i j) + epsilon.

Definition a_halfExtents (i : nat) : num := vget (halfExtents a) i.
Definition b_halfExtents (i : nat) : num := vget (halfExtents b) i.

Local Notation "'R'" := _intersectsOBB3_R.
Local Notation "'AbsR'" := _intersectsOBB3_AbsR.
Local Notation "'tInA'" := _intersectsOBB3_tInA.
Local Notation "'ah'" := a_halfExtents.
Local Notation "'bh'" := b_halfExtents.

Definition intersectsOBB3 : bool :=
  (* Test axes L = A0, L = A1, L = A2 *)
  if existsb (fun i =>
       let ra := ah i in
       let rb := bh 0 * AbsR i 0 + bh 1 * AbsR i 1 + bh 2 * AbsR i 2 in
       nabs (tInA i) >? ra + rb) (seq 0 3) then false
  (* Test axes L = B0, L = B1, L = B2 *)
  else if existsb (fun i =>
       let ra := ah 0 * AbsR 0 i + ah 1 * AbsR 1 i + ah 2 * AbsR 2 i in
       let rb := bh i in
       nabs (tInA 0 * R 0 i + tInA 1 * R 1 i + tInA 2 * R 2 i) >? ra + rb)
       (seq 0 3) then false
  (* Test axis L = A0 x B0 *)
  else if nabs (tInA 2 * R 1 0 - tInA 1 * R 2 0)
          >? (ah 1 * AbsR 2 0 + ah 2 * AbsR 1 0)
             + (bh 1 * AbsR 0 2 + bh 2 * AbsR 0 1) then false
  (* Test axis L = A0 x B1 *)
  else if nabs (tInA 2 * R 1 1 - tInA 1 * R 2 1)
          >? (ah 1 * AbsR 2 1 + ah 2 * AbsR 1 1)
             + (bh 0 * AbsR 0 2 + bh 2 * AbsR 0 0) then false
  (* Test axis L = A0 x B2 *)
  else if nabs (tInA 2 * R 1 2 - tInA 1 * R 2 2)
          >? (ah 1 * AbsR 2 2 + ah 2 * AbsR 1 2)
             + (bh 0 * AbsR 0 1 + bh 1 * AbsR 0 0) then false
  (* Test axis L = A1 x B0 *)
  else if nabs (tInA 0 * R 2 0 - tInA 2 * R 0 0)
          >? (ah 0 * AbsR 2 0 + ah 2 * AbsR 0 0)
             + (bh 1 * AbsR 1 2 + bh 2 * AbsR 1 1) then false
  (* Test axis L = A1 x B1 *)
  else if nabs (tInA 0 * R 2 1 - tInA 2 * R 0 1)
          >? (ah 0 * AbsR 2 1 + ah 2 * AbsR 0 1)
             + (bh 0 * AbsR 1 2 + bh 2 * AbsR 1 0) then false
  (* Test axis L = A1 x B2 *)
  else if nabs (tInA 0 * R 2 2 - tInA 2 * R 0 2)
          >? (ah 0 * AbsR 2 2 + ah 2 * AbsR 0 2)
             + (bh 0 * AbsR 1 1 + bh 1 * AbsR 1 0) then false
  (* Test axis L = A2 x B0 *)
  else if nabs (tInA 1 * R 0 0 - tInA 0 * R 1 0)
          >? (ah 0 * AbsR 1 0 + ah 1 * AbsR 0 0)
             + (bh 1 * AbsR 2 2 + bh 2 * AbsR 2 1) then false
  (* Test axis L = A2 x B1 *)
  else if nabs (tInA 1 * R 0 1 - tInA 0 * R 1 1)
          >? (ah 0 * AbsR 1 1 + ah 1 * AbsR 0 1)
             + (bh 0 * AbsR 2 2 + bh 2 * AbsR 2 0) then false
  (* Test axis L = A2 x B2 *)
  else if nabs (tInA 1 * R 0 2 - tInA 0 * R 1 2)
          >? (ah 0 * AbsR 1 2 + ah 1 * AbsR 0 2)
             + (bh 0 * AbsR 2 1 + bh 1 * AbsR 2 0) then false
  else true.

End IntersectsOBB3.

Section ApplyMatrix4.

(** [Math.sqrt]; the rationals are not closed under square roots, so it is
    left as a parameter of [applyMatrix4]. *)
Variable sqrt : num -> num.

Definition applyMatrix4 (obb : OBB3) (matrix : Mat4) : OBB3 :=
  let e := matrix in
  let sx := sqrt (e_0 e * e_0 e + e_1 e * e_1 e + e_2 e * e_2 e) in
  let sy := sqrt (e_4 e * e_4 e + e_5 e * e_5 e + e_6 e * e_6 e) in
  let sz := sqrt (e_8 e * e_8 e + e_9 e * e_9 e + e_10 e * e_10 e) in
  let det := mat4.determinant matrix in
  let sx := if det <? $0 then - sx else sx in
  let _applyMatrix4_rotationMat := mat3.fromMat4 matrix in
  let invSX := $1 / sx in
  let invSY := $1 / sy in
  let invSZ := $1 / sz in
  let m := _applyMatrix4_rotationMat in
  let _applyMatrix4_rotationMat :=
    mkMat3 (r_0 m * invSX) (r_1 m * invSX) (r_2 m * invSX)
           (r_3 m * invSY) (r_4 m * invSY) (r_5 m * invSY)
           (r_6 m * invSZ) (r_7 m * invSZ) (r_8 m * invSZ) in
  let out_rotation := mat3.multiply _applyMatrix4_rotationMat (rotation obb) in
  let out_halfExtents :=
    mkVec3 (v_0 (halfExtents obb) * nabs sx)
           (v_1 (halfExtents obb) * nabs sy)
           (v_2 (halfExtents obb) * nabs sz) in
  let out_center := vec3.transformMat4 (center obb) matrix in
  mkOBB3 out_center out_halfExtents out_rotation.

End ApplyMatrix4.

(** [Box3] as this version of [obb3.ts] reads it: the pair [[min, max]]. *)
Definition Box3 : Type := (Vec3 * Vec3)%type.

Definition setFromBox3 (out : OBB3) (aabb : Box3) : OBB3 :=
  let min := fst aabb in
  let max := snd aabb in
  mkOBB3
    (mkVec3 ((v_0 min + v_0 max) * $0.5)
            ((v_1 min + v_1 max) * $0.5)
            ((v_2 min + v_2 max) * $0.5))
    (mkVec3 ((v_0 max - v_0 min) * $0.5)
            ((v_1 max - v_1 min) * $0.5)
            ((v_2 max - v_2 min) * $0.5))
    (mat3.identity (rotation out)).

(** [intersectsBox3(obb, aabb)]: the scratch OBB [_intersectsBox3_obbFromAABB]
    is overwritten in full by [setFromBox3]. *)
Definition intersectsBox3 (obb : OBB3) (aabb : Box3) : bool :=
  let obbFromAABB := setFromBox3 create aabb in
  intersectsOBB3 obb obbFromAABB EPSILON.

End obb3.

(** ** obb3 before 0.0.10: rotation stored as a quaternion

    The earlier [obb3.ts] that the repository still carries.  The changelog
    of 0.0.10 records the change of representation and the repair of
    [applyMatrix4]; only that function is embedded here, for comparison. *)

Module obb3_legacy.

Record Quat : Type := mkQuat { q_0 : num; q_1 : num; q_2 : num; q_3 : num }.

Record OBB3 : Type := mkOBB3 {
  center : Vec3;
  halfExtents : Vec3;
  quaternion : Quat }.

Section ApplyMatrix4.

(** [Math.sqrt] and the quaternion helpers of the absent [mat3.ts] and
    [quat.ts]. *)
Variable sqrt : num -> num.
Variable mat3_fromQuat : Quat -> Mat3.
Variable quat_fromMat3 : Mat3 -> Quat.
Variable quat_normalize : Quat -> Quat.

(** Modelled from the spec: [vec3.add] of the absent [vec3.ts],
    component-wise [a + b]. *)
Definition vec3_add (a b : Vec3) : Vec3 :=
  mkVec3 (v_0 a + v_0 b) (v_1 a + v_1 b) (v_2 a + v_2 b).

Definition applyMatrix4 (obb : OBB3) (matrix : Mat4) : OBB3 :=
  let e := matrix in
  let sx := sqrt (e_0 e * e_0 e + e_1 e * e_1 e + e_2 e * e_2 e) in
  let sy := sqrt (e_4 e * e_4 e + e_5 e * e_5 e + e_6 e * e_6 e) in
  let sz := sqrt (e_8 e * e_8 e + e_9 e * e_9 e + e_10 e * e_10 e) in
  let det := mat4.determinant matrix in
  let sx := if det <? $0 then - sx else sx in
  let _applyMatrix4_rotationMat := mat3.fromMat4 matrix in
  let invSX := $1 / sx in
  let invSY := $1 / sy in
  let invSZ := $1 / sz in
  let m := _applyMatrix4_rotationMat in
  let _applyMatrix4_rotationMat :=
    mkMat3 (r_0 m * invSX) (r_1 m * invSX) (r_2 m * invSX)
           (r_3 m * invSY) (r_4 m * invSY) (r_5 m * invSY)
           (r_6 m * invSZ) (r_7 m * invSZ) (r_8 m * invSZ) in
  let _applyMatrix4_currentRot := mat3_fromQuat (quaternion obb) in
  let _applyMatrix4_currentRot :=
    mat3.multiply _applyMatrix4_currentRot _applyMatrix4_rotationMat in
  let out_quaternion := quat_fromMat3 _applyMatrix4_currentRot in
  let out_quaternion := quat_normalize out_quaternion in
  let out_halfExtents :=
    mkVec3 (v_0 (halfExtents obb) * nabs sx)
           (v_1 (halfExtents obb) * nabs sy)
           (v_2 (halfExtents obb) * nabs sz) in
  let _applyMatrix4_translation := mkVec3 (e_12 e) (e_13 e) (e_14 e) in
  let out_center := vec3_add (center obb) _applyMatrix4_translation in
  mkOBB3 out_center out_halfExtents out_quaternion.

End ApplyMatrix4.

End obb3_legacy.

(** ** raycast3: bounded rays *)

Module raycast3.

Record Raycast3 : Type := mkRaycast3 {
  origin : Vec3;
  direction : Vec3;
  length : num }.

(** [Box3] as this module reads it: the pair [[min, max]] of corners. *)
Definition Box3 : Type := (Vec3 * Vec3)%type.

Record IntersectsTriangleResult : Type := mkIntersectsTriangleResult {
  fraction : num;
  hit : bool;
  frontFacing : bool }.

Definition createIntersectsTriangleResult : IntersectsTriangleResult :=
  mkIntersectsTriangleResult $0 false false.

(** Field writes on the result object. *)
Definition set_hit (out : IntersectsTriangleResult) (h : bool) :=
  mkIntersectsTriangleResult (fraction out) h (frontFacing out).
Definition set_fraction (out : IntersectsTriangleResult) (f : num) :=
  mkIntersectsTriangleResult f (hit out) (frontFacing out).
Definition set_frontFacing (out : IntersectsTriangleResult) (f : bool) :=
  mkIntersectsTriangleResult (fraction out) (hit out) f.

(** The three writes of every rejecting branch:
    [out.hit = false; out.fraction = 0; out.frontFacing = false]. *)
Definition reject (out : IntersectsTriangleResult) : IntersectsTriangleResult :=
  set_frontFacing (set_fraction (set_hit out false) $0) false.

(** [intersectsTriangle(out, ray, a, b, c, backfaceCulling)] returns nothing
    and writes its result into [out]; the embedding returns the object as
    the call leaves it. *)
Definition intersectsTriangle (out : IntersectsTriangleResult) (ray : Raycast3)
    (a b c : Vec3) (backfaceCulling : bool) : IntersectsTriangleResult :=
  let _edge1 := vec3.subtract b a in
  let _edge2 := vec3.subtract c a in
  let _normal := vec3.cross _edge1 _edge2 in
  let DdN := vec3.dot (direction ray) _normal in
  (* [Some (sign, DdN)] when the function goes on, [None] when it returned *)
  let facing :=
    if DdN >? $0 then
      if backfaceCulling then None else Some ($1, DdN)
    else if DdN <? $0 then Some ($(-1), - DdN)
    else None in
  match facing with
  | None => reject out
  | Some (sign, DdN) =>
      let _diff := vec3.subtract (origin ray) a in
      let _temp := vec3.cross _diff _edge2 in
      let DdQxE2 := sign * vec3.dot (direction ray) _temp in
      if DdQxE2 <? $0 then reject out
      else
        let _temp := vec3.cross _edge1 _diff in
        let DdE1xQ := sign * vec3.dot (direction ray) _temp in
        if DdE1xQ <? $0 then reject out
        else if DdQxE2 + DdE1xQ >? DdN then reject out
        else
          let QdN := - sign * vec3.dot _diff _normal in
          if QdN <? $0 then reject out
          else
            let t := QdN / DdN in
            if t <=? length ray then
              set_frontFacing
                (set_fraction (set_hit out true) (t / length ray))
                (sign <? $0)
            else reject out
  end.

(** The slab loop of [intersectsBox3]: [i] is the loop counter, [n] the
    number of iterations left, [tmin] and [tmax] the running interval. *)
Fixpoint intersectsBox3_loop (ray : Raycast3) (aabb : Box3)
    (tmin tmax : num) (i n : nat) : bool :=
  match n with
  | O => true
  | S n' =>
      let d := vget (direction ray) i in
      if nabs d <? $(1 # 10000000000) then
        if (vget (origin ray) i <? vget (fst aabb) i)
           || (vget (origin ray) i >? vget (snd aabb) i)
        then false
        else intersectsBox3_loop ray aabb tmin tmax (S i) n'
      else
        let invD := $1 / d in
        let t0 := (vget (fst aabb) i - vget (origin ray) i) * invD in
        let t1 := (vget (snd aabb) i - vget (origin ray) i) * invD in
        let '(t0, t1) := if invD <? $0 then (t1, t0) else (t0, t1) in
        let tmin := nmax tmin t0 in
        let tmax := nmin tmax t1 in
        if tmax <? tmin then false
        else intersectsBox3_loop ray aabb tmin tmax (S i) n'
  end.

Definition intersectsBox3 (ray : Raycast3) (aabb : Box3) : bool :=
  let tmin := $0 in
  let tmax := length ray in
  intersectsBox3_loop ray aabb tmin tmax 0 3.

End raycast3.

(** ** triangle3 *)

Module triangle3.

(** [Math.min(a, b, c)] and [Math.max(a, b, c)]. *)
Definition nmin3 (a b c : num) : num := nmin (nmin a b) c.
Definition nmax3 (a b c : num) : num := nmax (nmax a b) c.

Definition bounds (out : Box3) (a b c : Vec3) : Box3 :=
  mkBox3 (nmin3 (v_0 a) (v_0 b) (v_0 c))
         (nmin3 (v_1 a) (v_1 b) (v_1 c))
         (nmin3 (v_2 a) (v_2 b) (v_2 c))
         (nmax3 (v_0 a) (v_0 b) (v_0 c))
         (nmax3 (v_1 a) (v_1 b) (v_1 c))
         (nmax3 (v_2 a) (v_2 b) (v_2 c)).

Section Normal.

(** [Math.sqrt], a parameter as in [obb3.applyMatrix4]. *)
Variable sqrt : num -> num.

Definition normal (a b c : Vec3) : Vec3 :=
  let abx := v_0 b - v_0 a in
  let aby := v_1 b - v_1 a in
  let abz := v_2 b - v_2 a in
  let acx := v_0 c - v_0 a in
  let acy := v_1 c - v_1 a in
  let acz := v_2 c - v_2 a in
  let out := mkVec3 (aby * acz - abz * acy)
                    (abz * acx - abx * acz)
                    (abx * acy - aby * acx) in
  let length := sqrt (v_0 out * v_0 out + v_1 out * v_1 out + v_2 out * v_2 out) in
  if length >? $0
  then mkVec3 (v_0 out / length) (v_1 out / length) (v_2 out / length)
  else out.

End Normal.

Definition centroid (a b c : Vec3) : Vec3 :=
  mkVec3 ((v_0 a + v_0 b + v_0 c) / $3)
         ((v_1 a + v_1 b + v_1 c) / $3)
         ((v_2 a + v_2 b + v_2 c) / $3).

End triangle3.

(** ** plane3: planes [dot(normal, p) + constant = 0] *)

Module plane3.

Definition create : Plane3 := mkPlane3 (mkVec3 $0 $1 $0) $0.

Definition fromNormalAndConstant (out : Plane3) (normal : Vec3) (constant : num)
    : Plane3 :=
  mkPlane3 normal constant.

Definition fromNormalAndPoint (out : Plane3) (normal point : Vec3) : Plane3 :=
  mkPlane3 normal (- vec3.dot normal point).

Definition negate (plane : Plane3) : Plane3 :=
  mkPlane3 (vec3.negate (normal plane)) (- constant plane).

Definition offset (plane : Plane3) (distance : num) : Plane3 :=
  mkPlane3 (normal plane) (constant plane - distance).

Definition distanceToPoint (plane : Plane3) (point : Vec3) : num :=
  vec3.dot (normal plane) point + constant plane.

Definition projectPoint (plane : Plane3) (point : Vec3) : Vec3 :=
  let distance := distanceToPoint plane point in
  vec3.scaleAndAdd point (normal plane) (- distance).

Definition intersectsSphere (plane : Plane3) (sphere : Sphere) : bool :=
  let distance := nabs (distanceToPoint plane (center sphere)) in
  distance <=? radius sphere.

(** [intersect(p1, p2, p3, out)] returns the boolean and leaves the point in
    [out]; the embedding returns both, [out] unchanged when the answer is
    false. *)
Definition intersect (p1 p2 p3 : Plane3) (out : Vec3) : bool * Vec3 :=
  let n1 := normal p1 in
  let n2 := normal p2 in
  let n3 := normal p3 in
  let n2_cross_n3 := vec3.cross n2 n3 in
  let denom := vec3.dot n1 n2_cross_n3 in
  if nabs denom <? $0.000001 then (false, out)
  else
    let n3_cross_n1 := vec3.cross n3 n1 in
    let n1_cross_n2 := vec3.cross n1 n2 in
    let term1 := vec3.scale n2_cross_n3 (constant p1) in
    let term2 := vec3.scale n3_cross_n1 (constant p2) in
    let term3 := vec3.scale n1_cross_n2 (constant p3) in
    let out := vec3.add term1 term2 in
    let out := vec3.add out term3 in
    let out := vec3.scale out ($(-1) / denom) in
    (true, out).

End plane3.

(** ** circumcircle *)

Record Vec2 : Type := mkVec2 { w_0 : num; w_1 : num }.

Record Circle : Type := mkCircle { circle_center : Vec2; circle_radius : num }.

Module vec2.

(** Modelled from the spec: the helpers of the absent [vec2.ts], with the
    usual meaning. *)
Definition subtract (a b : Vec2) : Vec2 := mkVec2 (w_0 a - w_0 b) (w_1 a - w_1 b).
Definition add (a b : Vec2) : Vec2 := mkVec2 (w_0 a + w_0 b) (w_1 a + w_1 b).
Definition dot (a b : Vec2) : num := w_0 a * w_0 b + w_1 a * w_1 b.

Section Distance.
Variable sqrt : num -> num.

(** Modelled from the spec: [vec2.distance], the Euclidean distance. *)
Definition distance (a b : Vec2) : num :=
  let x := w_0 b - w_0 a in
  let y := w_1 b - w_1 a in
  sqrt (x * x + y * y).

End Distance.

End vec2.

Section Circumcircle.

(** [Math.sqrt] and [common.EPSILON] ([common.ts] is not under [src/]). *)
Variable sqrt : num -> num.
Variable EPSILON : num.

Definition circumcircle (out : Circle) (a b c : Vec2) : Circle :=
  let v1 := mkVec2 $0 $0 in
  let v2 := vec2.subtract b a in
  let v3 := vec2.subtract c a in
  let v2 := vec2.subtract v2 v1 in
  let v3 := vec2.subtract v3 v1 in
  let cp := w_0 v2 * w_1 v3 - w_1 v2 * w_0 v3 in
  if nabs cp >? EPSILON then
    let v1Sq := vec2.dot v1 v1 in
    let v2Sq := vec2.dot v2 v2 in
    let v3Sq := vec2.dot v3 v3 in
    let c0 := (v1Sq * (w_1 v2 - w_1 v3) + v2Sq * (w_1 v3 - w_1 v1)
               + v3Sq * (w_1 v1 - w_1 v2)) / ($2 * cp) in
    let c1 := (v1Sq * (w_0 v3 - w_0 v2) + v2Sq * (w_0 v1 - w_0 v3)
               + v3Sq * (w_0 v2 - w_0 v1)) / ($2 * cp) in
    let out_center := mkVec2 c0 c1 in
    let r := vec2.distance sqrt out_center v1 in
    let out_center := vec2.add out_center a in
    mkCircle out_center r
  else
    mkCircle a $0.

End Circumcircle.

(** * Definitions used by the statements *)

(** ** Values given by rational coordinates *)

Definition vec3_of (x y z : Q) : Vec3 := mkVec3 $x $y $z.

Definition mat3_of (r0 r1 r2 r3 r4 r5 r6 r7 r8 : Q) : Mat3 :=
  mkMat3 $r0 $r1 $r2 $r3 $r4 $r5 $r6 $r7 $r8.

(** ** Equality and well-formedness *)

(** The same box: the same six numbers. *)
Definition box3_eq (a b : Box3) : Prop :=
  num_eq (b_0 a) (b_0 b) /\ num_eq (b_1 a) (b_1 b) /\ num_eq (b_2 a) (b_2 b) /\
  num_eq (b_3 a) (b_3 b) /\ num_eq (b_4 a) (b_4 b) /\ num_eq (b_5 a) (b_5 b).

(** No bound of the box is [NaN]. *)
Definition box3_noNaN (b : Box3) : bool :=
  negb (isNaN (b_0 b)) && negb (isNaN (b_1 b)) && negb (isNaN (b_2 b)) &&
  negb (isNaN (b_3 b)) && negb (isNaN (b_4 b)) && negb (isNaN (b_5 b)).

(** No component of the vector is [NaN]. *)
Definition vec3_noNaN (v : Vec3) : bool :=
  negb (isNaN (v_0 v)) && negb (isNaN (v_1 v)) && negb (isNaN (v_2 v)).

Definition obb3_finite (obb : obb3.OBB3) : bool :=
  vec3_finite (obb3.center obb) && vec3_finite (obb3.halfExtents obb) &&
  mat3_finite (obb3.rotation obb).

(** The columns of the matrix are unit vectors, orthogonal to each other. *)
Definition mat3_orthonormal (r : Mat3) : bool :=
  (vec3.dot (obb3.axis r 0) (obb3.axis r 0) =? $1) &&
  (vec3.dot (obb3.axis r 1) (obb3.axis r 1) =? $1) &&
  (vec3.dot (obb3.axis r 2) (obb3.axis r 2) =? $1) &&
  (vec3.dot (obb3.axis r 0) (obb3.axis r 1) =? $0) &&
  (vec3.dot (obb3.axis r 0) (obb3.axis r 2) =? $0) &&
  (vec3.dot (obb3.axis r 1) (obb3.axis r 2) =? $0).

(** ** Boxes *)

Definition unit_box : Box3 := mkBox3 $0 $0 $0 $1 $1 $1.

(** The box whose bounds are all infinite, [[-inf,-inf,-inf,+inf,+inf,+inf]]. *)
Definition full_box : Box3 := mkBox3 NInf NInf NInf PInf PInf PInf.

(** Two closed intervals [[alo, ahi]] and [[blo, bhi]] overlap or touch. *)
Definition interval_overlap (alo ahi blo bhi : num) : bool :=
  (alo <=? bhi) && (ahi >=? blo).

(** The end of one interval is the start of the other. *)
Definition interval_touch (alo ahi blo bhi : num) : bool :=
  (ahi =? blo) || (bhi =? alo).

(** Two boxes touch exactly: on some axis the maximum of one is the minimum
    of the other, and on the two remaining axes their intervals overlap or
    touch. *)
Definition boxes_touch (a b : Box3) : bool :=
  (interval_touch (b_0 a) (b_3 a) (b_0 b) (b_3 b) &&
   interval_overlap (b_1 a) (b_4 a) (b_1 b) (b_4 b) &&
   interval_overlap (b_2 a) (b_5 a) (b_2 b) (b_5 b))
  || (interval_overlap (b_0 a) (b_3 a) (b_0 b) (b_3 b) &&
      interval_touch (b_1 a) (b_4 a) (b_1 b) (b_4 b) &&
      interval_overlap (b_2 a) (b_5 a) (b_2 b) (b_5 b))
  || (interval_overlap (b_0 a) (b_3 a) (b_0 b) (b_3 b) &&
      interval_overlap (b_1 a) (b_4 a) (b_1 b) (b_4 b) &&
      interval_touch (b_2 a) (b_5 a) (b_2 b) (b_5 b)).

(** The running minimum and maximum that [transformMat4] keeps per axis. *)
Definition acc_lo (c lo : num) : num := if c <? lo then c else lo.
Definition acc_hi (c hi : num) : num := if c >? hi then c else hi.

(** ** Matrices *)

(** The identity matrix. *)
Definition identity4 : Mat4 :=
  mkMat4 $1 $0 $0 $0  $0 $1 $0 $0  $0 $0 $1 $0  $0 $0 $0 $1.

(** The rotation by a quarter turn about the z axis. *)
Definition quarter_turn_z : Mat4 :=
  mkMat4 $0 $1 $0 $0
         $(-1) $0 $0 $0
         $0 $0 $1 $0
         $0 $0 $0 $1.

(** The rotation by 45 degrees about the z axis, with the cosine and the
    sine rounded to sixteen digits as [Math.cos] and [Math.sin] give them. *)
Definition cos45 : Q := 0.7071067811865476.
Definition sin45 : Q := 0.7071067811865475.
Definition rotation_z_45 : Mat4 :=
  mkMat4 $cos45 $sin45 $0 $0
         $(- sin45) $cos45 $0 $0
         $0 $0 $1 $0
         $0 $0 $0 $1.

(** A rotation about z by the angle whose cosine is 3/5 and sine 4/5. *)
Definition rotation_345 : Mat3 :=
  mat3_of 0.6 0.8 0  (-0.8) 0.6 0  0 0 1.

(** ** Oriented boxes *)

Definition obb_unit : obb3.OBB3 :=
  obb3.mkOBB3 (vec3_of 0 0 0) (vec3_of 1 1 1) mat3.create.

Definition obb_345 : obb3.OBB3 :=
  obb3.mkOBB3 (vec3_of 1 2 3) (vec3_of 1 1 1) rotation_345.

(** ** Rays and triangles *)

(** The ray from the origin along [+z], of the given length, and the box
    [[-1,-1,2], [1,1,4]] ahead of it. *)
Definition ray_along_z (len : num) : raycast3.Raycast3 :=
  raycast3.mkRaycast3 (vec3_of 0 0 0) (vec3_of 0 0 1) len.

Definition box_ahead : raycast3.Box3 :=
  (vec3_of (-1) (-1) 2, vec3_of 1 1 4).

(** [DdN] of [intersectsTriangle]: the ray direction against the geometric
    normal [(b - a) x (c - a)]. *)
Definition triangle_DdN (ray : raycast3.Raycast3) (a b c : Vec3) : num :=
  vec3.dot (raycast3.direction ray)
           (vec3.cross (vec3.subtract b a) (vec3.subtract c a)).

(** A result object as an earlier, successful call leaves it. *)
Definition stale_result : raycast3.IntersectsTriangleResult :=
  raycast3.mkIntersectsTriangleResult $0.5 true true.

(** The triangle and the ray of the repository's ray-triangle tests; the
    direction [[1,1,1]] is left unnormalised, which changes neither the
    outcome nor the facing. *)
Definition tri_a : Vec3 := vec3_of 1 1 0.
Definition tri_b : Vec3 := vec3_of 0 1 1.
Definition tri_c : Vec3 := vec3_of 1 0 1.
Definition diagonal_ray : raycast3.Raycast3 :=
  raycast3.mkRaycast3 (vec3_of 0 0 0) (vec3_of 1 1 1) $10.


(** * Definitions used by the further properties *)

(** A box given by rational bounds. *)
Definition box3_of (m0 m1 m2 M0 M1 M2 : Q) : Box3 :=
  mkBox3 $m0 $m1 $m2 $M0 $M1 $M2.

(** Component-wise product of two vectors. *)
Definition vec3_times (p s : Vec3) : Vec3 :=
  mkVec3 (v_0 p * v_0 s) (v_1 p * v_1 s) (v_2 p * v_2 s).

(** The interval [[minP, maxP]] that [_satForAxes] keeps of the three
    projections. *)
Definition projected_interval (p0 p1 p2 : num) : num * num :=
  let minP := p0 in
  let maxP := p0 in
  let '(minP, maxP) :=
    if p1 <? minP then (p1, maxP)
    else if p1 >? maxP then (minP, p1) else (minP, maxP) in
  if p2 <? minP then (p2, maxP)
  else if p2 >? maxP then (minP, p2) else (minP, maxP).

(** The coordinate of the box closest to [c] on one axis. *)
Definition clamp_axis (m M c : Q) : Q :=
  if Qltb c m then m else if Qltb M c then M else c.

(** The direction component the slab loop works with: a component below
    [1e-10] in absolute value is treated as zero. *)
Definition slab_direction (d : Q) : Q :=
  if Qltb (Qabs d) (1 # 10000000000) then 0%Q else d.

(** One iteration of the slab loop on finite values: the new interval, or
    [None] where the loop returns false. *)
Definition slab (o d mn mx : Q) (tmin tmax : Q) : option (Q * Q) :=
  if Qltb (Qabs d) (1 # 10000000000) then
    if Qltb o mn || Qltb mx o then None else Some (tmin, tmax)
  else
    let invD := (1 / d)%Q in
    let t0 := ((mn - o) * invD)%Q in
    let t1 := ((mx - o) * invD)%Q in
    let lo := if Qltb invD 0 then t1 else t0 in
    let hi := if Qltb invD 0 then t0 else t1 in
    let tmin' := if Qle_bool tmin lo then lo else tmin in
    let tmax' := if Qle_bool tmax hi then tmax else hi in
    if Qltb tmax' tmin' then None else Some (tmin', tmax').

(** Every component is at least zero. *)
Definition vec3_nonneg (v : Vec3) : bool :=
  ($0 <=? v_0 v) && ($0 <=? v_1 v) && ($0 <=? v_2 v).

(** * Properties *)

(** ** Comparisons and finite values *)

Lemma Qltb_lt (x y : Q) : Qltb x y = true <-> x < y.
Proof.
  unfold Qltb. rewrite negb_true_iff.
  destruct (Qle_bool y x) eqn:E.
  - apply Qle_bool_iff in E. split; [discriminate | intro; lra].
  - split; [intros _ | reflexivity].
    destruct (Qlt_le_dec x y) as [H | H]; [exact H |].
    apply Qle_bool_iff in H. congruence.
Qed.

Lemma Qltb_ge (x y : Q) : Qltb x y = false <-> y <= x.
Proof.
  unfold Qltb. rewrite negb_false_iff. apply Qle_bool_iff.
Qed.

Lemma Qle_bool_gt (x y : Q) : Qle_bool x y = false <-> y < x.
Proof.
  rewrite <- Qltb_lt. unfold Qltb. rewrite negb_true_iff. reflexivity.
Qed.

Lemma Qeq_bool_neq_iff (x y : Q) : Qeq_bool x y = false <-> ~ x == y.
Proof.
  split.
  - intros E H. apply Qeq_bool_iff in H. congruence.
  - intro H. destruct (Qeq_bool x y) eqn:E; [| reflexivity].
    apply Qeq_bool_iff in E. contradiction.
Qed.

Lemma isFinite_inv (a : num) : isFinite a = true -> exists q, a = Fin q.
Proof. destruct a; try discriminate. intros _. eexists; reflexivity. Qed.

Lemma neqb_zero_inv (a : num) : (a =? $0) = true -> exists q, a = Fin q /\ q == 0.
Proof.
  destruct a; simpl; try discriminate.
  intro H. apply Qeq_bool_iff in H. eauto.
Qed.

(** Turn the boolean comparisons of rationals in the context and in the
    goal into propositions. *)
Ltac q_props :=
  repeat match goal with
  | H : Qle_bool _ _ = true |- _ => apply Qle_bool_iff in H
  | H : Qle_bool _ _ = false |- _ => apply Qle_bool_gt in H
  | H : Qltb _ _ = true |- _ => apply Qltb_lt in H
  | H : Qltb _ _ = false |- _ => apply Qltb_ge in H
  | H : Qeq_bool _ _ = true |- _ => apply Qeq_bool_iff in H
  | H : Qeq_bool _ _ = false |- _ => apply Qeq_bool_neq_iff in H
  | |- Qle_bool _ _ = true => apply Qle_bool_iff
  | |- Qle_bool _ _ = false => apply Qle_bool_gt
  | |- Qltb _ _ = true => apply Qltb_lt
  | |- Qltb _ _ = false => apply Qltb_ge
  | |- Qeq_bool _ _ = true => apply Qeq_bool_iff
  | |- Qeq_bool _ _ = false => apply Qeq_bool_neq_iff
  end.

(** The order on numbers, [NaN] apart. *)
Lemma nleb_refl (a : num) : isNaN a = false -> (a <=? a) = true.
Proof.
  destruct a; simpl; try reflexivity; try discriminate.
  intros _. apply Qle_bool_iff. lra.
Qed.

Lemma nleb_trans (a b c : num) :
  (a <=? b) = true -> (b <=? c) = true -> (a <=? c) = true.
Proof.
  destruct a, b, c; simpl; try reflexivity; try discriminate.
  intros. q_props. lra.
Qed.

Lemma nltb_nleb (a b : num) : (a <? b) = true -> (a <=? b) = true.
Proof.
  destruct a, b; simpl; try reflexivity; try discriminate.
  intros. q_props. lra.
Qed.

Lemma nleb_total (a b : num) :
  isNaN a = false -> isNaN b = false -> (a <? b) = false -> (b <=? a) = true.
Proof.
  destruct a, b; simpl; try reflexivity; try discriminate.
  intros. q_props. lra.
Qed.

Lemma neqb_nleb (a b : num) : (a =? b) = true -> (a <=? b) = true /\ (b <=? a) = true.
Proof.
  destruct a, b; simpl; try discriminate; try (split; reflexivity).
  intros. q_props. split; q_props; lra.
Qed.

Lemma Qsign_pos (x : Q) : Qltb 0 x = true -> Qsign x = Gt.
Proof.
  intro H. apply Qltb_lt in H. unfold Qsign. apply Qgt_alt. exact H.
Qed.

Lemma Qsign_nonpos (x : Q) : Qltb 0 x = false -> Qsign x = Lt \/ Qsign x = Eq.
Proof.
  intro H. apply Qltb_ge in H. unfold Qsign.
  destruct (x ?= 0)%Q eqn:E; auto.
  apply Qgt_alt in E. lra.
Qed.

(** ** The embedding on the inputs of the repository's tests *)

Example test_raycast_box_in_front :
  raycast3.intersectsBox3
    (raycast3.mkRaycast3 (vec3_of 0 0 0) (vec3_of 0 0 1) $10)
    (vec3_of (-1) (-1) 2, vec3_of 1 1 4) = true.
Proof. vm_compute. reflexivity. Qed.

Example test_raycast_box_behind :
  raycast3.intersectsBox3
    (raycast3.mkRaycast3 (vec3_of 0 0 5) (vec3_of 0 0 1) $5)
    (vec3_of (-1) (-1) 0, vec3_of 1 1 2) = false.
Proof. vm_compute. reflexivity. Qed.

Example test_raycast_box_beyond_length :
  raycast3.intersectsBox3
    (raycast3.mkRaycast3 (vec3_of 0 0 0) (vec3_of 0 0 1) $2)
    (vec3_of (-1) (-1) 5, vec3_of 1 1 7) = false.
Proof. vm_compute. reflexivity. Qed.

Example test_triangle_backface_hit :
  let r := raycast3.intersectsTriangle raycast3.createIntersectsTriangleResult
             diagonal_ray tri_a tri_b tri_c false in
  raycast3.hit r = true /\ raycast3.frontFacing r = false.
Proof. vm_compute. split; reflexivity. Qed.

Example test_triangle_backface_culled :
  raycast3.hit
    (raycast3.intersectsTriangle raycast3.createIntersectsTriangleResult
       diagonal_ray tri_a tri_b tri_c true) = false.
Proof. vm_compute. reflexivity. Qed.

Example test_triangle_zero_direction :
  raycast3.hit
    (raycast3.intersectsTriangle raycast3.createIntersectsTriangleResult
       (raycast3.mkRaycast3 (vec3_of 0 0 0) (vec3_of 0 0 0) $10)
       tri_a tri_b tri_c false) = false.
Proof. vm_compute. reflexivity. Qed.

Example test_box_triangle_inside :
  box3.intersectsTriangle3 (mkBox3 $(-2) $(-2) $(-2) $2 $2 $2)
    (vec3_of 0 0 0) (vec3_of 0.5 0 0) (vec3_of 0 0.5 0) = true.
Proof. vm_compute. reflexivity. Qed.

Example test_box_triangle_crossing :
  box3.intersectsTriangle3 unit_box
    (vec3_of (-0.5) 0.5 0.5) (vec3_of 1.5 0.5 0.5) (vec3_of 0.5 1.5 0.5) = true.
Proof. vm_compute. reflexivity. Qed.

Example test_box_triangle_outside :
  box3.intersectsTriangle3 unit_box
    (vec3_of 2 2 2) (vec3_of 3 2 2) (vec3_of 2 3 2) = false.
Proof. vm_compute. reflexivity. Qed.

Example test_box_triangle_degenerate :
  box3.intersectsTriangle3 unit_box
    (vec3_of 0.5 0.5 0.5) (vec3_of 0.5 0.5 0.5) (vec3_of 0.5 0.5 0.5) = true.
Proof. vm_compute. reflexivity. Qed.

Example test_box_triangle_inverted_box :
  box3.intersectsTriangle3 (mkBox3 $1 $1 $1 $0 $0 $0)
    (vec3_of 0 0 0) (vec3_of 1 0 0) (vec3_of 0 1 0) = false.
Proof. vm_compute. reflexivity. Qed.

Example test_box_sphere_point :
  box3.intersectsSphere unit_box (mkSphere (vec3_of 0.5 0.5 0.5) $0) = true.
Proof. vm_compute. reflexivity. Qed.

Example test_box_transform_scale_translate :
  box3_eq
    (box3.transformMat4 vec3.transformMat4 false unit_box
       (mkMat4 $2 $0 $0 $0  $0 $2 $0 $0  $0 $0 $2 $0  $5 $3 $2 $1))
    (mkBox3 $5 $3 $2 $7 $5 $4).
Proof. vm_compute. repeat split. Qed.

Example test_box_transform_reflection :
  box3_eq
    (box3.transformMat4 vec3.transformMat4 false (mkBox3 $1 $2 $3 $4 $5 $6)
       (mkMat4 $(-1) $0 $0 $0  $0 $1 $0 $0  $0 $0 $1 $0  $0 $0 $0 $1))
    (mkBox3 $(-4) $2 $3 $(-1) $5 $6).
Proof. vm_compute. repeat split. Qed.

Example test_obb_contains :
  obb3.containsPoint obb_unit (vec3_of 0.5 0.5 0.5) = true /\
  obb3.containsPoint obb_unit (vec3_of 2 0 0) = false.
Proof. vm_compute. split; reflexivity. Qed.

Example test_obb_clamp_outside :
  vec3_eq (obb3.clampPoint obb_unit (vec3_of 2 0 0)) (vec3_of 1 0 0).
Proof. vm_compute. repeat split. Qed.

(** ** C1: the ray against the box [[-1,-1,2], [1,1,4]] *)

(** With length 10 the ray reaches the box. *)
Example raycast_box_length_10 :
  raycast3.intersectsBox3 (ray_along_z $10) box_ahead = true.
Proof. vm_compute. reflexivity. Qed.

(** C1, as stated, fails: with length 2 the end of the ray lies on the near
    face [z = 2] of the box, the running interval is [[2, 2]], and the test
    [tmax < tmin] does not reject it. *)
Lemma raycast_box_length_2_hits :
  ~ (raycast3.intersectsBox3 (ray_along_z $10) box_ahead = true /\
     raycast3.intersectsBox3 (ray_along_z $2) box_ahead = false).
Proof. vm_compute. intros [_ H]. discriminate H. Qed.

(** C1, amended: against the box [[-1,-1,2], [1,1,4]] the ray from the
    origin along [+z] hits exactly when its length is at least 2; so it hits
    with length 10, it also hits with length 2 (closed boundary), and it
    misses with every shorter length. *)
Theorem raycast_box_hits_iff_length_reaches (len : Q) :
  raycast3.intersectsBox3 (ray_along_z $len) box_ahead = true <-> 2 <= len.
Proof.
  cbv [raycast3.intersectsBox3 raycast3.intersectsBox3_loop ray_along_z box_ahead
       vec3_of raycast3.direction raycast3.origin
       raycast3.length vget v_0 v_1 v_2 fst snd nabs nltb ngtb nsub nmul ndiv
       nmax nmin nleb orb].
  change (Qltb (Qabs 0) (1 # 10000000000)) with true.
  change (Qltb 0 (-1)) with false.
  change (Qltb 1 0) with false.
  change (Qltb (Qabs 1) (1 # 10000000000)) with false.
  change (Qeq_bool 1 0) with false.
  cbv iota beta.
  change (Qltb (1 / 1) 0) with false. cbv iota.
  change (Qle_bool 0 ((2 - 0) * (1 / 1))) with true. cbv iota.
  assert (K2 : (2 - 0) * (1 / 1) == 2) by reflexivity.
  assert (K4 : (4 - 0) * (1 / 1) == 4) by reflexivity.
  destruct (Qle_bool len ((4 - 0) * (1 / 1))) eqn:E1;
    destruct (Qltb _ _) eqn:E2; q_props; rewrite ?K2, ?K4 in *;
    (split; intro; [try discriminate | try reflexivity]); try lra; exfalso; lra.
Qed.

(** ** C2: predicates on the empty sentinel *)

Lemma containsPoint_empty p : box3.containsPoint box3.create p = false.
Proof.
  destruct p as [x y z]. unfold box3.containsPoint, box3.create; simpl.
  destruct x; reflexivity.
Qed.

Lemma containsBox3_empty_container c :
  box3.containsBox3 box3.create c = true <-> c = box3.create.
Proof.
  split.
  - destruct c as [c0 c1 c2 c3 c4 c5]. unfold box3.containsBox3, box3.create. simpl.
    destruct c0; try discriminate; destruct c3; try discriminate;
    destruct c1; try discriminate; destruct c4; try discriminate;
    destruct c2; try discriminate; destruct c5; try discriminate. reflexivity.
  - intros ->. reflexivity.
Qed.

Lemma containsBox3_empty_contained c :
  box3.containsBox3 c box3.create = box3_noNaN c.
Proof.
  destruct c as [c0 c1 c2 c3 c4 c5]. unfold box3.containsBox3, box3.create, box3_noNaN. simpl.
  destruct c0, c1, c2, c3, c4, c5; reflexivity.
Qed.

Lemma intersectsBox3_empty_l b :
  box3.intersectsBox3 box3.create b = true <-> b = full_box.
Proof.
  split.
  - destruct b as [c0 c1 c2 c3 c4 c5]. unfold box3.intersectsBox3, box3.create, full_box. simpl.
    destruct c3; try discriminate; destruct c0; try discriminate;
    destruct c4; try discriminate; destruct c1; try discriminate;
    destruct c5; try discriminate; destruct c2; try discriminate. reflexivity.
  - intros ->. reflexivity.
Qed.

Lemma intersectsBox3_empty_r b :
  box3.intersectsBox3 b box3.create = true <-> b = full_box.
Proof.
  split.
  - destruct b as [c0 c1 c2 c3 c4 c5]. unfold box3.intersectsBox3, box3.create, full_box. simpl.
    destruct c0; try discriminate; destruct c3; try discriminate;
    destruct c1; try discriminate; destruct c4; try discriminate;
    destruct c2; try discriminate; destruct c5; try discriminate. reflexivity.
  - intros ->. reflexivity.
Qed.

Lemma intersectsTriangle3_empty a b c :
  box3.intersectsTriangle3 box3.create a b c = false.
Proof. reflexivity. Qed.

Lemma intersectsSphere_empty s :
  isFinite (radius s) = true -> box3.intersectsSphere box3.create s = false.
Proof.
  destruct s as [[x y z] r]. simpl. intro Hr. destruct r; try discriminate.
  unfold box3.intersectsSphere, box3.create. simpl.
  destruct x, y, z; reflexivity.
Qed.

Lemma intersectsPlane3_empty pl :
  box3.intersectsPlane3 box3.create pl = false.
Proof.
  destruct pl as [[x y z] k].
  unfold box3.intersectsPlane3, box3.create. simpl.
  destruct x as [x| | |], y as [y| | |], z as [z| | |]; simpl.
  all: try (destruct k; reflexivity).
  all: repeat match goal with
       | |- context [Qltb 0 ?x] =>
           let E := fresh "E" in
           let S := fresh "S" in
           destruct (Qltb 0 x) eqn:E;
           [ pose proof (Qsign_pos x E) as S
           | destruct (Qsign_nonpos x E) as [S | S] ];
           rewrite ?S; simpl
       end; simpl; try (destruct k; reflexivity).
Qed.

(** A sphere of infinite radius is reported to meet the empty box. *)
Example intersectsSphere_empty_infinite_radius :
  box3.intersectsSphere box3.create (mkSphere (vec3_of 0 0 0) PInf) = true.
Proof. reflexivity. Qed.



(** ** C9: touching boxes intersect *)

Lemma interval_touch_overlap (alo ahi blo bhi : num) :
  (alo <=? ahi) = true -> (blo <=? bhi) = true ->
  interval_touch alo ahi blo bhi = true ->
  interval_overlap alo ahi blo bhi = true.
Proof.
  unfold interval_touch, interval_overlap, ngeb.
  intros Ha Hb Ht. apply orb_true_iff in Ht. apply andb_true_iff.
  destruct Ht as [Ht | Ht]; apply neqb_nleb in Ht; destruct Ht as [H1 H2].
  - split; [| exact H2].
    apply nleb_trans with ahi; [exact Ha |].
    apply nleb_trans with blo; assumption.
  - split; [exact H2 |].
    apply nleb_trans with bhi; [exact Hb |].
    apply nleb_trans with alo; assumption.
Qed.

Lemma intersectsBox3_overlaps (a b : Box3) :
  box3.intersectsBox3 a b =
  interval_overlap (b_0 a) (b_3 a) (b_0 b) (b_3 b) &&
  interval_overlap (b_1 a) (b_4 a) (b_1 b) (b_4 b) &&
  interval_overlap (b_2 a) (b_5 a) (b_2 b) (b_5 b).
Proof.
  unfold box3.intersectsBox3, interval_overlap.
  rewrite !andb_assoc. reflexivity.
Qed.

(** C9: [intersectsBox3] treats boundaries as closed: two valid boxes that
    touch exactly (on some axis the maximum of one equals the minimum of the
    other, the intervals on the other axes overlapping or touching)
    intersect. *)
Theorem intersectsBox3_touching (a b : Box3) :
  box3_valid a = true -> box3_valid b = true ->
  boxes_touch a b = true ->
  box3.intersectsBox3 a b = true.
Proof.
  unfold box3_valid, boxes_touch. intros Ha Hb Ht.
  apply andb_true_iff in Ha. destruct Ha as [Ha Haz].
  apply andb_true_iff in Ha. destruct Ha as [Hax Hay].
  apply andb_true_iff in Hb. destruct Hb as [Hb Hbz].
  apply andb_true_iff in Hb. destruct Hb as [Hbx Hby].
  rewrite intersectsBox3_overlaps.
  repeat rewrite orb_true_iff in Ht. repeat rewrite andb_true_iff in Ht.
  repeat rewrite andb_true_iff.
  destruct Ht as [[[[Tx Oy] Oz] | [[Ox Ty] Oz]] | [[Ox Oy] Tz]];
    repeat split; try assumption; apply interval_touch_overlap; assumption.
Qed.

(** The boxes [[0,0,0,1,1,1]] and [[1,0,0,2,1,1]] share a face and
    intersect. *)
Lemma intersectsBox3_touching_unit_boxes :
  box3.intersectsBox3 unit_box (mkBox3 $1 $0 $0 $2 $1 $1) = true.
Proof.
  apply intersectsBox3_touching; vm_compute; reflexivity.
Defined.

(** ** C10, C8: the misses of [intersectsTriangle] *)

(** C10: whenever [intersectsTriangle] reports [hit = false] it has also
    written [fraction = 0] and [frontFacing = false], and what the result
    object held before the call has no influence on what it holds after. *)
Theorem intersectsTriangle_miss_resets_result
    (out : raycast3.IntersectsTriangleResult) (ray : raycast3.Raycast3)
    (a b c : Vec3) (backfaceCulling : bool) :
  raycast3.hit (raycast3.intersectsTriangle out ray a b c backfaceCulling) = false ->
  raycast3.fraction (raycast3.intersectsTriangle out ray a b c backfaceCulling) = $0 /\
  raycast3.frontFacing (raycast3.intersectsTriangle out ray a b c backfaceCulling) = false /\
  forall out',
    raycast3.intersectsTriangle out' ray a b c backfaceCulling =
    raycast3.intersectsTriangle out ray a b c backfaceCulling.
Proof.
  unfold raycast3.intersectsTriangle.
  repeat match goal with
  | |- context [if ?c then _ else _] => destruct c
  end; cbn; intro H; try discriminate H; repeat split.
Qed.

(** A ray along [+x] in the plane [z = 0] against a triangle in the plane
    [z = 1]: a miss that overwrites a result left by an earlier hit. *)
Lemma intersectsTriangle_miss_resets_stale_result :
  let ray := raycast3.mkRaycast3 (mkVec3 $0 $0 $0) (mkVec3 $1 $0 $0) $10 in
  let r := raycast3.intersectsTriangle stale_result ray
             (mkVec3 $0 $0 $1) (mkVec3 $1 $0 $1) (mkVec3 $0 $1 $1) false in
  raycast3.hit r = false /\ raycast3.fraction r = $0 /\
  raycast3.frontFacing r = false.
Proof.
  cbv zeta.
  assert (H : raycast3.hit
                (raycast3.intersectsTriangle stale_result
                   (raycast3.mkRaycast3 (mkVec3 $0 $0 $0) (mkVec3 $1 $0 $0) $10)
                   (mkVec3 $0 $0 $1) (mkVec3 $1 $0 $1) (mkVec3 $0 $1 $1) false)
              = false) by (vm_compute; reflexivity).
  split; [exact H |].
  destruct (intersectsTriangle_miss_resets_result _ _ _ _ _ _ H) as (F & G & _).
  split; assumption.
Defined.

Lemma ngtb_zero (q : Q) : q == 0 -> ($q >? $0) = false.
Proof. intro H. simpl. apply Qltb_ge. lra. Qed.

Lemma nltb_zero (q : Q) : q == 0 -> ($q <? $0) = false.
Proof. intro H. simpl. apply Qltb_ge. lra. Qed.

(** C8: when the dot product of the ray direction with the geometric normal
    [(b - a) x (c - a)] is zero, [intersectsTriangle] reports [hit = false],
    with and without backface culling. *)
Theorem intersectsTriangle_parallel_is_miss
    (out : raycast3.IntersectsTriangleResult) (ray : raycast3.Raycast3)
    (a b c : Vec3) (backfaceCulling : bool) :
  (triangle_DdN ray a b c =? $0) = true ->
  raycast3.hit (raycast3.intersectsTriangle out ray a b c backfaceCulling) = false.
Proof.
  intro H. apply neqb_zero_inv in H. destruct H as (q & Hq & Hz).
  unfold raycast3.intersectsTriangle. unfold triangle_DdN in Hq.
  cbv zeta. rewrite Hq.
  rewrite (ngtb_zero q Hz), (nltb_zero q Hz). reflexivity.
Qed.

(** A ray lying in the plane of the triangle itself ([z = 0]) and crossing
    it is still a miss. *)
Lemma intersectsTriangle_in_plane_is_miss :
  raycast3.hit
    (raycast3.intersectsTriangle stale_result
       (raycast3.mkRaycast3 (mkVec3 $(-1) $0.25 $0) (mkVec3 $1 $0 $0) $10)
       (mkVec3 $0 $0 $0) (mkVec3 $1 $0 $0) (mkVec3 $0 $1 $0) false) = false.
Proof.
  apply intersectsTriangle_parallel_is_miss. vm_compute. reflexivity.
Defined.

(** ** C3: [applyMatrix4] and the centre *)

(** C3: for every OBB and every matrix, [applyMatrix4] sets the centre of
    the result to the centre of the input taken through the full matrix:
    the 3x3 part applied to the centre, plus the translation column. *)
Theorem applyMatrix4_center_through_full_matrix
    (sqrt : num -> num) (obb : obb3.OBB3) (matrix : Mat4) :
  obb3.center (obb3.applyMatrix4 sqrt obb matrix) =
  mkVec3
    (e_0 matrix * v_0 (obb3.center obb) + e_4 matrix * v_1 (obb3.center obb)
     + e_8 matrix * v_2 (obb3.center obb) + e_12 matrix)
    (e_1 matrix * v_0 (obb3.center obb) + e_5 matrix * v_1 (obb3.center obb)
     + e_9 matrix * v_2 (obb3.center obb) + e_13 matrix)
    (e_2 matrix * v_0 (obb3.center obb) + e_6 matrix * v_1 (obb3.center obb)
     + e_10 matrix * v_2 (obb3.center obb) + e_14 matrix).
Proof. reflexivity. Qed.

(** A quarter turn about z takes the centre [[1,0,0]] to [[0,1,0]]. *)
Example applyMatrix4_center_quarter_turn (sqrt : num -> num) :
  vec3_eq
    (obb3.center
       (obb3.applyMatrix4 sqrt
          (obb3.mkOBB3 (mkVec3 $1 $0 $0) (mkVec3 $1 $1 $1) mat3.create)
          quarter_turn_z))
    (mkVec3 $0 $1 $0).
Proof. vm_compute. repeat split. Qed.

(** The version of [applyMatrix4] before 0.0.10 only added the translation
    column to the centre. *)
Lemma applyMatrix4_legacy_center_translated
    (sqrt : num -> num) (fromQuat : obb3_legacy.Quat -> Mat3)
    (fromMat3 : Mat3 -> obb3_legacy.Quat)
    (normalize : obb3_legacy.Quat -> obb3_legacy.Quat)
    (obb : obb3_legacy.OBB3) (matrix : Mat4) :
  obb3_legacy.center
    (obb3_legacy.applyMatrix4 sqrt fromQuat fromMat3 normalize obb matrix) =
  mkVec3 (v_0 (obb3_legacy.center obb) + e_12 matrix)
         (v_1 (obb3_legacy.center obb) + e_13 matrix)
         (v_2 (obb3_legacy.center obb) + e_14 matrix).
Proof. reflexivity. Qed.

(** Under the quarter turn it left the centre [[1,0,0]] where it was. *)
Example applyMatrix4_legacy_center_quarter_turn
    (sqrt : num -> num) (fromQuat : obb3_legacy.Quat -> Mat3)
    (fromMat3 : Mat3 -> obb3_legacy.Quat)
    (normalize : obb3_legacy.Quat -> obb3_legacy.Quat)
    (q : obb3_legacy.Quat) :
  vec3_eq
    (obb3_legacy.center
       (obb3_legacy.applyMatrix4 sqrt fromQuat fromMat3 normalize
          (obb3_legacy.mkOBB3 (mkVec3 $1 $0 $0) (mkVec3 $1 $1 $1) q)
          quarter_turn_z))
    (mkVec3 $1 $0 $0).
Proof. vm_compute. repeat split. Qed.

(** ** C7: [transformMat4] covers the transformed corners *)

Lemma isFinite_noNaN (a : num) : isFinite a = true -> isNaN a = false.
Proof. destruct a; simpl; congruence. Qed.

Lemma vec3_finite_noNaN (v : Vec3) : vec3_finite v = true -> vec3_noNaN v = true.
Proof.
  destruct v as [x y z]. unfold vec3_finite, vec3_noNaN. simpl.
  destruct x, y, z; simpl; congruence.
Qed.

Lemma acc_lo_le_new (c lo : num) :
  isNaN c = false -> isNaN lo = false -> (acc_lo c lo <=? c) = true.
Proof.
  intros Hc Hl. unfold acc_lo. destruct (c <? lo) eqn:E.
  - apply nleb_refl; exact Hc.
  - apply nleb_total; assumption.
Qed.

Lemma acc_hi_ge_new (c hi : num) :
  isNaN c = false -> isNaN hi = false -> (c <=? acc_hi c hi) = true.
Proof.
  intros Hc Hh. unfold acc_hi, ngtb. destruct (hi <? c) eqn:E.
  - apply nleb_refl; exact Hc.
  - apply nleb_total; assumption.
Qed.

Lemma acc_lo_mono (c lo p : num) :
  (lo <=? p) = true -> (acc_lo c lo <=? p) = true.
Proof.
  intro H. unfold acc_lo. destruct (c <? lo) eqn:E; [| exact H].
  apply nleb_trans with lo; [apply nltb_nleb; exact E | exact H].
Qed.

Lemma acc_hi_mono (c hi p : num) :
  (p <=? hi) = true -> (p <=? acc_hi c hi) = true.
Proof.
  intro H. unfold acc_hi, ngtb. destruct (hi <? c) eqn:E; [| exact H].
  apply nleb_trans with hi; [exact H | apply nltb_nleb; exact E].
Qed.

Lemma acc_lo_noNaN (c lo : num) :
  isNaN c = false -> isNaN lo = false -> isNaN (acc_lo c lo) = false.
Proof. intros. unfold acc_lo. destruct (c <? lo); assumption. Qed.

Lemma acc_hi_noNaN (c hi : num) :
  isNaN c = false -> isNaN hi = false -> isNaN (acc_hi c hi) = false.
Proof. intros. unfold acc_hi. destruct (c >? hi); assumption. Qed.

Section TransformMat4Loop.

Variable T : Vec3 -> Mat4 -> Vec3.
Variables (box : Box3) (mat : Mat4).

Local Notation "'step'" := (box3.transformMat4_step T false box mat).
Local Notation "'image' i" := (T (box3.corner box i) mat) (at level 10).

Lemma transformMat4_step_fields (out : Box3) (i : nat) :
  step out i =
  mkBox3 (acc_lo (v_0 (image i)) (b_0 out)) (acc_lo (v_1 (image i)) (b_1 out))
         (acc_lo (v_2 (image i)) (b_2 out)) (acc_hi (v_0 (image i)) (b_3 out))
         (acc_hi (v_1 (image i)) (b_4 out)) (acc_hi (v_2 (image i)) (b_5 out)).
Proof.
  unfold box3.transformMat4_step, acc_lo, acc_hi.
  destruct out as [o0 o1 o2 o3 o4 o5]. cbv zeta.
  destruct (T (box3.corner box i) mat) as [c0 c1 c2]. simpl.
  destruct (c0 <? o0); simpl; destruct (c0 >? o3); simpl;
  destruct (c1 <? o1); simpl; destruct (c1 >? o4); simpl;
  destruct (c2 <? o2); simpl; destruct (c2 >? o5); reflexivity.
Qed.

Lemma transformMat4_step_noNaN (out : Box3) (i : nat) :
  vec3_noNaN (image i) = true -> box3_noNaN out = true ->
  box3_noNaN (step out i) = true.
Proof.
  rewrite transformMat4_step_fields.
  unfold vec3_noNaN, box3_noNaN. cbn [b_0 b_1 b_2 b_3 b_4 b_5].
  rewrite !andb_true_iff, !negb_true_iff.
  intros [[C0 C1] C2] [[[[[O0 O1] O2] O3] O4] O5].
  repeat split; (apply acc_lo_noNaN || apply acc_hi_noNaN); assumption.
Qed.

Lemma transformMat4_step_covers_new (out : Box3) (i : nat) :
  vec3_noNaN (image i) = true -> box3_noNaN out = true ->
  box3.containsPoint (step out i) (image i) = true.
Proof.
  rewrite transformMat4_step_fields.
  unfold vec3_noNaN, box3_noNaN, box3.containsPoint, ngeb.
  cbn [b_0 b_1 b_2 b_3 b_4 b_5].
  rewrite !andb_true_iff, !negb_true_iff.
  intros [[C0 C1] C2] [[[[[O0 O1] O2] O3] O4] O5].
  repeat split; (apply acc_lo_le_new || apply acc_hi_ge_new); assumption.
Qed.

Lemma transformMat4_step_keeps (out : Box3) (i : nat) (p : Vec3) :
  box3.containsPoint out p = true ->
  box3.containsPoint (step out i) p = true.
Proof.
  rewrite transformMat4_step_fields.
  unfold box3.containsPoint, ngeb. cbn [b_0 b_1 b_2 b_3 b_4 b_5].
  rewrite !andb_true_iff.
  intros [[[[[P0 P1] P2] P3] P4] P5].
  repeat split; (apply acc_lo_mono || apply acc_hi_mono); assumption.
Qed.

Lemma transformMat4_fold_keeps (l : list nat) (out : Box3) (p : Vec3) :
  box3.containsPoint out p = true ->
  box3.containsPoint (fold_left step l out) p = true.
Proof.
  revert out. induction l as [| j l IH]; intros out H; simpl; [exact H |].
  apply IH. apply transformMat4_step_keeps. exact H.
Qed.

Lemma transformMat4_fold_covers (l : list nat) (out : Box3) :
  (forall j, In j l -> vec3_noNaN (image j) = true) ->
  box3_noNaN out = true ->
  forall i, In i l ->
    box3.containsPoint (fold_left step l out) (image i) = true.
Proof.
  revert out. induction l as [| j l IH]; intros out Himg Hout i Hi;
    [destruct Hi |].
  simpl. destruct Hi as [-> | Hi].
  - apply transformMat4_fold_keeps. apply transformMat4_step_covers_new;
      [apply Himg; left; reflexivity | exact Hout].
  - apply IH; [intros k Hk; apply Himg; right; exact Hk | | exact Hi].
    apply transformMat4_step_noNaN; [apply Himg; left; reflexivity | exact Hout].
Qed.

End TransformMat4Loop.

Lemma corner_finite (box : Box3) (i : nat) :
  box3_finite box = true -> vec3_finite (box3.corner box i) = true.
Proof.
  destruct box as [o0 o1 o2 o3 o4 o5]. unfold box3_finite, box3.corner, vec3_finite.
  cbn [b_0 b_1 b_2 b_3 b_4 b_5 v_0 v_1 v_2].
  rewrite !andb_true_iff. intros [[[[[P0 P1] P2] P3] P4] P5].
  destruct (Nat.land i 1 =? 0)%nat, (Nat.land i 2 =? 0)%nat, (Nat.land i 4 =? 0)%nat;
    repeat split; assumption.
Qed.

Lemma vec3_transformMat4_finite (m : Mat4) (v : Vec3) :
  mat4_finite m = true -> vec3_finite v = true ->
  vec3_finite (vec3.transformMat4 v m) = true.
Proof.
  destruct m as [m0 m1 m2 m3 m4 m5 m6 m7 m8 m9 m10 m11 m12 m13 m14 m15].
  destruct v as [x y z]. unfold mat4_finite, vec3_finite.
  cbn [e_0 e_1 e_2 e_3 e_4 e_5 e_6 e_7 e_8 e_9 e_10 e_11 e_12 e_13 e_14 e_15 v_0 v_1 v_2].
  rewrite !andb_true_iff.
  intros H1 H2.
  repeat match goal with H : _ /\ _ |- _ => destruct H end.
  repeat match goal with
  | H : isFinite ?a = true |- _ =>
      let q := fresh "q" in destruct (isFinite_inv a H) as [q ->]; clear H
  end.
  repeat split.
Qed.




(** All 8 of them do, by evaluation. *)
Example transformMat4_unit_box_rotation_z_45_all :
  forallb
    (fun i =>
       box3.containsPoint
         (box3.transformMat4 vec3.transformMat4 false unit_box rotation_z_45)
         (vec3.transformMat4 (box3.corner unit_box i) rotation_z_45))
    (seq 0 8) = true.
Proof. vm_compute. reflexivity. Qed.

(** Called in place, with the box itself as the output array, the function
    reads the corners from the array it has just reset: the result is the
    empty sentinel. *)
Example transformMat4_in_place_unit_box :
  box3.transformMat4 vec3.transformMat4 true unit_box identity4 = box3.create.
Proof. vm_compute. reflexivity. Qed.

(** ** C6: the degenerate triangle *)

Lemma satForAxes_loop_zero_axes (_v0 _v1 _v2 _extents : Vec3) (axes : list num)
    (n i : nat) :
  (forall k, (k < 3 * (i + n))%nat -> (nth k axes NaN =? $0) = true) ->
  box3._satForAxes_loop _v0 _v1 _v2 _extents axes i n = true.
Proof.
  revert i. induction n as [| n IH]; intros i H; [reflexivity |].
  simpl. rewrite !H by lia. simpl.
  apply IH. intros k Hk. apply H. lia.
Qed.

Lemma neqb_zero_fin (q : Q) : q == 0 -> ($q =? $0) = true.
Proof. intro H. simpl. apply Qeq_bool_iff. exact H. Qed.


Lemma nltb_irrefl (p : num) : (p <? p) = false.
Proof. destruct p; simpl; try reflexivity. apply Qltb_ge. lra. Qed.

(** One iteration of [_satForAxes] when the three vertices coincide: the
    projected interval is the single value [p]. *)
Lemma satForAxes_loop_point (v _extents : Vec3) (axes : list num) (i n : nat) :
  box3._satForAxes_loop v v v _extents axes i (S n) =
  let ax := nth (i * 3 + 0) axes NaN in
  let ay := nth (i * 3 + 1) axes NaN in
  let az := nth (i * 3 + 2) axes NaN in
  if (ax =? $0) && (ay =? $0) && (az =? $0)
  then box3._satForAxes_loop v v v _extents axes (S i) n
  else
    let p := v_0 v * ax + v_1 v * ay + v_2 v * az in
    let r := v_0 _extents * nabs ax + v_1 _extents * nabs ay
             + v_2 _extents * nabs az in
    if (p <? - r) || (p >? r) then false
    else box3._satForAxes_loop v v v _extents axes (S i) n.
Proof.
  cbn [box3._satForAxes_loop]. cbv zeta.
  destruct (_ && _); [reflexivity |].
  unfold ngtb. rewrite !nltb_irrefl. reflexivity.
Qed.

(** Decide an equation between boolean combinations of comparisons of
    rationals by case analysis and linear arithmetic. *)
Ltac q_bool_eq :=
  repeat match goal with
  | |- context [Qltb ?a ?b] => destruct (Qltb a b) eqn:?
  | |- context [Qle_bool ?a ?b] => destruct (Qle_bool a b) eqn:?
  end; q_props; cbn; try reflexivity; exfalso; lra.

Lemma intersectsTriangle3_degenerate_fin (m0 m1 m2 M0 M1 M2 x y z : Q) :
  m0 <= M0 -> m1 <= M1 -> m2 <= M2 ->
  box3.intersectsTriangle3 (mkBox3 $m0 $m1 $m2 $M0 $M1 $M2)
    (mkVec3 $x $y $z) (mkVec3 $x $y $z) (mkVec3 $x $y $z) =
  box3.containsPoint (mkBox3 $m0 $m1 $m2 $M0 $M1 $M2) (mkVec3 $x $y $z).
Proof.
  intros V0 V1 V2.
  unfold box3.intersectsTriangle3.
  cbn [b_0 b_1 b_2 b_3 b_4 b_5 v_0 v_1 v_2 ngtb nltb nadd nsub nmul nneg].
  assert (G0 : Qltb M0 m0 = false) by (q_props; lra).
  assert (G1 : Qltb M1 m1 = false) by (q_props; lra).
  assert (G2 : Qltb M2 m2 = false) by (q_props; lra).
  rewrite G0, G1, G2. cbn [orb].
  cbv zeta.
  cbn [b_0 b_1 b_2 b_3 b_4 b_5 v_0 v_1 v_2 ngtb nltb nadd nsub nmul nneg vec3.cross].
  unfold box3._satForAxes at 1.
  rewrite satForAxes_loop_zero_axes.
  2:{ intros k Hk.
      do 27 (destruct k as [| k]; [apply neqb_zero_fin; ring |]). 
      exfalso; lia. }
  unfold box3._satForAxes at 2.
  rewrite (satForAxes_loop_zero_axes _ _ _ _ _ 1 0).
  2:{ intros k Hk.
      do 3 (destruct k as [| k]; [apply neqb_zero_fin; ring |]). 
      exfalso; lia. }
  cbn [negb].
  unfold box3._satForAxes, box3._axesBoxFaces, box3.containsPoint.
  rewrite !satForAxes_loop_point.
  cbn [box3._satForAxes_loop nth Nat.mul Nat.add
       b_0 b_1 b_2 b_3 b_4 b_5 v_0 v_1 v_2 ngtb nltb ngeb nleb nadd nsub nmul nneg nabs neqb].
  change (Qeq_bool 1 0) with false. change (Qeq_bool 0 0) with true.
  cbn [andb]. cbv zeta.
  cbn [ngtb nltb ngeb nleb nadd nsub nmul nneg nabs neqb].
  change (Qabs 1) with 1%Q. change (Qabs 0) with 0%Q.
  match goal with
  | |- (if negb (if ?s0 then false else if ?s1 then false
                 else if ?s2 then false else true)
        then false else true) = _ =>
      assert (A0 : s0 = negb (Qle_bool m0 x && Qle_bool x M0)) by q_bool_eq;
      assert (A1 : s1 = negb (Qle_bool m1 y && Qle_bool y M1)) by q_bool_eq;
      assert (A2 : s2 = negb (Qle_bool m2 z && Qle_bool z M2)) by q_bool_eq;
      rewrite A0, A1, A2
  end.
  destruct (Qle_bool m0 x), (Qle_bool x M0), (Qle_bool m1 y), (Qle_bool y M1),
    (Qle_bool m2 z), (Qle_bool z M2); reflexivity.
Qed.



(** ** C5: clamping a contained point *)

Lemma vec3_finite_inv (v : Vec3) :
  vec3_finite v = true -> exists x y z, v = vec3_of x y z.
Proof.
  destruct v as [x y z]. unfold vec3_finite. cbn [v_0 v_1 v_2].
  rewrite !andb_true_iff. intros [[Hx Hy] Hz].
  destruct (isFinite_inv _ Hx) as [qx ->]. destruct (isFinite_inv _ Hy) as [qy ->].
  destruct (isFinite_inv _ Hz) as [qz ->]. exists qx, qy, qz. reflexivity.
Qed.

Lemma mat3_finite_inv (r : Mat3) :
  mat3_finite r = true ->
  exists r0 r1 r2 r3 r4 r5 r6 r7 r8, r = mat3_of r0 r1 r2 r3 r4 r5 r6 r7 r8.
Proof.
  destruct r as [x0 x1 x2 x3 x4 x5 x6 x7 x8]. unfold mat3_finite.
  cbn [r_0 r_1 r_2 r_3 r_4 r_5 r_6 r_7 r_8].
  rewrite !andb_true_iff. intros [[[[[[[[H0 H1] H2] H3] H4] H5] H6] H7] H8].
  destruct (isFinite_inv _ H0) as [q0 ->]. destruct (isFinite_inv _ H1) as [q1 ->].
  destruct (isFinite_inv _ H2) as [q2 ->]. destruct (isFinite_inv _ H3) as [q3 ->].
  destruct (isFinite_inv _ H4) as [q4 ->]. destruct (isFinite_inv _ H5) as [q5 ->].
  destruct (isFinite_inv _ H6) as [q6 ->]. destruct (isFinite_inv _ H7) as [q7 ->].
  destruct (isFinite_inv _ H8) as [q8 ->].
  exists q0, q1, q2, q3, q4, q5, q6, q7, q8. reflexivity.
Qed.

Lemma mat3_orthonormal_inv (r0 r1 r2 r3 r4 r5 r6 r7 r8 : Q) :
  mat3_orthonormal (mat3_of r0 r1 r2 r3 r4 r5 r6 r7 r8) = true ->
  (r0*r0 + r1*r1 + r2*r2 == 1 /\ r3*r3 + r4*r4 + r5*r5 == 1 /\
   r6*r6 + r7*r7 + r8*r8 == 1 /\ r0*r3 + r1*r4 + r2*r5 == 0 /\
   r0*r6 + r1*r7 + r2*r8 == 0 /\ r3*r6 + r4*r7 + r5*r8 == 0)%Q.
Proof.
  unfold mat3_orthonormal, mat3_of, vec3.dot, obb3.axis.
  cbn [r_0 r_1 r_2 r_3 r_4 r_5 r_6 r_7 r_8 v_0 v_1 v_2 nadd nmul neqb].
  rewrite !andb_true_iff. intros [[[[[H0 H1] H2] H3] H4] H5].
  q_props. repeat split; assumption.
Qed.

(** Clamping a value that already lies in [[-h, h]] returns it. *)
Lemma clamp_inside (h d : Q) :
  (Qabs d <= h)%Q ->
  exists d', nmax (- $h) (nmin $h $d) = $d' /\ (d' == d)%Q.
Proof.
  intro H. apply Qabs_Qle_condition in H. destruct H as [H1 H2].
  cbn [nmax nmin nneg nleb].
  destruct (Qle_bool h d) eqn:E1; cbn [nleb];
    destruct (Qle_bool (- h) _) eqn:E2; q_props;
    eexists; (split; [reflexivity | lra]).
Qed.

Lemma clampPoint_of_contained_fin
    (c0 c1 c2 h0 h1 h2 r0 r1 r2 r3 r4 r5 r6 r7 r8 p0 p1 p2 : Q) :
  let obb := obb3.mkOBB3 (vec3_of c0 c1 c2) (vec3_of h0 h1 h2)
                         (mat3_of r0 r1 r2 r3 r4 r5 r6 r7 r8) in
  mat3_orthonormal (obb3.rotation obb) = true ->
  obb3.containsPoint obb (vec3_of p0 p1 p2) = true ->
  vec3_eq (obb3.clampPoint obb (vec3_of p0 p1 p2)) (vec3_of p0 p1 p2).
Proof.
  cbv zeta. cbn [obb3.rotation].
  intros HO HC. apply mat3_orthonormal_inv in HO.
  destruct HO as (U00 & U11 & U22 & U01 & U02 & U12).
  unfold obb3.containsPoint, vec3_of, mat3_of in HC.
  cbn [obb3.center obb3.halfExtents obb3.rotation
       r_0 r_1 r_2 r_3 r_4 r_5 r_6 r_7 r_8 v_0 v_1 v_2
       nadd nsub nmul nabs nleb] in HC.
  rewrite !andb_true_iff in HC. destruct HC as [[C0 C1] C2]. q_props.
  unfold obb3.clampPoint, obb3.add_scaled, vec3_of, mat3_of, vec3_eq.
  cbn [obb3.center obb3.halfExtents obb3.rotation
       r_0 r_1 r_2 r_3 r_4 r_5 r_6 r_7 r_8 v_0 v_1 v_2]. cbv zeta.
  cbn [obb3.center obb3.halfExtents obb3.rotation
       r_0 r_1 r_2 r_3 r_4 r_5 r_6 r_7 r_8 v_0 v_1 v_2 nadd nsub nmul].
  destruct (clamp_inside _ _ C0) as (d0 & -> & D0).
  destruct (clamp_inside _ _ C1) as (d1 & -> & D1).
  destruct (clamp_inside _ _ C2) as (d2 & -> & D2).
  cbn [nadd nmul num_eq].
  repeat split; nsatz.
Qed.

(** C5: for every OBB with finite entries and an orthonormal rotation, and
    every point [p] with finite coordinates, if [containsPoint] holds of
    [p] then [clampPoint] returns [p] itself (in exact arithmetic: the same
    three rational numbers). *)
Theorem clampPoint_of_contained_point (obb : obb3.OBB3) (p : Vec3) :
  obb3_finite obb = true -> vec3_finite p = true ->
  mat3_orthonormal (obb3.rotation obb) = true ->
  obb3.containsPoint obb p = true ->
  vec3_eq (obb3.clampPoint obb p) p.
Proof.
  destruct obb as [c h r]. unfold obb3_finite.
  cbn [obb3.center obb3.halfExtents obb3.rotation].
  rewrite !andb_true_iff. intros [[Fc Fh] Fr] Fp.
  destruct (vec3_finite_inv _ Fc) as (c0 & c1 & c2 & ->).
  destruct (vec3_finite_inv _ Fh) as (h0 & h1 & h2 & ->).
  destruct (vec3_finite_inv _ Fp) as (p0 & p1 & p2 & ->).
  destruct (mat3_finite_inv _ Fr) as (r0 & r1 & r2 & r3 & r4 & r5 & r6 & r7 & r8 & ->).
  apply clampPoint_of_contained_fin.
Qed.

(** A point inside a rotated box. *)
Lemma clampPoint_of_contained_point_345 :
  vec3_eq (obb3.clampPoint obb_345 (vec3_of 1.5 2.5 3)) (vec3_of 1.5 2.5 3).
Proof.
  apply clampPoint_of_contained_point; vm_compute; reflexivity.
Defined.

(** A point outside is moved: the clamp is not the identity in general. *)
Example clampPoint_of_outside_point_345 :
  vec3_eq (obb3.clampPoint obb_345 (vec3_of 1 2 5)) (vec3_of 1 2 4).
Proof. vm_compute. repeat split. Qed.

(** ** C4: the OBB-OBB test is symmetric *)

Lemma Qabs_eq_of_squares (x y : Q) : (x * x == y * y -> Qabs x == Qabs y)%Q.
Proof.
  intro H.
  assert (K : ((x - y) * (x + y) == 0)%Q) by (ring_simplify; lra).
  apply Qmult_integral in K. destruct K as [K | K].
  - assert (E : (x == y)%Q) by lra. rewrite E. reflexivity.
  - assert (E : (x == - y)%Q) by lra. rewrite E. apply Qabs_opp.
Qed.

Lemma Qle_eq_compat (x x' y y' : Q) :
  (y == y' -> x == x' -> x <= y -> x' <= y')%Q.
Proof. intros Hy Hx H. rewrite <- Hx, <- Hy. exact H. Qed.

Lemma intersectsOBB3_swap_fin
    (ca0 ca1 ca2 ha0 ha1 ha2 a0 a1 a2 a3 a4 a5 a6 a7 a8 : Q)
    (cb0 cb1 cb2 hb0 hb1 hb2 b0 b1 b2 b3 b4 b5 b6 b7 b8 : Q) (e : Q) :
  let A := obb3.mkOBB3 (vec3_of ca0 ca1 ca2) (vec3_of ha0 ha1 ha2)
                       (mat3_of a0 a1 a2 a3 a4 a5 a6 a7 a8) in
  let B := obb3.mkOBB3 (vec3_of cb0 cb1 cb2) (vec3_of hb0 hb1 hb2)
                       (mat3_of b0 b1 b2 b3 b4 b5 b6 b7 b8) in
  mat3_orthonormal (obb3.rotation A) = true ->
  mat3_orthonormal (obb3.rotation B) = true ->
  obb3.intersectsOBB3 A B $e = true ->
  obb3.intersectsOBB3 B A $e = true.
Proof.
  cbv zeta. cbn [obb3.rotation].
  intros HA HB H.
  apply mat3_orthonormal_inv in HA. destruct HA as (A00 & A11 & A22 & A01 & A02 & A12).
  apply mat3_orthonormal_inv in HB. destruct HB as (B00 & B11 & B22 & B01 & B02 & B12).
  cbv [obb3.intersectsOBB3 obb3._intersectsOBB3_R obb3._intersectsOBB3_AbsR
       obb3._intersectsOBB3_tInA obb3._intersectsOBB3_t obb3._intersectsOBB3_aU
       obb3._intersectsOBB3_bU obb3.a_halfExtents obb3.b_halfExtents obb3.axis
       obb3.center obb3.halfExtents obb3.rotation vec3.dot vec3.subtract
       vec3_of mat3_of vget existsb seq
       r_0 r_1 r_2 r_3 r_4 r_5 r_6 r_7 r_8 v_0 v_1 v_2
       nadd nsub nmul nabs ngtb nltb orb] in H |- *.
  assert (K00 : (Qabs (b0 * a0 + b1 * a1 + b2 * a2) == Qabs (a0 * b0 + a1 * b1 + a2 * b2))%Q)
    by (apply Qabs_wd; ring).
  assert (K01 : (Qabs (b3 * a0 + b4 * a1 + b5 * a2) == Qabs (a0 * b3 + a1 * b4 + a2 * b5))%Q)
    by (apply Qabs_wd; ring).
  assert (K02 : (Qabs (b6 * a0 + b7 * a1 + b8 * a2) == Qabs (a0 * b6 + a1 * b7 + a2 * b8))%Q)
    by (apply Qabs_wd; ring).
  assert (K10 : (Qabs (b0 * a3 + b1 * a4 + b2 * a5) == Qabs (a3 * b0 + a4 * b1 + a5 * b2))%Q)
    by (apply Qabs_wd; ring).
  assert (K11 : (Qabs (b3 * a3 + b4 * a4 + b5 * a5) == Qabs (a3 * b3 + a4 * b4 + a5 * b5))%Q)
    by (apply Qabs_wd; ring).
  assert (K12 : (Qabs (b6 * a3 + b7 * a4 + b8 * a5) == Qabs (a3 * b6 + a4 * b7 + a5 * b8))%Q)
    by (apply Qabs_wd; ring).
  assert (K20 : (Qabs (b0 * a6 + b1 * a7 + b2 * a8) == Qabs (a6 * b0 + a7 * b1 + a8 * b2))%Q)
    by (apply Qabs_wd; ring).
  assert (K21 : (Qabs (b3 * a6 + b4 * a7 + b5 * a8) == Qabs (a6 * b3 + a7 * b4 + a8 * b5))%Q)
    by (apply Qabs_wd; ring).
  assert (K22 : (Qabs (b6 * a6 + b7 * a7 + b8 * a8) == Qabs (a6 * b6 + a7 * b7 + a8 * b8))%Q)
    by (apply Qabs_wd; ring).
  match goal with |- ?g = true => set (G := g) end.
  revert H.
  repeat match goal with
  | |- context [Qltb ?x ?y] =>
      let S := fresh "S" in
      destruct (Qltb x y) eqn:S;
      [ cbv beta iota; intro; discriminate | apply Qltb_ge in S ]
  end.
  intros _. subst G.
  repeat match goal with
  | |- context [Qltb ?x ?y] =>
      let F := fresh "F" in
      assert (F : Qltb x y = false);
      [ apply Qltb_ge;
        match goal with
        | E : (Qabs ?u <= ?r)%Q |- (Qabs ?u' <= ?r')%Q =>
            apply (Qle_eq_compat (Qabs u) (Qabs u') r r');
            [ rewrite ?K00, ?K01, ?K02, ?K10, ?K11, ?K12, ?K20, ?K21, ?K22; ring
            | apply Qabs_eq_of_squares; nsatz
            | exact E ]
        end
      | rewrite F; clear F ]
  end.
  reflexivity.
Qed.



(** Two axis-aligned unit-half-extent boxes whose centres are exactly 2
    apart touch and intersect; 3 apart they do not. *)
Example intersectsOBB3_touching :
  obb3.intersectsOBB3 obb_unit
    (obb3.mkOBB3 (vec3_of 2 0 0) (vec3_of 1 1 1) mat3.create) obb3.EPSILON = true.
Proof. vm_compute. reflexivity. Qed.

Example intersectsOBB3_apart :
  obb3.intersectsOBB3 obb_unit
    (obb3.mkOBB3 (vec3_of 3 0 0) (vec3_of 1 1 1) mat3.create) obb3.EPSILON = false.
Proof. vm_compute. reflexivity. Qed.

(** * Further properties of the code *)

(** ** Numbers, boxes and vectors *)

Lemma box3_finite_inv (b : Box3) :
  box3_finite b = true -> exists m0 m1 m2 M0 M1 M2, b = box3_of m0 m1 m2 M0 M1 M2.
Proof.
  destruct b as [x0 x1 x2 x3 x4 x5]. unfold box3_finite.
  cbn [b_0 b_1 b_2 b_3 b_4 b_5].
  rewrite !andb_true_iff. intros [[[[[H0 H1] H2] H3] H4] H5].
  destruct (isFinite_inv _ H0) as [q0 ->]. destruct (isFinite_inv _ H1) as [q1 ->].
  destruct (isFinite_inv _ H2) as [q2 ->]. destruct (isFinite_inv _ H3) as [q3 ->].
  destruct (isFinite_inv _ H4) as [q4 ->]. destruct (isFinite_inv _ H5) as [q5 ->].
  exists q0, q1, q2, q3, q4, q5. reflexivity.
Qed.

Lemma nleb_nmin (c a b : num) :
  isNaN a = false -> isNaN b = false ->
  (c <=? nmin a b) = (c <=? a) && (c <=? b).
Proof.
  destruct a as [a| | |], b as [b| | |], c as [c| | |]; intros Ha Hb;
    try discriminate; cbn [nmin nleb]; try reflexivity;
    try (destruct (Qle_bool _ _); reflexivity).
  destruct (Qle_bool a b) eqn:E; cbn [nleb]; q_bool_eq.
Qed.

Lemma nmax_nleb (c a b : num) :
  isNaN a = false -> isNaN b = false ->
  (nmax a b <=? c) = (a <=? c) && (b <=? c).
Proof.
  destruct a as [a| | |], b as [b| | |], c as [c| | |]; intros Ha Hb;
    try discriminate; cbn [nmax nleb]; try reflexivity;
    try (destruct (Qle_bool _ _); reflexivity).
  destruct (Qle_bool a b) eqn:E; cbn [nleb]; q_bool_eq.
Qed.

Lemma box3_noNaN_inv (b : Box3) :
  box3_noNaN b = true ->
  isNaN (b_0 b) = false /\ isNaN (b_1 b) = false /\ isNaN (b_2 b) = false /\
  isNaN (b_3 b) = false /\ isNaN (b_4 b) = false /\ isNaN (b_5 b) = false.
Proof.
  unfold box3_noNaN. rewrite !andb_true_iff, !negb_true_iff. tauto.
Qed.

Lemma vec3_noNaN_inv (v : Vec3) :
  vec3_noNaN v = true ->
  isNaN (v_0 v) = false /\ isNaN (v_1 v) = false /\ isNaN (v_2 v) = false.
Proof.
  unfold vec3_noNaN. rewrite !andb_true_iff, !negb_true_iff. tauto.
Qed.

Lemma nmin_PInf_r (a : num) : isNaN a = false -> nmin a PInf = a.
Proof. destruct a; try discriminate; reflexivity. Qed.
Lemma nmin_PInf_l (a : num) : isNaN a = false -> nmin PInf a = a.
Proof. destruct a; try discriminate; reflexivity. Qed.
Lemma nmax_NInf_r (a : num) : isNaN a = false -> nmax a NInf = a.
Proof. destruct a; try discriminate; reflexivity. Qed.
Lemma nmax_NInf_l (a : num) : isNaN a = false -> nmax NInf a = a.
Proof. destruct a; try discriminate; reflexivity. Qed.

(** Goals about [nmin] and [nmax] of values that are finite or infinite. *)
Ltac num_le_solve :=
  cbn [nmin nmax nleb num_eq]; try reflexivity; try exact I;
  repeat match goal with
  | |- context [if Qle_bool ?a ?b then _ else _] =>
      destruct (Qle_bool a b) eqn:?; cbn [nleb num_eq]
  end; q_props; lra.

Lemma nmin_le_l (a b : num) :
  isNaN a = false -> isNaN b = false -> (nmin a b <=? a) = true.
Proof.
  destruct a as [a| | |], b as [b| | |]; intros; try discriminate;
    num_le_solve.
Qed.
Lemma nmin_le_r (a b : num) :
  isNaN a = false -> isNaN b = false -> (nmin a b <=? b) = true.
Proof.
  destruct a as [a| | |], b as [b| | |]; intros; try discriminate;
    num_le_solve.
Qed.
Lemma nmax_ge_l (a b : num) :
  isNaN a = false -> isNaN b = false -> (a <=? nmax a b) = true.
Proof.
  destruct a as [a| | |], b as [b| | |]; intros; try discriminate;
    num_le_solve.
Qed.
Lemma nmax_ge_r (a b : num) :
  isNaN a = false -> isNaN b = false -> (b <=? nmax a b) = true.
Proof.
  destruct a as [a| | |], b as [b| | |]; intros; try discriminate;
    num_le_solve.
Qed.
Lemma nmin_absorb (a b : num) : (a <=? b) = true -> num_eq (nmin a b) a.
Proof.
  destruct a as [a| | |], b as [b| | |]; cbn [nleb]; intro E; try discriminate;
    q_props; num_le_solve.
Qed.
Lemma nmax_absorb (a b : num) : (b <=? a) = true -> num_eq (nmax a b) a.
Proof.
  destruct a as [a| | |], b as [b| | |]; cbn [nleb]; intro E; try discriminate;
    q_props; num_le_solve.
Qed.

Lemma nmax_fin (x y : Q) : nmax $x $y = $(if Qle_bool x y then y else x).
Proof. cbn [nmax nleb]. destruct (Qle_bool x y); reflexivity. Qed.

Lemma nmin_fin (x y : Q) : nmin $x $y = $(if Qle_bool x y then x else y).
Proof. cbn [nmin nleb]. destruct (Qle_bool x y); reflexivity. Qed.


(** ** box3: containment, union, expansion, scaling *)

(** X1: box3.intersectsBox3(a, b) equals box3.intersectsBox3(b, a) for all
    boxes, boxes with infinite or NaN bounds included. *)
Theorem intersectsBox3_symmetric (a b : Box3) :
  box3.intersectsBox3 a b = box3.intersectsBox3 b a.
Proof.
  unfold box3.intersectsBox3, ngeb.
  destruct (b_0 a <=? b_3 b), (b_0 b <=? b_3 a), (b_1 a <=? b_4 b),
    (b_1 b <=? b_4 a), (b_2 a <=? b_5 b), (b_2 b <=? b_5 a); reflexivity.
Qed.

(** X2: If box3.containsBox3(a, b) holds, then every box that b contains is
    contained in a and every point that b contains is contained in a (for
    all values, NaN included). *)
Theorem containsBox3_transitive (a b c : Box3) (p : Vec3) :
  box3.containsBox3 a b = true ->
  (box3.containsBox3 b c = true -> box3.containsBox3 a c = true) /\
  (box3.containsPoint b p = true -> box3.containsPoint a p = true).
Proof.
  unfold box3.containsBox3, box3.containsPoint, ngeb.
  rewrite !andb_true_iff.
  intros [[[[[A0 A3] A1] A4] A2] A5]. split.
  - intros [[[[[B0 B3] B1] B4] B2] B5].
    repeat split; eapply nleb_trans; eassumption.
  - intros [[[[[B0 B3] B1] B4] B2] B5].
    repeat split; eapply nleb_trans; eassumption.
Qed.

(** X3: For NaN-free boxes a and b, a box c contains box3.union(a, b)
    exactly when it contains both a and b: the union is the least box around
    the two. *)
Theorem union_is_least_upper_bound (a b c : Box3) :
  box3_noNaN a = true -> box3_noNaN b = true ->
  box3.containsBox3 c (box3.union a b) =
  box3.containsBox3 c a && box3.containsBox3 c b.
Proof.
  intros Ha Hb. apply box3_noNaN_inv in Ha, Hb.
  destruct Ha as (A0 & A1 & A2 & A3 & A4 & A5).
  destruct Hb as (B0 & B1 & B2 & B3 & B4 & B5).
  unfold box3.containsBox3, box3.union, ngeb.
  cbn [b_0 b_1 b_2 b_3 b_4 b_5].
  rewrite !nleb_nmin, !nmax_nleb by assumption.
  repeat match goal with
  | |- context [?x <=? ?y] =>
      match x with context [nmin] => fail 1 | context [nmax] => fail 1 | _ => idtac end;
      destruct (x <=? y)
  end; reflexivity.
Qed.
(** X4: For a NaN-free box a, union(a, create()) and union(create(), a) are
    a itself, and expandByPoint of the empty box by a NaN-free point p is
    the degenerate box [p, p]. *)
Theorem empty_box_is_neutral (a : Box3) (p : Vec3) :
  box3_noNaN a = true -> vec3_noNaN p = true ->
  box3.union a box3.create = a /\
  box3.union box3.create a = a /\
  box3.expandByPoint box3.create p =
    mkBox3 (v_0 p) (v_1 p) (v_2 p) (v_0 p) (v_1 p) (v_2 p).
Proof.
  intros Ha Hp. apply box3_noNaN_inv in Ha. apply vec3_noNaN_inv in Hp.
  destruct Ha as (A0 & A1 & A2 & A3 & A4 & A5). destruct Hp as (P0 & P1 & P2).
  destruct a as [a0 a1 a2 a3 a4 a5]. cbn [b_0 b_1 b_2 b_3 b_4 b_5] in *.
  unfold box3.union, box3.expandByPoint, box3.create.
  cbn [b_0 b_1 b_2 b_3 b_4 b_5].
  rewrite !nmin_PInf_r, !nmin_PInf_l, !nmax_NInf_r, !nmax_NInf_l by assumption.
  repeat split.
Qed.

(** X5: For a NaN-free box and point, expandByPoint(box, p) contains p and
    contains box; when box already contains p the result has the same six
    bounds as box. *)
Theorem expandByPoint_covers (box : Box3) (p : Vec3) :
  box3_noNaN box = true -> vec3_noNaN p = true ->
  box3.containsPoint (box3.expandByPoint box p) p = true /\
  box3.containsBox3 (box3.expandByPoint box p) box = true /\
  (box3.containsPoint box p = true -> box3_eq (box3.expandByPoint box p) box).
Proof.
  intros Ha Hp. apply box3_noNaN_inv in Ha. apply vec3_noNaN_inv in Hp.
  destruct Ha as (A0 & A1 & A2 & A3 & A4 & A5). destruct Hp as (P0 & P1 & P2).
  unfold box3.containsPoint, box3.containsBox3, box3.expandByPoint, box3_eq, ngeb.
  cbn [b_0 b_1 b_2 b_3 b_4 b_5].
  rewrite !andb_true_iff. repeat split;
    try (apply nmin_le_l; assumption); try (apply nmin_le_r; assumption);
    try (apply nmax_ge_l; assumption); try (apply nmax_ge_r; assumption);
    match goal with H : _ |- _ => destruct H as [[[[[C0 C3] C1] C4] C2] C5] end;
    (apply nmin_absorb || apply nmax_absorb); assumption.
Qed.

Lemma scale_axis (m M x s : Q) :
  (m <= x -> x <= M ->
   Qle_bool (if Qle_bool (m * s) (M * s) then m * s else M * s) (x * s) = true /\
   Qle_bool (x * s) (if Qle_bool (m * s) (M * s) then M * s else m * s) = true)%Q.
Proof.
  intros H1 H2.
  destruct (Qlt_le_dec s 0) as [S | S];
    destruct (Qle_bool (m * s) (M * s)) eqn:E; q_props; split; q_props; nra.
Qed.

(** X6: For a finite box, a finite scale vector s with components of any
    sign and a finite point p: if the box contains p then box3.scale(box, s)
    contains the component-wise product of p and s. *)
Theorem scale_covers_scaled_points (box : Box3) (s p : Vec3) :
  box3_finite box = true -> vec3_finite s = true -> vec3_finite p = true ->
  box3.containsPoint box p = true ->
  box3.containsPoint (box3.scale box s) (vec3_times p s) = true.
Proof.
  intros Hb Hs Hp.
  destruct (box3_finite_inv _ Hb) as (m0 & m1 & m2 & M0 & M1 & M2 & ->).
  destruct (vec3_finite_inv _ Hs) as (s0 & s1 & s2 & ->).
  destruct (vec3_finite_inv _ Hp) as (x & y & z & ->).
  unfold box3.containsPoint, box3.scale, vec3_times, box3_of, vec3_of, ngeb.
  cbn [b_0 b_1 b_2 b_3 b_4 b_5 v_0 v_1 v_2 nmul nleb]. cbv zeta.
  cbn [b_0 b_1 b_2 b_3 b_4 b_5 v_0 v_1 v_2 nmul nleb nmin nmax].
  rewrite !andb_true_iff. intros [[[[[C0 C3] C1] C4] C2] C5]. q_props.
  destruct (scale_axis m0 M0 x s0 C0 C3) as [X0 X1].
  destruct (scale_axis m1 M1 y s1 C1 C4) as [Y0 Y1].
  destruct (scale_axis m2 M2 z s2 C2 C5) as [Z0 Z1].
  destruct (Qle_bool (m0 * s0) (M0 * s0)), (Qle_bool (m1 * s1) (M1 * s1)),
    (Qle_bool (m2 * s2) (M2 * s2)); cbn [nleb]; repeat split; assumption.
Qed.

(** X7: For a box with finite bounds, setFromCenterAndSize(center(box),
    size(box)) gives back the six bounds of the box (in exact arithmetic).
    The helpers vec3.scale, vec3.sub and vec3.add, whose files are not part
    of the sources, are modelled with their usual meaning. *)
Theorem setFromCenterAndSize_round_trip (out box : Box3) :
  box3_finite box = true ->
  box3_eq (box3.setFromCenterAndSize out (box3.center box) (box3.size box)) box.
Proof.
  intros Hb.
  destruct (box3_finite_inv _ Hb) as (m0 & m1 & m2 & M0 & M1 & M2 & ->).
  unfold box3.setFromCenterAndSize, box3.center, box3.size, box3_eq, box3_of,
    vec3.scale, vec3.subtract, vec3.add.
  cbn [b_0 b_1 b_2 b_3 b_4 b_5 v_0 v_1 v_2 nmul nadd nsub num_eq].
  repeat split; lra.
Qed.

(** Two equal rationals are within the tolerance of each other. *)
Lemma close_of_eq (eps a b : Q) :
  (0 <= eps)%Q -> (a == b)%Q -> box3.close $eps $a $b = true.
Proof.
  intros H E. unfold box3.close. cbn [nsub nabs]. rewrite !nmax_fin.
  cbn [nmul nleb].
  assert (Z : (Qabs (a - b) == 0)%Q).
  { assert (E' : (a - b == 0)%Q) by lra. rewrite E'. reflexivity. }
  pose proof (Qabs_nonneg a) as Ha. pose proof (Qabs_nonneg b) as Hb.
  apply Qle_bool_iff. rewrite Z. apply Qmult_le_0_compat; [exact H |].
  destruct (Qle_bool 1 (Qabs a)) eqn:E1;
    destruct (Qle_bool _ (Qabs b)) eqn:E2; q_props; lra.
Qed.

Lemma close_refl (eps : Q) (a : num) :
  (0 <= eps)%Q -> box3.close $eps a a = isFinite a.
Proof.
  intro H. destruct a as [a| | |]; try reflexivity.
  apply close_of_eq; [exact H | reflexivity].
Qed.

(** X9: For EPSILON >= 0, box3.equals(a, a) is true exactly when all six
    bounds of a are finite: the empty box, and any box with an infinite or
    NaN bound, does not equal itself. *)
Theorem equals_reflexive_iff_finite (eps : Q) (a : Box3) :
  (0 <= eps)%Q -> box3.equals $eps a a = box3_finite a.
Proof.
  intro H. unfold box3.equals, box3_finite. cbv zeta.
  rewrite !close_refl by exact H. reflexivity.
Qed.

(** X10: For boxes with finite bounds and EPSILON >= 0, box3.exactEquals(a,
    b) implies box3.equals(a, b). *)
Theorem exactEquals_implies_equals (eps : Q) (a b : Box3) :
  (0 <= eps)%Q -> box3_finite a = true -> box3_finite b = true ->
  box3.exactEquals a b = true -> box3.equals $eps a b = true.
Proof.
  intros H Ha Hb.
  destruct (box3_finite_inv _ Ha) as (a0 & a1 & a2 & a3 & a4 & a5 & ->).
  destruct (box3_finite_inv _ Hb) as (b0 & b1 & b2 & b3 & b4 & b5 & ->).
  unfold box3.exactEquals, box3.equals, box3_of. cbv zeta.
  cbn [b_0 b_1 b_2 b_3 b_4 b_5 neqb].
  rewrite !andb_true_iff. intros [[[[[E0 E1] E2] E3] E4] E5]. q_props.
  repeat split; apply close_of_eq; assumption.
Qed.

Section Tight.
Variable T : Vec3 -> Mat4 -> Vec3.
Variables (box : Box3) (mat : Mat4).
Variables (gb : Box3 -> num) (gv : Vec3 -> num) (acc : num -> num -> num).
Hypothesis Hstep : forall out i,
  gb (box3.transformMat4_step T false box mat out i) =
  acc (gv (T (box3.corner box i) mat)) (gb out).
Hypothesis Hacc : forall c lo, acc c lo = c \/ acc c lo = lo.

Lemma transformMat4_fold_attained (l : list nat) (out : Box3) :
  gb (fold_left (box3.transformMat4_step T false box mat) l out) = gb out \/
  exists i, In i l /\
    gb (fold_left (box3.transformMat4_step T false box mat) l out)
    = gv (T (box3.corner box i) mat).
Proof.
  revert out. induction l as [| j l IH]; intro out; [left; reflexivity |].
  cbn [fold_left].
  destruct (IH (box3.transformMat4_step T false box mat out j)) as [E | (i & Hi & E)].
  - rewrite E, Hstep. destruct (Hacc (gv (T (box3.corner box j) mat)) (gb out)) as [-> | ->].
    + right. exists j. split; [left; reflexivity | reflexivity].
    + left. reflexivity.
  - right. exists i. split; [right; exact Hi | exact E].
Qed.

Lemma transformMat4_fold_attained_from (out1 : Box3) :
  gb out1 = gv (T (box3.corner box 0) mat) ->
  exists i, (i < 8)%nat /\
    gb (fold_left (box3.transformMat4_step T false box mat) (seq 1 7) out1)
    = gv (T (box3.corner box i) mat).
Proof.
  intro H0.
  destruct (transformMat4_fold_attained (seq 1 7) out1) as [E | (i & Hi & E)].
  - exists 0%nat. split; [lia | rewrite E; exact H0].
  - exists i. apply in_seq in Hi. split; [lia | exact E].
Qed.
End Tight.


Lemma acc_lo_cases (c lo : num) : acc_lo c lo = c \/ acc_lo c lo = lo.
Proof. unfold acc_lo. destruct (c <? lo); auto. Qed.
Lemma acc_hi_cases (c hi : num) : acc_hi c hi = c \/ acc_hi c hi = hi.
Proof. unfold acc_hi. destruct (c >? hi); auto. Qed.

Lemma acc_lo_PInf (c : num) : isFinite c = true -> acc_lo c PInf = c.
Proof. destruct c; try discriminate; reflexivity. Qed.
Lemma acc_hi_NInf (c : num) : isFinite c = true -> acc_hi c NInf = c.
Proof. destruct c; try discriminate; reflexivity. Qed.


Lemma transformMat4_first_step (T : Vec3 -> Mat4 -> Vec3) (box : Box3) (mat : Mat4) :
  vec3_finite (T (box3.corner box 0) mat) = true ->
  box3.transformMat4_step T false box mat (mkBox3 PInf PInf PInf NInf NInf NInf) 0 =
  mkBox3 (v_0 (T (box3.corner box 0) mat)) (v_1 (T (box3.corner box 0) mat))
         (v_2 (T (box3.corner box 0) mat)) (v_0 (T (box3.corner box 0) mat))
         (v_1 (T (box3.corner box 0) mat)) (v_2 (T (box3.corner box 0) mat)).
Proof.
  intro F0. unfold vec3_finite in F0. rewrite !andb_true_iff in F0.
  destruct F0 as [[F0 F1] F2].
  rewrite transformMat4_step_fields. cbn [b_0 b_1 b_2 b_3 b_4 b_5].
  rewrite !acc_lo_PInf, !acc_hi_NInf by assumption. reflexivity.
Qed.

Lemma fold_left_cons {A B : Type} (f : A -> B -> A) (x : B) (l : list B) (a : A) :
  fold_left f (x :: l) a = fold_left f l (f a x).
Proof. reflexivity. Qed.

Lemma seq_0_8 : seq 0 8 = 0%nat :: seq 1 7.
Proof. reflexivity. Qed.

Lemma transformMat4_unfold_first (T : Vec3 -> Mat4 -> Vec3) (box : Box3) (mat : Mat4) :
  box3.transformMat4 T false box mat =
  fold_left (box3.transformMat4_step T false box mat) (seq 1 7)
    (box3.transformMat4_step T false box mat (mkBox3 PInf PInf PInf NInf NInf NInf) 0).
Proof.
  unfold box3.transformMat4. rewrite seq_0_8, fold_left_cons. reflexivity.
Qed.


(** ** Triangles against boxes *)

(** One iteration of [_satForAxes], with the projected interval named. *)
Lemma satForAxes_loop_step (_v0 _v1 _v2 _extents : Vec3) (axes : list num) (i n : nat) :
  box3._satForAxes_loop _v0 _v1 _v2 _extents axes i (S n) =
  let ax := nth (i * 3 + 0) axes NaN in
  let ay := nth (i * 3 + 1) axes NaN in
  let az := nth (i * 3 + 2) axes NaN in
  if (ax =? $0) && (ay =? $0) && (az =? $0)
  then box3._satForAxes_loop _v0 _v1 _v2 _extents axes (S i) n
  else
    let p0 := v_0 _v0 * ax + v_1 _v0 * ay + v_2 _v0 * az in
    let p1 := v_0 _v1 * ax + v_1 _v1 * ay + v_2 _v1 * az in
    let p2 := v_0 _v2 * ax + v_1 _v2 * ay + v_2 _v2 * az in
    let r := v_0 _extents * nabs ax + v_1 _extents * nabs ay
             + v_2 _extents * nabs az in
    if (snd (projected_interval p0 p1 p2) <? - r)
       || (fst (projected_interval p0 p1 p2) >? r)
    then false
    else box3._satForAxes_loop _v0 _v1 _v2 _extents axes (S i) n.
Proof.
  cbn [box3._satForAxes_loop]. cbv zeta.
  destruct (_ && _); [reflexivity |].
  unfold projected_interval. cbv zeta.
  set (p0 := v_0 _v0 * _ + _ + _). set (p1 := v_0 _v1 * _ + _ + _).
  set (p2 := v_0 _v2 * _ + _ + _).
  destruct (p1 <? p0); [ | destruct (p1 >? p0)];
    (destruct (p2 <? _); [ | destruct (p2 >? _)]); reflexivity.
Qed.

(** On finite values the interval is the minimum and the maximum. *)
Lemma projected_interval_fin (p0 p1 p2 : Q) :
  exists lo hi,
    projected_interval $p0 $p1 $p2 = ($lo, $hi) /\
    (lo <= p0 /\ lo <= p1 /\ lo <= p2 /\ p0 <= hi /\ p1 <= hi /\ p2 <= hi /\
     (lo = p0 \/ lo = p1 \/ lo = p2) /\ (hi = p0 \/ hi = p1 \/ hi = p2))%Q.
Proof.
  unfold projected_interval. cbv zeta. cbn [nltb ngtb].
  destruct (Qltb p1 p0) eqn:E1; [| destruct (Qltb p0 p1) eqn:E2]; cbn [nltb ngtb];
    (destruct (Qltb p2 _) eqn:E3; [| destruct (Qltb _ p2) eqn:E4]);
    q_props; eexists; eexists; (split; [reflexivity |]);
    repeat split; auto; lra.
Qed.

Lemma abs_dot_bound (x y z ex ey ez ax ay az : Q) :
  (Qabs x <= ex -> Qabs y <= ey -> Qabs z <= ez ->
   Qabs (x * ax + y * ay + z * az) <= ex * Qabs ax + ey * Qabs ay + ez * Qabs az)%Q.
Proof.
  intros Hx Hy Hz.
  eapply Qle_trans; [apply Qabs_triangle |].
  apply Qplus_le_compat.
  - eapply Qle_trans; [apply Qabs_triangle |].
    apply Qplus_le_compat; rewrite Qabs_Qmult;
      apply Qmult_le_compat_r; auto using Qabs_nonneg.
  - rewrite Qabs_Qmult. apply Qmult_le_compat_r; auto using Qabs_nonneg.
Qed.


Lemma convex3_between (w0 w1 w2 p0 p1 p2 lo hi : Q) :
  (0 <= w0 -> 0 <= w1 -> 0 <= w2 -> w0 + w1 + w2 == 1 ->
   lo <= p0 -> lo <= p1 -> lo <= p2 -> p0 <= hi -> p1 <= hi -> p2 <= hi ->
   lo <= w0 * p0 + w1 * p1 + w2 * p2 <= hi)%Q.
Proof.
  intros W0 W1 W2 WS L0 L1 L2 H0 H1 H2.
  assert (0 <= w0 * (p0 - lo))%Q by (apply Qmult_le_0_compat; lra).
  assert (0 <= w1 * (p1 - lo))%Q by (apply Qmult_le_0_compat; lra).
  assert (0 <= w2 * (p2 - lo))%Q by (apply Qmult_le_0_compat; lra).
  assert (0 <= w0 * (hi - p0))%Q by (apply Qmult_le_0_compat; lra).
  assert (0 <= w1 * (hi - p1))%Q by (apply Qmult_le_0_compat; lra).
  assert (0 <= w2 * (hi - p2))%Q by (apply Qmult_le_0_compat; lra).
  assert (E : (lo == (w0 + w1 + w2) * lo)%Q) by (rewrite WS; ring).
  assert (F : (hi == (w0 + w1 + w2) * hi)%Q) by (rewrite WS; ring).
  split; lra.
Qed.

Lemma satForAxes_loop_point_inside
    (x0 y0 z0 x1 y1 z1 x2 y2 z2 ex ey ez w0 w1 w2 : Q) (axes : list num)
    (n i : nat) :
  (0 <= w0 -> 0 <= w1 -> 0 <= w2 -> w0 + w1 + w2 == 1 ->
   Qabs (w0 * x0 + w1 * x1 + w2 * x2) <= ex ->
   Qabs (w0 * y0 + w1 * y1 + w2 * y2) <= ey ->
   Qabs (w0 * z0 + w1 * z1 + w2 * z2) <= ez ->
   (forall k, (k < 3 * (i + n))%nat -> isFinite (nth k axes NaN) = true) ->
   box3._satForAxes_loop (vec3_of x0 y0 z0) (vec3_of x1 y1 z1) (vec3_of x2 y2 z2)
     (vec3_of ex ey ez) axes i n = true)%Q.
Proof.
  intros W0 W1 W2 WS Hx Hy Hz.
  revert i. induction n as [| n IH]; intros i Hax; [reflexivity |].
  rewrite satForAxes_loop_step. cbv zeta.
  destruct (isFinite_inv _ (Hax (i * 3 + 0)%nat ltac:(lia))) as [ax ->].
  destruct (isFinite_inv _ (Hax (i * 3 + 1)%nat ltac:(lia))) as [ay ->].
  destruct (isFinite_inv _ (Hax (i * 3 + 2)%nat ltac:(lia))) as [az ->].
  assert (R : box3._satForAxes_loop (vec3_of x0 y0 z0) (vec3_of x1 y1 z1)
                (vec3_of x2 y2 z2) (vec3_of ex ey ez) axes (S i) n = true)
    by (apply IH; intros k Hk; apply Hax; lia).
  rewrite R. destruct (_ && _); [reflexivity |].
  unfold vec3_of. cbn [v_0 v_1 v_2 nmul nadd nabs nneg].
  destruct (projected_interval_fin (x0 * ax + y0 * ay + z0 * az)
              (x1 * ax + y1 * ay + z1 * az) (x2 * ax + y2 * ay + z2 * az))
    as (lo & hi & -> & L0 & L1 & L2 & H0 & H1 & H2 & _ & _).
  cbn [fst snd nltb ngtb].
  pose proof (convex3_between w0 w1 w2 _ _ _ lo hi W0 W1 W2 WS L0 L1 L2 H0 H1 H2)
    as [Bl Bh].
  pose proof (abs_dot_bound _ _ _ ex ey ez ax ay az Hx Hy Hz) as Ba.
  apply Qabs_Qle_condition in Ba. destruct Ba as [Ba1 Ba2].
  assert (S1 : Qltb hi (- (ex * Qabs ax + ey * Qabs ay + ez * Qabs az)) = false)
    by (q_props; lra).
  assert (S2 : Qltb (ex * Qabs ax + ey * Qabs ay + ez * Qabs az) lo = false)
    by (q_props; lra).
  rewrite S1, S2. reflexivity.
Qed.

Lemma intersectsTriangle3_point_inside_fin
    (m0 m1 m2 M0 M1 M2 ax ay az bx by_ bz cx cy cz w0 w1 w2 : Q) :
  (0 <= w0 -> 0 <= w1 -> 0 <= w2 -> w0 + w1 + w2 == 1 ->
   m0 <= ax * w0 + bx * w1 + cx * w2 <= M0 ->
   m1 <= ay * w0 + by_ * w1 + cy * w2 <= M1 ->
   m2 <= az * w0 + bz * w1 + cz * w2 <= M2 ->
   box3.intersectsTriangle3 (box3_of m0 m1 m2 M0 M1 M2)
     (vec3_of ax ay az) (vec3_of bx by_ bz) (vec3_of cx cy cz) = true)%Q.
Proof.
  intros W0 W1 W2 WS Hx Hy Hz.
  unfold box3.intersectsTriangle3, box3_of, vec3_of.
  cbn [b_0 b_1 b_2 b_3 b_4 b_5 v_0 v_1 v_2 ngtb nltb nadd nsub nmul nneg].
  assert (G0 : Qltb M0 m0 = false) by (q_props; lra).
  assert (G1 : Qltb M1 m1 = false) by (q_props; lra).
  assert (G2 : Qltb M2 m2 = false) by (q_props; lra).
  rewrite G0, G1, G2. cbn [orb]. cbv zeta.
  cbn [b_0 b_1 b_2 b_3 b_4 b_5 v_0 v_1 v_2 ngtb nltb nadd nsub nmul nneg vec3.cross].
  assert (Kx : (Qabs (w0 * (ax - (m0 + M0) * 0.5) + w1 * (bx - (m0 + M0) * 0.5)
                      + w2 * (cx - (m0 + M0) * 0.5)) <= M0 - (m0 + M0) * 0.5)%Q).
  { apply Qabs_Qle_condition.
    setoid_replace (w0 * (ax - (m0 + M0) * 0.5) + w1 * (bx - (m0 + M0) * 0.5)
                    + w2 * (cx - (m0 + M0) * 0.5))%Q
      with (ax * w0 + bx * w1 + cx * w2 - (w0 + w1 + w2) * ((m0 + M0) * 0.5))%Q
      by ring.
    rewrite WS. lra. }
  assert (Ky : (Qabs (w0 * (ay - (m1 + M1) * 0.5) + w1 * (by_ - (m1 + M1) * 0.5)
                      + w2 * (cy - (m1 + M1) * 0.5)) <= M1 - (m1 + M1) * 0.5)%Q).
  { apply Qabs_Qle_condition.
    setoid_replace (w0 * (ay - (m1 + M1) * 0.5) + w1 * (by_ - (m1 + M1) * 0.5)
                    + w2 * (cy - (m1 + M1) * 0.5))%Q
      with (ay * w0 + by_ * w1 + cy * w2 - (w0 + w1 + w2) * ((m1 + M1) * 0.5))%Q
      by ring.
    rewrite WS. lra. }
  assert (Kz : (Qabs (w0 * (az - (m2 + M2) * 0.5) + w1 * (bz - (m2 + M2) * 0.5)
                      + w2 * (cz - (m2 + M2) * 0.5)) <= M2 - (m2 + M2) * 0.5)%Q).
  { apply Qabs_Qle_condition.
    setoid_replace (w0 * (az - (m2 + M2) * 0.5) + w1 * (bz - (m2 + M2) * 0.5)
                    + w2 * (cz - (m2 + M2) * 0.5))%Q
      with (az * w0 + bz * w1 + cz * w2 - (w0 + w1 + w2) * ((m2 + M2) * 0.5))%Q
      by ring.
    rewrite WS. lra. }
  pose proof (fun axes n H => satForAxes_loop_point_inside _ _ _ _ _ _ _ _ _ _ _ _
                w0 w1 w2 axes n 0 W0 W1 W2 WS Kx Ky Kz H) as L.
  unfold vec3_of in L. unfold box3._satForAxes.
  rewrite (L _ 9%nat), (L _ 3%nat), (L _ 1%nat).
  - reflexivity.
  - intros k Hk. do 3 (destruct k as [| k]; [reflexivity |]). exfalso; lia.
  - intros k Hk. do 9 (destruct k as [| k]; [reflexivity |]). exfalso; lia.
  - intros k Hk. do 27 (destruct k as [| k]; [reflexivity |]). exfalso; lia.
Qed.


Lemma nmin3_fin (x y z : Q) :
  exists lo, triangle3.nmin3 $x $y $z = $lo /\
    (lo <= x /\ lo <= y /\ lo <= z /\ (lo = x \/ lo = y \/ lo = z))%Q.
Proof.
  unfold triangle3.nmin3. rewrite !nmin_fin.
  destruct (Qle_bool x y) eqn:E1; destruct (Qle_bool _ z) eqn:E2; q_props;
    eexists; (split; [reflexivity |]); repeat split; auto; lra.
Qed.

Lemma nmax3_fin (x y z : Q) :
  exists hi, triangle3.nmax3 $x $y $z = $hi /\
    (x <= hi /\ y <= hi /\ z <= hi /\ (hi = x \/ hi = y \/ hi = z))%Q.
Proof.
  unfold triangle3.nmax3. rewrite !nmax_fin.
  destruct (Qle_bool x y) eqn:E1; destruct (Qle_bool _ z) eqn:E2; q_props;
    eexists; (split; [reflexivity |]); repeat split; auto; lra.
Qed.

(** The box-face pass of [_satForAxes] on one axis: the projections are the
    coordinates themselves. *)
Lemma face_axis_separated (p0 p1 p2 e : Q) :
  exists lo hi,
    projected_interval $p0 $p1 $p2 = ($lo, $hi) /\
    (((Qltb hi (- e) || Qltb e lo) = false) ->
     (lo <= e /\ - e <= hi /\ (lo = p0 \/ lo = p1 \/ lo = p2)
      /\ (hi = p0 \/ hi = p1 \/ hi = p2))%Q).
Proof.
  destruct (projected_interval_fin p0 p1 p2)
    as (lo & hi & E & _ & _ & _ & _ & _ & _ & Al & Ah).
  exists lo, hi. split; [exact E |].
  rewrite orb_false_iff. intros [S1 S2]. q_props. repeat split; assumption.
Qed.

Lemma intersectsTriangle3_bounds_disjoint_fin
    (m0 m1 m2 M0 M1 M2 ax ay az bx by_ bz cx cy cz : Q) (out : Box3) :
  box3.intersectsBox3
    (triangle3.bounds out (vec3_of ax ay az) (vec3_of bx by_ bz) (vec3_of cx cy cz))
    (box3_of m0 m1 m2 M0 M1 M2) = false ->
  box3.intersectsTriangle3 (box3_of m0 m1 m2 M0 M1 M2)
    (vec3_of ax ay az) (vec3_of bx by_ bz) (vec3_of cx cy cz) = false.
Proof.
  unfold box3.intersectsBox3, triangle3.bounds, box3_of, vec3_of, ngeb.
  cbn [b_0 b_1 b_2 b_3 b_4 b_5 v_0 v_1 v_2].
  destruct (nmin3_fin ax bx cx) as (lx & -> & Lx0 & Lx1 & Lx2 & _).
  destruct (nmin3_fin ay by_ cy) as (ly & -> & Ly0 & Ly1 & Ly2 & _).
  destruct (nmin3_fin az bz cz) as (lz & -> & Lz0 & Lz1 & Lz2 & _).
  destruct (nmax3_fin ax bx cx) as (hx & -> & Hx0 & Hx1 & Hx2 & _).
  destruct (nmax3_fin ay by_ cy) as (hy & -> & Hy0 & Hy1 & Hy2 & _).
  destruct (nmax3_fin az bz cz) as (hz & -> & Hz0 & Hz1 & Hz2 & _).
  cbn [nleb]. intro H.
  unfold box3.intersectsTriangle3.
  cbn [b_0 b_1 b_2 b_3 b_4 b_5 v_0 v_1 v_2 ngtb nltb nadd nsub nmul nneg].
  destruct (Qltb M0 m0 || Qltb M1 m1 || Qltb M2 m2) eqn:G; [reflexivity |].
  cbv zeta.
  cbn [b_0 b_1 b_2 b_3 b_4 b_5 v_0 v_1 v_2 ngtb nltb nadd nsub nmul nneg vec3.cross].
  destruct (box3._satForAxes _ _ _ _ _ 9); [| reflexivity].
  cbn [negb].
  match goal with
  | |- (if negb ?s then false else _) = false =>
      assert (F : s = false); [| rewrite F; reflexivity]
  end.
  unfold box3._satForAxes, box3._axesBoxFaces.
  rewrite !satForAxes_loop_step. cbv zeta.
  cbn [box3._satForAxes_loop nth Nat.mul Nat.add v_0 v_1 v_2 neqb nabs nmul nadd nneg].
  change (Qeq_bool 1 0) with false. change (Qeq_bool 0 0) with true.
  cbn [andb]. change (Qabs 1) with 1%Q. change (Qabs 0) with 0%Q.
  match goal with
  | |- context [projected_interval $?p0 $?p1 $?p2] =>
      destruct (face_axis_separated p0 p1 p2
        ((M0 - (m0 + M0) * 0.5) * 1 + (M1 - (m1 + M1) * 0.5) * 0
         + (M2 - (m2 + M2) * 0.5) * 0)) as (l0 & h0 & -> & S0)
  end.
  match goal with
  | |- context [projected_interval $?p0 $?p1 $?p2] =>
      destruct (face_axis_separated p0 p1 p2
        ((M0 - (m0 + M0) * 0.5) * 0 + (M1 - (m1 + M1) * 0.5) * 1
         + (M2 - (m2 + M2) * 0.5) * 0)) as (l1 & h1 & -> & S1)
  end.
  match goal with
  | |- context [projected_interval $?p0 $?p1 $?p2] =>
      destruct (face_axis_separated p0 p1 p2
        ((M0 - (m0 + M0) * 0.5) * 0 + (M1 - (m1 + M1) * 0.5) * 0
         + (M2 - (m2 + M2) * 0.5) * 1)) as (l2 & h2 & -> & S2)
  end.
  cbn [fst snd nltb ngtb].
  destruct (Qltb h0 _ || Qltb _ l0) eqn:E0; [reflexivity |].
  destruct (Qltb h1 _ || Qltb _ l1) eqn:E1; [reflexivity |].
  destruct (Qltb h2 _ || Qltb _ l2) eqn:E2; [reflexivity |].
  exfalso.
  destruct (S0 eq_refl) as (A0 & B0 & Al0 & Ah0).
  destruct (S1 eq_refl) as (A1 & B1 & Al1 & Ah1).
  destruct (S2 eq_refl) as (A2 & B2 & Al2 & Ah2).
  assert (C1 : Qle_bool lx M0 = true)
    by (q_props; destruct Al0 as [X | [X | X]]; rewrite X in A0; lra).
  assert (C2 : Qle_bool m0 hx = true)
    by (q_props; destruct Ah0 as [X | [X | X]]; rewrite X in B0; lra).
  assert (C3 : Qle_bool ly M1 = true)
    by (q_props; destruct Al1 as [X | [X | X]]; rewrite X in A1; lra).
  assert (C4 : Qle_bool m1 hy = true)
    by (q_props; destruct Ah1 as [X | [X | X]]; rewrite X in B1; lra).
  assert (C5 : Qle_bool lz M2 = true)
    by (q_props; destruct Al2 as [X | [X | X]]; rewrite X in A2; lra).
  assert (C6 : Qle_bool m2 hz = true)
    by (q_props; destruct Ah2 as [X | [X | X]]; rewrite X in B2; lra).
  rewrite C1, C2, C3, C4, C5, C6 in H. discriminate H.
Qed.


Lemma nmin_noNaN (a b : num) :
  isNaN a = false -> isNaN b = false -> isNaN (nmin a b) = false.
Proof.
  destruct a as [a| | |], b as [b| | |]; intros; try discriminate;
    cbn [nmin nleb]; try reflexivity.
  destruct (Qle_bool a b); reflexivity.
Qed.

Lemma nmax_noNaN (a b : num) :
  isNaN a = false -> isNaN b = false -> isNaN (nmax a b) = false.
Proof.
  destruct a as [a| | |], b as [b| | |]; intros; try discriminate;
    cbn [nmax nleb]; try reflexivity.
  destruct (Qle_bool a b); reflexivity.
Qed.

Lemma bounds_axis (lo hi x y z : num) :
  isNaN x = false -> isNaN y = false -> isNaN z = false ->
  (triangle3.nmin3 x y z >=? lo) && (triangle3.nmax3 x y z <=? hi)
  = ((x >=? lo) && (x <=? hi)) && ((y >=? lo) && (y <=? hi))
    && ((z >=? lo) && (z <=? hi)).
Proof.
  intros Hx Hy Hz. unfold triangle3.nmin3, triangle3.nmax3, ngeb.
  rewrite (nleb_nmin lo (nmin x y) z (nmin_noNaN _ _ Hx Hy) Hz).
  rewrite (nleb_nmin lo x y Hx Hy).
  rewrite (nmax_nleb hi (nmax x y) z (nmax_noNaN _ _ Hx Hy) Hz).
  rewrite (nmax_nleb hi x y Hx Hy).
  destruct (lo <=? x), (lo <=? y), (lo <=? z), (x <=? hi), (y <=? hi), (z <=? hi);
    reflexivity.
Qed.

(** X14: For NaN-free vertices, a box contains triangle3.bounds(a, b, c)
    exactly when it contains the three vertices a, b and c. *)
Theorem bounds_contained_iff_vertices_contained (out box : Box3) (a b c : Vec3) :
  vec3_noNaN a = true -> vec3_noNaN b = true -> vec3_noNaN c = true ->
  box3.containsBox3 box (triangle3.bounds out a b c)
  = box3.containsPoint box a && box3.containsPoint box b
    && box3.containsPoint box c.
Proof.
  intros Ha Hb Hc.
  destruct (vec3_noNaN_inv _ Ha) as (A0 & A1 & A2).
  destruct (vec3_noNaN_inv _ Hb) as (B0 & B1 & B2).
  destruct (vec3_noNaN_inv _ Hc) as (C0 & C1 & C2).
  unfold box3.containsBox3, box3.containsPoint, triangle3.bounds.
  cbn [b_0 b_1 b_2 b_3 b_4 b_5].
  rewrite <- !andb_assoc.
  rewrite (andb_assoc (triangle3.nmin3 (v_0 a) _ _ >=? _)).
  rewrite (andb_assoc (triangle3.nmin3 (v_1 a) _ _ >=? _)).
  rewrite (bounds_axis _ _ _ _ _ A0 B0 C0), (bounds_axis _ _ _ _ _ A1 B1 C1),
    (bounds_axis _ _ _ _ _ A2 B2 C2).
  destruct (v_0 a >=? b_0 box), (v_0 a <=? b_3 box),
    (v_1 a >=? b_1 box), (v_1 a <=? b_4 box),
    (v_2 a >=? b_2 box), (v_2 a <=? b_5 box); cbn [andb]; try reflexivity;
  destruct (v_0 b >=? b_0 box), (v_0 b <=? b_3 box),
    (v_1 b >=? b_1 box), (v_1 b <=? b_4 box),
    (v_2 b >=? b_2 box), (v_2 b <=? b_5 box); cbn [andb];
    rewrite ?andb_false_r; try reflexivity;
  destruct (v_0 c >=? b_0 box), (v_0 c <=? b_3 box),
    (v_1 c >=? b_1 box), (v_1 c <=? b_4 box),
    (v_2 c >=? b_2 box), (v_2 c <=? b_5 box); reflexivity.
Qed.

(** ** Spheres and planes *)

Lemma clamp_axis_fin (m M c : Q) :
  (if $c <? $m then $m else if $c >? $M then $M else $c) = $(clamp_axis m M c).
Proof.
  unfold clamp_axis, ngtb. cbn [nltb].
  destruct (Qltb c m); [reflexivity |]. destruct (Qltb M c); reflexivity.
Qed.

Lemma clamp_axis_in (m M c : Q) :
  (m <= M -> m <= clamp_axis m M c <= M)%Q.
Proof.
  unfold clamp_axis. intro V.
  destruct (Qltb c m) eqn:E1; [| destruct (Qltb M c) eqn:E2]; q_props; lra.
Qed.

Lemma clamp_axis_closest (m M c x : Q) :
  (m <= x <= M ->
   (clamp_axis m M c - c) * (clamp_axis m M c - c) <= (x - c) * (x - c))%Q.
Proof.
  unfold clamp_axis. intro V.
  destruct (Qltb c m) eqn:E1; [| destruct (Qltb M c) eqn:E2]; q_props.
  - assert (0 <= (x - m) * (x + m - 2 * c))%Q
      by (apply Qmult_le_0_compat; lra).
    lra.
  - assert (0 <= (M - x) * (2 * c - x - M))%Q
      by (apply Qmult_le_0_compat; lra).
    lra.
  - setoid_replace ((c - c) * (c - c))%Q with 0%Q by ring.
    destruct (Qlt_le_dec x c).
    + setoid_replace ((x - c) * (x - c))%Q with ((c - x) * (c - x))%Q by ring.
      apply Qmult_le_0_compat; lra.
    + apply Qmult_le_0_compat; lra.
Qed.


Lemma convex_in (m M lo hi t : Q) :
  (m <= lo <= M -> m <= hi <= M -> 0 <= t <= 1 ->
   m <= lo + t * (hi - lo) <= M)%Q.
Proof.
  intros A B C.
  assert (0 <= t * (hi - m))%Q by (apply Qmult_le_0_compat; lra).
  assert (0 <= (1 - t) * (lo - m))%Q by (apply Qmult_le_0_compat; lra).
  assert (0 <= t * (M - hi))%Q by (apply Qmult_le_0_compat; lra).
  assert (0 <= (1 - t) * (M - lo))%Q by (apply Qmult_le_0_compat; lra).
  lra.
Qed.

Lemma plane_point_exists
    (n0 n1 n2 k lo0 hi0 lo1 hi1 lo2 hi2 m0 m1 m2 M0 M1 M2 : Q) :
  (m0 <= lo0 <= M0 -> m0 <= hi0 <= M0 ->
   m1 <= lo1 <= M1 -> m1 <= hi1 <= M1 ->
   m2 <= lo2 <= M2 -> m2 <= hi2 <= M2 ->
   n0 * lo0 + n1 * lo1 + n2 * lo2 + k <= 0 ->
   0 <= n0 * hi0 + n1 * hi1 + n2 * hi2 + k ->
   exists x y z : Q,
     (m0 <= x <= M0 /\ m1 <= y <= M1 /\ m2 <= z <= M2) /\
     n0 * x + n1 * y + n2 * z + k == 0)%Q.
Proof.
  intros A0 B0 A1 B1 A2 B2 Hlo Hhi.
  set (lo := (n0 * lo0 + n1 * lo1 + n2 * lo2 + k)%Q) in *.
  set (hi := (n0 * hi0 + n1 * hi1 + n2 * hi2 + k)%Q) in *.
  destruct (Qeq_dec (hi - lo) 0) as [E | NE].
  - exists lo0, lo1, lo2. split; [tauto |]. fold lo. lra.
  - assert (P : (0 < hi - lo)%Q).
    { destruct (Qlt_le_dec 0 (hi - lo)); [assumption |].
      exfalso. apply NE. lra. }
    set (t := ((- lo) / (hi - lo))%Q).
    assert (T : (t * (hi - lo) == - lo)%Q) by (unfold t; field; exact NE).
    assert (T0 : (0 <= t)%Q) by (unfold t; apply Qle_shift_div_l; lra).
    assert (T1 : (t <= 1)%Q) by (unfold t; apply Qle_shift_div_r; lra).
    exists (lo0 + t * (hi0 - lo0))%Q, (lo1 + t * (hi1 - lo1))%Q,
      (lo2 + t * (hi2 - lo2))%Q.
    split.
    + split; [| split]; apply convex_in; auto.
    + setoid_replace
        (n0 * (lo0 + t * (hi0 - lo0)) + n1 * (lo1 + t * (hi1 - lo1))
         + n2 * (lo2 + t * (hi2 - lo2)) + k)%Q
        with (lo + t * (hi - lo))%Q by (unfold lo, hi; ring).
      rewrite T. ring.
Qed.

Lemma plane_axis_bounds (n m M x : Q) :
  (m <= x <= M ->
   (if Qltb 0 n then n * m else n * M) <= n * x
   /\ n * x <= (if Qltb 0 n then n * M else n * m))%Q.
Proof.
  intro V. destruct (Qltb 0 n) eqn:E; q_props.
  - assert (0 <= n * (x - m))%Q by (apply Qmult_le_0_compat; lra).
    assert (0 <= n * (M - x))%Q by (apply Qmult_le_0_compat; lra).
    lra.
  - assert (0 <= (- n) * (x - m))%Q by (apply Qmult_le_0_compat; lra).
    assert (0 <= (- n) * (M - x))%Q by (apply Qmult_le_0_compat; lra).
    lra.
Qed.


(** X17: For finite valid boxes, box3.intersectsBox3(a, b) is true exactly
    when some point is contained in both boxes. *)
Theorem intersectsBox3_iff_shared_point (a b : Box3) :
  box3_finite a = true -> box3_finite b = true ->
  box3_valid a = true -> box3_valid b = true ->
  box3.intersectsBox3 a b = true <->
  exists x y z : Q,
    box3.containsPoint a (vec3_of x y z) = true /\
    box3.containsPoint b (vec3_of x y z) = true.
Proof.
  intros Ha Hb.
  destruct (box3_finite_inv _ Ha) as (a0 & a1 & a2 & A0 & A1 & A2 & ->).
  destruct (box3_finite_inv _ Hb) as (c0 & c1 & c2 & C0 & C1 & C2 & ->).
  unfold box3_valid, box3.intersectsBox3, box3.containsPoint, box3_of, vec3_of, ngeb.
  cbn [b_0 b_1 b_2 b_3 b_4 b_5 v_0 v_1 v_2 nleb].
  rewrite !andb_true_iff, !Qle_bool_iff. intros [[Va0 Va1] Va2] [[Vb0 Vb1] Vb2].
  split.
  - intros [[[[[H0 H1] H2] H3] H4] H5].
    exists (if Qle_bool a0 c0 then c0 else a0),
      (if Qle_bool a1 c1 then c1 else a1), (if Qle_bool a2 c2 then c2 else a2).
    rewrite !andb_true_iff, !Qle_bool_iff.
    destruct (Qle_bool a0 c0) eqn:E0, (Qle_bool a1 c1) eqn:E1,
      (Qle_bool a2 c2) eqn:E2; q_props; repeat split; lra.
  - intros (x & y & z & P & R). revert P R.
    rewrite !andb_true_iff, !Qle_bool_iff. intros. repeat split; lra.
Qed.

(** ** Planes *)

Lemma Qsquare_nonneg (x : Q) : (0 <= x * x)%Q.
Proof.
  destruct (Qlt_le_dec x 0).
  - setoid_replace (x * x)%Q with ((- x) * (- x))%Q by ring.
    apply Qmult_le_0_compat; lra.
  - apply Qmult_le_0_compat; lra.
Qed.

Lemma lagrange_unit (nx ny nz wx wy wz : Q) :
  (nx * nx + ny * ny + nz * nz == 1 ->
   (nx * wx + ny * wy + nz * wz) * (nx * wx + ny * wy + nz * wz)
   <= wx * wx + wy * wy + wz * wz)%Q.
Proof.
  intro U.
  assert (S : (0 <= (wy * nz - wz * ny) * (wy * nz - wz * ny)
                 + (wz * nx - wx * nz) * (wz * nx - wx * nz)
                 + (wx * ny - wy * nx) * (wx * ny - wy * nx))%Q).
  { pose proof (Qsquare_nonneg (wy * nz - wz * ny)).
    pose proof (Qsquare_nonneg (wz * nx - wx * nz)).
    pose proof (Qsquare_nonneg (wx * ny - wy * nx)). lra. }
  assert (I : ((wx * wx + wy * wy + wz * wz) * (nx * nx + ny * ny + nz * nz)
               - (nx * wx + ny * wy + nz * wz) * (nx * wx + ny * wy + nz * wz)
               == (wy * nz - wz * ny) * (wy * nz - wz * ny)
                 + (wz * nx - wx * nz) * (wz * nx - wx * nz)
                 + (wx * ny - wy * nx) * (wx * ny - wy * nx))%Q) by ring.
  rewrite U in I. lra.
Qed.



(** ** Rays against boxes *)

Lemma intersectsBox3_loop_slab (o d mn mx : Vec3) (len : num) (tmin tmax : Q)
    (i n : nat) (oi di mni mxi : Q) :
  vget o i = $oi -> vget d i = $di -> vget mn i = $mni -> vget mx i = $mxi ->
  raycast3.intersectsBox3_loop (raycast3.mkRaycast3 o d len) (mn, mx)
    $tmin $tmax i (S n)
  = match slab oi di mni mxi tmin tmax with
    | None => false
    | Some (a, b) =>
        raycast3.intersectsBox3_loop (raycast3.mkRaycast3 o d len) (mn, mx)
          $a $b (S i) n
    end.
Proof.
  intros Ho Hd Hmn Hmx.
  cbn [raycast3.intersectsBox3_loop raycast3.direction raycast3.origin fst snd].
  rewrite Ho, Hd, Hmn, Hmx. unfold slab, ngtb.
  cbn [nabs nltb].
  destruct (Qltb (Qabs di) (1 # 10000000000)) eqn:E.
  - destruct (Qltb oi mni || Qltb mxi oi); reflexivity.
  - assert (NZ : ~ (di == 0)%Q).
    { intro Z. q_props. rewrite Z in E. cbn in E. lra. }
    unfold ndiv. rewrite (proj2 (Qeq_bool_neq_iff di 0) NZ).
    cbn [nsub nmul nltb]. cbv zeta.
    destruct (Qltb (1 / di) 0); rewrite nmax_fin, nmin_fin; cbn [nltb];
      destruct (Qltb (if Qle_bool tmax _ then _ else _) _); reflexivity.
Qed.

Lemma slab_spec (o d mn mx tmin tmax : Q) :
  (tmin <= tmax)%Q ->
  match slab o d mn mx tmin tmax with
  | None =>
      forall t : Q, (tmin <= t <= tmax)%Q ->
        ~ (mn <= o + t * slab_direction d <= mx)%Q
  | Some (a, b) =>
      (a <= b)%Q /\
      forall t : Q, (a <= t <= b)%Q <->
        (tmin <= t <= tmax)%Q /\ (mn <= o + t * slab_direction d <= mx)%Q
  end.
Proof.
  intro V. unfold slab, slab_direction.
  destruct (Qltb (Qabs d) (1 # 10000000000)) eqn:E.
  - destruct (Qltb o mn) eqn:E1; [| destruct (Qltb mx o) eqn:E2]; cbn [orb];
      q_props.
    + intros t _. lra.
    + intros t _. lra.
    + split; [exact V |]. intro t. lra.
  - assert (NZ : ~ (d == 0)%Q).
    { intro Z. q_props. rewrite Z in E. cbn in E. lra. }
    cbv zeta.
    assert (K0 : ((mn - o) * (1 / d) * d == mn - o)%Q) by (field; exact NZ).
    assert (K1 : ((mx - o) * (1 / d) * d == mx - o)%Q) by (field; exact NZ).
    set (t0 := ((mn - o) * (1 / d))%Q) in *.
    set (t1 := ((mx - o) * (1 / d))%Q) in *.
    assert (S : (Qltb (1 / d) 0 = true -> d < 0)%Q
                /\ (Qltb (1 / d) 0 = false -> 0 < d)%Q).
    { split; intro H; q_props.
      - destruct (Qlt_le_dec d 0); [assumption |]. exfalso.
        assert (0 < d)%Q by (destruct (Qle_lt_or_eq 0 d); [assumption .. | exfalso; apply NZ; symmetry; assumption]).
        assert (0 < 1 / d)%Q by (apply Qlt_shift_div_l; lra). lra.
      - destruct (Qlt_le_dec 0 d); [assumption |]. exfalso.
        assert (d < 0)%Q by (destruct (Qle_lt_or_eq d 0); [assumption .. | exfalso; apply NZ; assumption]).
        assert (0 < 1 / - d)%Q by (apply Qlt_shift_div_l; lra).
        assert ((1 / - d) == - (1 / d))%Q by (field; exact NZ). lra. }
    destruct S as [Sneg Spos].
    assert (R : forall t : Q,
      ((if Qltb (1 / d) 0 then t1 else t0) <= t
       /\ t <= (if Qltb (1 / d) 0 then t0 else t1)
       <-> mn <= o + t * d <= mx)%Q).
    { intro t. destruct (Qltb (1 / d) 0) eqn:E3.
      - pose proof (Sneg eq_refl) as Dn.
        assert (X0 : (t <= t0 <-> t0 * d <= t * d)%Q).
        { split; intro H.
          - assert (0 <= (t0 - t) * (- d))%Q by (apply Qmult_le_0_compat; lra). lra.
          - destruct (Qlt_le_dec t0 t); [| assumption]. exfalso.
            assert (0 < (t - t0) * (- d))%Q by (apply Qmult_lt_0_compat; lra). lra. }
        assert (X1 : (t1 <= t <-> t * d <= t1 * d)%Q).
        { split; intro H.
          - assert (0 <= (t - t1) * (- d))%Q by (apply Qmult_le_0_compat; lra). lra.
          - destruct (Qlt_le_dec t t1); [| assumption]. exfalso.
            assert (0 < (t1 - t) * (- d))%Q by (apply Qmult_lt_0_compat; lra). lra. }
        rewrite X0, X1. lra.
      - pose proof (Spos eq_refl) as Dp.
        assert (X0 : (t0 <= t <-> t0 * d <= t * d)%Q).
        { split; intro H.
          - assert (0 <= (t - t0) * d)%Q by (apply Qmult_le_0_compat; lra). lra.
          - destruct (Qlt_le_dec t t0); [| assumption]. exfalso.
            assert (0 < (t0 - t) * d)%Q by (apply Qmult_lt_0_compat; lra). lra. }
        assert (X1 : (t <= t1 <-> t * d <= t1 * d)%Q).
        { split; intro H.
          - assert (0 <= (t1 - t) * d)%Q by (apply Qmult_le_0_compat; lra). lra.
          - destruct (Qlt_le_dec t1 t); [| assumption]. exfalso.
            assert (0 < (t - t1) * d)%Q by (apply Qmult_lt_0_compat; lra). lra. }
        rewrite X0, X1. lra. }
    set (lo := if Qltb (1 / d) 0 then t1 else t0) in *.
    set (hi := if Qltb (1 / d) 0 then t0 else t1) in *.
    destruct (Qle_bool tmin lo) eqn:F1; destruct (Qle_bool tmax hi) eqn:F2;
      cbv iota;
      match goal with
      | |- context [if Qltb ?a ?b then None else _] => destruct (Qltb a b) eqn:F3
      end; q_props.
    all: try (split; [assumption |]; intro t; rewrite <- (R t); lra).
    all: intros t Ht C; apply (R t) in C; lra.
Qed.


(** ** Rays against triangles *)

Lemma ndiv_fin (x y : Q) : ~ (y == 0)%Q -> $x / $y = $(x / y).
Proof.
  intro NZ. unfold ndiv. rewrite (proj2 (Qeq_bool_neq_iff y 0) NZ). reflexivity.
Qed.

Section RayTriangle.

Variables ox oy oz dx dy dz ax ay az bx by_ bz cx cy cz : Q.

Local Notation "'e1x'" := (bx - ax)%Q.
Local Notation "'e1y'" := (by_ - ay)%Q.
Local Notation "'e1z'" := (bz - az)%Q.
Local Notation "'e2x'" := (cx - ax)%Q.
Local Notation "'e2y'" := (cy - ay)%Q.
Local Notation "'e2z'" := (cz - az)%Q.
Local Notation "'fx'" := (ox - ax)%Q.
Local Notation "'fy'" := (oy - ay)%Q.
Local Notation "'fz'" := (oz - az)%Q.
Local Notation "'Nx'" := (e1y * e2z - e1z * e2y)%Q.
Local Notation "'Ny'" := (e1z * e2x - e1x * e2z)%Q.
Local Notation "'Nz'" := (e1x * e2y - e1y * e2x)%Q.
Local Notation "'DN'" := (dx * Nx + dy * Ny + dz * Nz)%Q.
Local Notation "'DQE'" :=
  (dx * (fy * e2z - fz * e2y) + dy * (fz * e2x - fx * e2z)
   + dz * (fx * e2y - fy * e2x))%Q.
Local Notation "'DEQ'" :=
  (dx * (e1y * fz - e1z * fy) + dy * (e1z * fx - e1x * fz)
   + dz * (e1x * fy - e1y * fx))%Q.
Local Notation "'FN'" := (fx * Nx + fy * Ny + fz * Nz)%Q.

(** With the sign [s] of [DN] factored in, a hit gives the parameters of
    the crossing point. *)
Lemma crossing_point (s len den U V W : Q) :
  (s == 1 \/ s == -1)%Q ->
  (den == s * DN -> U == s * DQE -> V == s * DEQ -> W == - s * FN ->
   0 < den -> 0 < len ->
   0 <= U -> 0 <= V -> U + V <= den ->
   0 <= W -> W / den <= len ->
   let f := (W / den / len) in
   let u := (U / den) in
   let v := (V / den) in
   0 <= f <= 1 /\ 0 <= u /\ 0 <= v /\ u + v <= 1 /\
   ox + f * len * dx == ax + u * e1x + v * e2x /\
   oy + f * len * dy == ay + u * e1y + v * e2y /\
   oz + f * len * dz == az + u * e1z + v * e2z)%Q.
Proof.
  intros Hs Hden HU HV HW A L U0' V0' UV W0 T f u v.
  assert (NZ : ~ (den == 0)%Q) by lra.
  assert (NL : ~ (len == 0)%Q) by lra.
  assert (T0 : (0 <= W / den)%Q)
    by (apply Qle_shift_div_l; [exact A | lra]).
  assert (F0 : (0 <= f)%Q).
  { unfold f. apply Qle_shift_div_l; [exact L |].
    setoid_replace (0 * len)%Q with 0%Q by ring. exact T0. }
  assert (F1 : (f <= 1)%Q).
  { unfold f. apply Qle_shift_div_r; [exact L |].
    setoid_replace (1 * len)%Q with len by ring. exact T. }
  assert (U0 : (0 <= u)%Q) by (unfold u; apply Qle_shift_div_l; [exact A | lra]).
  assert (V0 : (0 <= v)%Q) by (unfold v; apply Qle_shift_div_l; [exact A | lra]).
  assert (UV1 : (u + v <= 1)%Q).
  { setoid_replace (u + v)%Q with ((U + V) / den)%Q
      by (unfold u, v; field; exact NZ).
    apply Qle_shift_div_r; [exact A | lra]. }
  assert (Ef : (f * len == W / den)%Q) by (unfold f; field; split; assumption).
  assert (Et : (W / den * den == - s * FN)%Q)
    by (rewrite <- HW; field; exact NZ).
  assert (Eu : (u * den == s * DQE)%Q)
    by (rewrite <- HU; unfold u; field; exact NZ).
  assert (Ev : (v * den == s * DEQ)%Q)
    by (rewrite <- HV; unfold v; field; exact NZ).
  set (t := (W / den)%Q) in *.
  assert (Ix : (DN * fx - FN * dx - DQE * e1x - DEQ * e2x == 0)%Q) by ring.
  assert (Iy : (DN * fy - FN * dy - DQE * e1y - DEQ * e2y == 0)%Q) by ring.
  assert (Iz : (DN * fz - FN * dz - DQE * e1z - DEQ * e2z == 0)%Q) by ring.
  repeat split; try assumption.
  - apply (Qmult_inj_l _ _ den NZ).
    setoid_replace (den * (ox + f * len * dx))%Q
      with (den * ox + t * den * dx)%Q by (rewrite Ef; ring).
    setoid_replace (den * (ax + u * e1x + v * e2x))%Q
      with (den * ax + u * den * e1x + v * den * e2x)%Q by ring.
    rewrite Et, Eu, Ev, Hden.
    setoid_replace (s * DN * ox + - s * FN * dx)%Q
      with (s * (DN * fx - FN * dx - DQE * e1x - DEQ * e2x)
            + (s * DN * ax + s * DQE * e1x + s * DEQ * e2x))%Q by ring.
    rewrite Ix. ring.
  - apply (Qmult_inj_l _ _ den NZ).
    setoid_replace (den * (oy + f * len * dy))%Q
      with (den * oy + t * den * dy)%Q by (rewrite Ef; ring).
    setoid_replace (den * (ay + u * e1y + v * e2y))%Q
      with (den * ay + u * den * e1y + v * den * e2y)%Q by ring.
    rewrite Et, Eu, Ev, Hden.
    setoid_replace (s * DN * oy + - s * FN * dy)%Q
      with (s * (DN * fy - FN * dy - DQE * e1y - DEQ * e2y)
            + (s * DN * ay + s * DQE * e1y + s * DEQ * e2y))%Q by ring.
    rewrite Iy. ring.
  - apply (Qmult_inj_l _ _ den NZ).
    setoid_replace (den * (oz + f * len * dz))%Q
      with (den * oz + t * den * dz)%Q by (rewrite Ef; ring).
    setoid_replace (den * (az + u * e1z + v * e2z))%Q
      with (den * az + u * den * e1z + v * den * e2z)%Q by ring.
    rewrite Et, Eu, Ev, Hden.
    setoid_replace (s * DN * oz + - s * FN * dz)%Q
      with (s * (DN * fz - FN * dz - DQE * e1z - DEQ * e2z)
            + (s * DN * az + s * DQE * e1z + s * DEQ * e2z))%Q by ring.
    rewrite Iz. ring.
Qed.

(** Conversely, the parameters of a crossing point pass every test. *)
Lemma crossing_found (s len den U V W t u v : Q) :
  (den == s * DN -> U == s * DQE -> V == s * DEQ -> W == - s * FN ->
   0 < den ->
   ox + t * dx == ax + u * e1x + v * e2x ->
   oy + t * dy == ay + u * e1y + v * e2y ->
   oz + t * dz == az + u * e1z + v * e2z ->
   0 <= t <= len -> 0 <= u -> 0 <= v -> u + v <= 1 ->
   0 <= U /\ 0 <= V /\ U + V <= den /\ 0 <= W /\ W / den <= len
   /\ W / den == t)%Q.
Proof.
  intros Hden HU HV HW A Ex Ey Ez T U0 V0 UV.
  assert (Fx : (fx == u * e1x + v * e2x - t * dx)%Q) by lra.
  assert (Fy : (fy == u * e1y + v * e2y - t * dy)%Q) by lra.
  assert (Fz : (fz == u * e1z + v * e2z - t * dz)%Q) by lra.
  assert (EU : (U == u * den)%Q).
  { rewrite HU, Hden, Fx, Fy, Fz. ring. }
  assert (EV : (V == v * den)%Q).
  { rewrite HV, Hden, Fx, Fy, Fz. ring. }
  assert (EW : (W == t * den)%Q).
  { rewrite HW, Hden, Fx, Fy, Fz. ring. }
  assert (NZ : ~ (den == 0)%Q) by lra.
  assert (Et : (W / den == t)%Q) by (rewrite EW; field; exact NZ).
  assert (0 <= u * den)%Q by (apply Qmult_le_0_compat; lra).
  assert (0 <= v * den)%Q by (apply Qmult_le_0_compat; lra).
  assert (0 <= t * den)%Q by (apply Qmult_le_0_compat; lra).
  assert (0 <= (1 - u - v) * den)%Q by (apply Qmult_le_0_compat; lra).
  repeat split; lra.
Qed.


End RayTriangle.

Ltac reject_step E :=
  match goal with
  | |- context [if Qltb ?a ?b then raycast3.reject _ else _] =>
      let X := fresh "X" in
      destruct (Qltb a b) eqn:E; [cbn; intro X; discriminate X |]
  end.


Lemma nltb_asym (x y : num) : (x <? y) = true -> (y <? x) = false.
Proof.
  destruct x as [x| | |], y as [y| | |]; cbn [nltb]; intro H;
    try discriminate; try reflexivity.
  q_props. lra.
Qed.

(** X23: Whenever raycast3.intersectsTriangle reports a hit, frontFacing is
    true exactly when dot(direction, cross(b-a, c-a)) < 0, and with
    backfaceCulling on every hit is front-facing (all inputs, NaN included).
    The helpers vec3.subtract, vec3.cross and vec3.dot, whose files are not
    part of the sources, are modelled with their usual meaning. *)
Theorem intersectsTriangle_hit_facing
    (out : raycast3.IntersectsTriangleResult) (ray : raycast3.Raycast3)
    (a b c : Vec3) (backfaceCulling : bool) :
  let r := raycast3.intersectsTriangle out ray a b c backfaceCulling in
  raycast3.hit r = true ->
  raycast3.frontFacing r = (triangle_DdN ray a b c <? $0) /\
  (backfaceCulling = true -> raycast3.frontFacing r = true).
Proof.
  intro r. unfold r, raycast3.intersectsTriangle, triangle_DdN. cbv zeta.
  set (DdN := vec3.dot _ _).
  destruct (DdN >? $0) eqn:E1; [destruct backfaceCulling |
    destruct (DdN <? $0) eqn:E2]; try (cbn; intro X; discriminate X).
  - unfold ngtb in E1. rewrite (nltb_asym _ _ E1).
    repeat match goal with
    | |- context [if ?c then raycast3.reject _ else _] => destruct c
    | |- context [if ?c then _ else raycast3.reject _] => destruct c
    end; cbn; intro H; try discriminate H.
    split; [reflexivity | discriminate].
  - repeat match goal with
    | |- context [if ?c then raycast3.reject _ else _] => destruct c
    | |- context [if ?c then _ else raycast3.reject _] => destruct c
    end; cbn; intro H; try discriminate H.
    split; [reflexivity | reflexivity].
Qed.

(** ** Oriented boxes and points *)

Lemma abs_le_interval (e h m M v : Q) :
  (e == v - (m + M) * 0.5)%Q -> (h == (M - m) * 0.5)%Q ->
  Qle_bool (Qabs e) h = Qle_bool m v && Qle_bool v M.
Proof.
  intros He Hh.
  destruct (Qle_bool m v) eqn:E1; destruct (Qle_bool v M) eqn:E2;
    cbn [andb]; q_props;
    try (apply Qabs_Qle_condition; lra);
    (destruct (Qlt_le_dec h (Qabs e)) as [G | G];
       [exact G | exfalso; apply Qabs_Qle_condition in G; lra]).
Qed.

Lemma setFromBox3_containsPoint_fin
    (out : obb3.OBB3) (m0 m1 m2 M0 M1 M2 x y z : Q) :
  obb3.containsPoint
    (obb3.setFromBox3 out (vec3_of m0 m1 m2, vec3_of M0 M1 M2)) (vec3_of x y z)
  = box3.containsPoint (box3_of m0 m1 m2 M0 M1 M2) (vec3_of x y z).
Proof.
  unfold obb3.containsPoint, obb3.setFromBox3, box3.containsPoint, mat3.identity,
    box3_of, vec3_of, ngeb.
  cbn [obb3.center obb3.halfExtents obb3.rotation fst snd
       r_0 r_1 r_2 r_3 r_4 r_5 r_6 r_7 r_8 v_0 v_1 v_2
       b_0 b_1 b_2 b_3 b_4 b_5 nadd nsub nmul nabs nleb].
  rewrite (abs_le_interval _ _ m0 M0 x) by ring.
  rewrite (abs_le_interval _ _ m1 M1 y) by ring.
  rewrite (abs_le_interval _ _ m2 M2 z) by ring.
  rewrite !andb_assoc. reflexivity.
Qed.


(** Clamping to [[-h, h]], on finite values. *)
Lemma clamp_fin (h d : Q) :
  (0 <= h)%Q ->
  exists m : Q, nmax (- $h) (nmin $h $d) = $m /\
    (- h <= m <= h)%Q /\
    forall k : Q, (- h <= k <= h ->
      (d - m) * (d - m) <= (d - k) * (d - k))%Q.
Proof.
  intro H. cbn [nmax nmin nneg nleb].
  destruct (Qle_bool h d) eqn:E1; cbn [nleb];
    destruct (Qle_bool (- h) _) eqn:E2; q_props;
    eexists; (split; [reflexivity |]); (split; [lra |]); intros k K.
  - assert (0 <= (h - k) * (2 * d - h - k))%Q
      by (apply Qmult_le_0_compat; lra). lra.
  - assert (0 <= (h - k) * (2 * d - h - k))%Q
      by (apply Qmult_le_0_compat; lra). lra.
  - setoid_replace ((d - d) * (d - d))%Q with 0%Q by ring.
    apply Qsquare_nonneg.
  - assert (0 <= (k + h) * (k - h - 2 * d))%Q
      by (apply Qmult_le_0_compat; lra). lra.
Qed.

Section Orthonormal.

Variables r0 r1 r2 r3 r4 r5 r6 r7 r8 : Q.
Hypothesis U00 : (r0*r0 + r1*r1 + r2*r2 == 1)%Q.
Hypothesis U11 : (r3*r3 + r4*r4 + r5*r5 == 1)%Q.
Hypothesis U22 : (r6*r6 + r7*r7 + r8*r8 == 1)%Q.
Hypothesis U01 : (r0*r3 + r1*r4 + r2*r5 == 0)%Q.
Hypothesis U02 : (r0*r6 + r1*r7 + r2*r8 == 0)%Q.
Hypothesis U12 : (r3*r6 + r4*r7 + r5*r8 == 0)%Q.

(** The squared length of a vector is the sum of the squares of its
    coordinates along the three axes. *)
Lemma parseval (wx wy wz : Q) :
  (wx * wx + wy * wy + wz * wz
   == (wx * r0 + wy * r1 + wz * r2) * (wx * r0 + wy * r1 + wz * r2)
      + (wx * r3 + wy * r4 + wz * r5) * (wx * r3 + wy * r4 + wz * r5)
      + (wx * r6 + wy * r7 + wz * r8) * (wx * r6 + wy * r7 + wz * r8))%Q.
Proof. nsatz. Qed.

(** The coordinates of [m0 A0 + m1 A1 + m2 A2] along the axes. *)
Lemma local_of_combination (m0 m1 m2 : Q) :
  ((r0 * m0 + r3 * m1 + r6 * m2) * r0 + (r1 * m0 + r4 * m1 + r7 * m2) * r1
   + (r2 * m0 + r5 * m1 + r8 * m2) * r2 == m0 /\
   (r0 * m0 + r3 * m1 + r6 * m2) * r3 + (r1 * m0 + r4 * m1 + r7 * m2) * r4
   + (r2 * m0 + r5 * m1 + r8 * m2) * r5 == m1 /\
   (r0 * m0 + r3 * m1 + r6 * m2) * r6 + (r1 * m0 + r4 * m1 + r7 * m2) * r7
   + (r2 * m0 + r5 * m1 + r8 * m2) * r8 == m2)%Q.
Proof. repeat split; nsatz. Qed.

End Orthonormal.

Lemma clampPoint_closest_fin
    (c0 c1 c2 h0 h1 h2 r0 r1 r2 r3 r4 r5 r6 r7 r8 p0 p1 p2 q0 q1 q2 : Q) :
  let obb := obb3.mkOBB3 (vec3_of c0 c1 c2) (vec3_of h0 h1 h2)
                         (mat3_of r0 r1 r2 r3 r4 r5 r6 r7 r8) in
  let p := vec3_of p0 p1 p2 in
  let q := vec3_of q0 q1 q2 in
  mat3_orthonormal (obb3.rotation obb) = true ->
  (0 <= h0 /\ 0 <= h1 /\ 0 <= h2)%Q ->
  obb3.containsPoint obb (obb3.clampPoint obb p) = true /\
  (obb3.containsPoint obb q = true ->
   (vec3.dot (vec3.subtract (obb3.clampPoint obb p) p)
             (vec3.subtract (obb3.clampPoint obb p) p)
    <=? vec3.dot (vec3.subtract q p) (vec3.subtract q p)) = true).
Proof.
  cbv zeta. cbn [obb3.rotation].
  intros HO (H0 & H1 & H2). apply mat3_orthonormal_inv in HO.
  destruct HO as (U00 & U11 & U22 & U01 & U02 & U12).
  unfold obb3.containsPoint, obb3.clampPoint, obb3.add_scaled, vec3.dot,
    vec3.subtract, vec3_of, mat3_of.
  cbn [obb3.center obb3.halfExtents obb3.rotation
       r_0 r_1 r_2 r_3 r_4 r_5 r_6 r_7 r_8 v_0 v_1 v_2]. cbv zeta.
  cbn [obb3.center obb3.halfExtents obb3.rotation
       r_0 r_1 r_2 r_3 r_4 r_5 r_6 r_7 r_8 v_0 v_1 v_2 nadd nsub nmul].
  set (l0 := ((p0 - c0) * r0 + (p1 - c1) * r1 + (p2 - c2) * r2)%Q).
  set (l1 := ((p0 - c0) * r3 + (p1 - c1) * r4 + (p2 - c2) * r5)%Q).
  set (l2 := ((p0 - c0) * r6 + (p1 - c1) * r7 + (p2 - c2) * r8)%Q).
  destruct (clamp_fin h0 l0 H0) as (m0 & -> & B0 & K0).
  destruct (clamp_fin h1 l1 H1) as (m1 & -> & B1 & K1).
  destruct (clamp_fin h2 l2 H2) as (m2 & -> & B2 & K2).
  cbn [nadd nsub nmul nabs nleb].
  pose proof (local_of_combination r0 r1 r2 r3 r4 r5 r6 r7 r8
                U00 U11 U22 U01 U02 U12 m0 m1 m2) as (L0 & L1 & L2).
  split.
  - rewrite !andb_true_iff, !Qle_bool_iff.
    repeat split; apply Qabs_Qle_condition.
    + setoid_replace ((c0 + r0 * m0 + r3 * m1 + r6 * m2 - c0) * r0
                      + (c1 + r1 * m0 + r4 * m1 + r7 * m2 - c1) * r1
                      + (c2 + r2 * m0 + r5 * m1 + r8 * m2 - c2) * r2)%Q
        with m0 by (rewrite <- L0 at 4; ring). lra.
    + setoid_replace ((c0 + r0 * m0 + r3 * m1 + r6 * m2 - c0) * r3
                      + (c1 + r1 * m0 + r4 * m1 + r7 * m2 - c1) * r4
                      + (c2 + r2 * m0 + r5 * m1 + r8 * m2 - c2) * r5)%Q
        with m1 by (rewrite <- L1 at 4; ring). lra.
    + setoid_replace ((c0 + r0 * m0 + r3 * m1 + r6 * m2 - c0) * r6
                      + (c1 + r1 * m0 + r4 * m1 + r7 * m2 - c1) * r7
                      + (c2 + r2 * m0 + r5 * m1 + r8 * m2 - c2) * r8)%Q
        with m2 by (rewrite <- L2 at 4; ring). lra.
  - rewrite !andb_true_iff, !Qle_bool_iff. intros [[C0 C1] C2].
    apply Qabs_Qle_condition in C0, C1, C2.
    set (k0 := ((q0 - c0) * r0 + (q1 - c1) * r1 + (q2 - c2) * r2)%Q) in *.
    set (k1 := ((q0 - c0) * r3 + (q1 - c1) * r4 + (q2 - c2) * r5)%Q) in *.
    set (k2 := ((q0 - c0) * r6 + (q1 - c1) * r7 + (q2 - c2) * r8)%Q) in *.
    pose proof (K0 k0 C0) as G0. pose proof (K1 k1 C1) as G1.
    pose proof (K2 k2 C2) as G2.
    rewrite (parseval r0 r1 r2 r3 r4 r5 r6 r7 r8 U00 U11 U22 U01 U02 U12
               (c0 + r0 * m0 + r3 * m1 + r6 * m2 - p0)
               (c1 + r1 * m0 + r4 * m1 + r7 * m2 - p1)
               (c2 + r2 * m0 + r5 * m1 + r8 * m2 - p2)).
    rewrite (parseval r0 r1 r2 r3 r4 r5 r6 r7 r8 U00 U11 U22 U01 U02 U12
               (q0 - p0) (q1 - p1) (q2 - p2)).
    assert (E0 : ((c0 + r0 * m0 + r3 * m1 + r6 * m2 - p0) * r0
                  + (c1 + r1 * m0 + r4 * m1 + r7 * m2 - p1) * r1
                  + (c2 + r2 * m0 + r5 * m1 + r8 * m2 - p2) * r2
                  == m0 - l0)%Q) by (rewrite <- L0 at 4; unfold l0; ring).
    assert (E1 : ((c0 + r0 * m0 + r3 * m1 + r6 * m2 - p0) * r3
                  + (c1 + r1 * m0 + r4 * m1 + r7 * m2 - p1) * r4
                  + (c2 + r2 * m0 + r5 * m1 + r8 * m2 - p2) * r5
                  == m1 - l1)%Q) by (rewrite <- L1 at 4; unfold l1; ring).
    assert (E2 : ((c0 + r0 * m0 + r3 * m1 + r6 * m2 - p0) * r6
                  + (c1 + r1 * m0 + r4 * m1 + r7 * m2 - p1) * r7
                  + (c2 + r2 * m0 + r5 * m1 + r8 * m2 - p2) * r8
                  == m2 - l2)%Q) by (rewrite <- L2 at 4; unfold l2; ring).
    rewrite E0, E1, E2.
    setoid_replace ((q0 - p0) * r0 + (q1 - p1) * r1 + (q2 - p2) * r2)%Q
      with (k0 - l0)%Q by (unfold k0, l0; ring).
    setoid_replace ((q0 - p0) * r3 + (q1 - p1) * r4 + (q2 - p2) * r5)%Q
      with (k1 - l1)%Q by (unfold k1, l1; ring).
    setoid_replace ((q0 - p0) * r6 + (q1 - p1) * r7 + (q2 - p2) * r8)%Q
      with (k2 - l2)%Q by (unfold k2, l2; ring).
    lra.
Qed.


(** ** Oriented boxes against each other: the separating-axis test never
    separates boxes that share a point *)

Lemma Qabs_mult_le (x a h A : Q) :
  (Qabs x <= h -> Qabs a <= A -> Qabs (x * a) <= h * A)%Q.
Proof.
  intros Hx Ha. rewrite Qabs_Qmult.
  pose proof (Qabs_nonneg x). pose proof (Qabs_nonneg a).
  assert (0 <= (h - Qabs x) * A)%Q by (apply Qmult_le_0_compat; lra).
  assert (0 <= Qabs x * (A - Qabs a))%Q by (apply Qmult_le_0_compat; lra).
  lra.
Qed.

Lemma abs4 (E x1 a1 x2 a2 y1 c1 y2 c2 h1 A1 h2 A2 g1 C1 g2 C2 : Q) :
  (E == x1 * a1 + x2 * a2 + y1 * c1 + y2 * c2 ->
   Qabs x1 <= h1 -> Qabs a1 <= A1 -> Qabs x2 <= h2 -> Qabs a2 <= A2 ->
   Qabs y1 <= g1 -> Qabs c1 <= C1 -> Qabs y2 <= g2 -> Qabs c2 <= C2 ->
   Qabs E <= h1 * A1 + h2 * A2 + g1 * C1 + g2 * C2)%Q.
Proof.
  intros HE X1 K1 X2 K2 Y1 L1 Y2 L2. rewrite HE.
  pose proof (Qabs_triangle (x1 * a1 + x2 * a2 + y1 * c1) (y2 * c2)).
  pose proof (Qabs_triangle (x1 * a1 + x2 * a2) (y1 * c1)).
  pose proof (Qabs_triangle (x1 * a1) (x2 * a2)).
  pose proof (Qabs_mult_le x1 a1 h1 A1 X1 K1).
  pose proof (Qabs_mult_le x2 a2 h2 A2 X2 K2).
  pose proof (Qabs_mult_le y1 c1 g1 C1 Y1 L1).
  pose proof (Qabs_mult_le y2 c2 g2 C2 Y2 L2).
  lra.
Qed.

Lemma Qabs_le_slack (c r e : Q) :
  (0 <= e -> c * c == r * r -> Qabs c <= Qabs r + e)%Q.
Proof.
  intros He H. rewrite (Qabs_eq_of_squares c r H). lra.
Qed.

Lemma Qabs_one_le : (Qabs 1 <= 1)%Q.
Proof. apply Qabs_Qle_condition. lra. Qed.

(** Each 2x2 minor of an orthonormal matrix is, up to sign, the entry it
    leaves out. *)
Lemma cofactors (R00 R01 R02 R10 R11 R12 R20 R21 R22 : Q) :
  (R00 * R00 + R01 * R01 + R02 * R02 == 1 ->
   R10 * R10 + R11 * R11 + R12 * R12 == 1 ->
   R20 * R20 + R21 * R21 + R22 * R22 == 1 ->
   R00 * R10 + R01 * R11 + R02 * R12 == 0 ->
   R00 * R20 + R01 * R21 + R02 * R22 == 0 ->
   R10 * R20 + R11 * R21 + R12 * R22 == 0 ->
   (R11 * R22 - R12 * R21) * (R11 * R22 - R12 * R21) == R00 * R00 /\
   (R10 * R22 - R12 * R20) * (R10 * R22 - R12 * R20) == R01 * R01 /\
   (R10 * R21 - R11 * R20) * (R10 * R21 - R11 * R20) == R02 * R02 /\
   (R01 * R22 - R02 * R21) * (R01 * R22 - R02 * R21) == R10 * R10 /\
   (R00 * R22 - R02 * R20) * (R00 * R22 - R02 * R20) == R11 * R11 /\
   (R00 * R21 - R01 * R20) * (R00 * R21 - R01 * R20) == R12 * R12 /\
   (R01 * R12 - R02 * R11) * (R01 * R12 - R02 * R11) == R20 * R20 /\
   (R00 * R12 - R02 * R10) * (R00 * R12 - R02 * R10) == R21 * R21 /\
   (R00 * R11 - R01 * R10) * (R00 * R11 - R01 * R10) == R22 * R22)%Q.
Proof.
  intros U00 U11 U22 U01 U02 U12. repeat split; nsatz.
Qed.

Section SeparatingAxes.

Variables T0 T1 T2 R00 R01 R02 R10 R11 R12 R20 R21 R22 : Q.
Variables x0 x1 x2 y0 y1 y2 ha0 ha1 ha2 hb0 hb1 hb2 e : Q.
Hypothesis He : (0 <= e)%Q.
Hypothesis X0 : (Qabs x0 <= ha0)%Q.
Hypothesis X1 : (Qabs x1 <= ha1)%Q.
Hypothesis X2 : (Qabs x2 <= ha2)%Q.
Hypothesis Y0 : (Qabs y0 <= hb0)%Q.
Hypothesis Y1 : (Qabs y1 <= hb1)%Q.
Hypothesis Y2 : (Qabs y2 <= hb2)%Q.
Hypothesis HT0 : (T0 == x0 - (y0 * R00 + y1 * R01 + y2 * R02))%Q.
Hypothesis HT1 : (T1 == x1 - (y0 * R10 + y1 * R11 + y2 * R12))%Q.
Hypothesis HT2 : (T2 == x2 - (y0 * R20 + y1 * R21 + y2 * R22))%Q.
Hypothesis HS0 : (T0 * R00 + T1 * R10 + T2 * R20 == x0 * R00 + x1 * R10 + x2 * R20 - y0)%Q.
Hypothesis HS1 : (T0 * R01 + T1 * R11 + T2 * R21 == x0 * R01 + x1 * R11 + x2 * R21 - y1)%Q.
Hypothesis HS2 : (T0 * R02 + T1 * R12 + T2 * R22 == x0 * R02 + x1 * R12 + x2 * R22 - y2)%Q.
Hypothesis C00 : ((R11 * R22 - R12 * R21) * (R11 * R22 - R12 * R21) == R00 * R00)%Q.
Hypothesis C01 : ((R10 * R22 - R12 * R20) * (R10 * R22 - R12 * R20) == R01 * R01)%Q.
Hypothesis C02 : ((R10 * R21 - R11 * R20) * (R10 * R21 - R11 * R20) == R02 * R02)%Q.
Hypothesis C10 : ((R01 * R22 - R02 * R21) * (R01 * R22 - R02 * R21) == R10 * R10)%Q.
Hypothesis C11 : ((R00 * R22 - R02 * R20) * (R00 * R22 - R02 * R20) == R11 * R11)%Q.
Hypothesis C12 : ((R00 * R21 - R01 * R20) * (R00 * R21 - R01 * R20) == R12 * R12)%Q.
Hypothesis C20 : ((R01 * R12 - R02 * R11) * (R01 * R12 - R02 * R11) == R20 * R20)%Q.
Hypothesis C21 : ((R00 * R12 - R02 * R10) * (R00 * R12 - R02 * R10) == R21 * R21)%Q.
Hypothesis C22 : ((R00 * R11 - R01 * R10) * (R00 * R11 - R01 * R10) == R22 * R22)%Q.

Lemma Qabs_slack (r : Q) : (Qabs r <= Qabs r + e)%Q.
Proof. lra. Qed.

Lemma Qabs_opp_slack (r : Q) : (Qabs (- r) <= Qabs r + e)%Q.
Proof. rewrite Qabs_opp. lra. Qed.

Lemma axis_A0 :
  (Qabs T0 <= ha0 + (hb0 * (Qabs R00 + e) + hb1 * (Qabs R01 + e) + hb2 * (Qabs R02 + e)))%Q.
Proof.
  pose proof (abs4 (T0 + y0 * R00) x0 1 0 0 y1 (- R01) y2 (- R02)
                ha0 1 0 0 hb1 (Qabs R01 + e) hb2 (Qabs R02 + e)) as B.
  pose proof (Qabs_mult_le y0 R00 hb0 (Qabs R00 + e) Y0 (Qabs_slack _)) as B0.
  pose proof (Qabs_triangle (T0 + y0 * R00) (- (y0 * R00))) as Tr.
  rewrite Qabs_opp in Tr.
  assert (E : (T0 + y0 * R00 + - (y0 * R00) == T0)%Q) by ring.
  rewrite E in Tr.
  assert (Z : (Qabs 0 <= 0)%Q) by (apply Qabs_Qle_condition; lra).
  specialize (B ltac:(rewrite HT0; ring) X0 Qabs_one_le Z Z Y1 (Qabs_opp_slack _) Y2 (Qabs_opp_slack _)).
  lra.
Qed.

Lemma axis_A1 :
  (Qabs T1 <= ha1 + (hb0 * (Qabs R10 + e) + hb1 * (Qabs R11 + e) + hb2 * (Qabs R12 + e)))%Q.
Proof.
  pose proof (abs4 (T1 + y0 * R10) x1 1 0 0 y1 (- R11) y2 (- R12)
                ha1 1 0 0 hb1 (Qabs R11 + e) hb2 (Qabs R12 + e)) as B.
  pose proof (Qabs_mult_le y0 R10 hb0 (Qabs R10 + e) Y0 (Qabs_slack _)) as B0.
  pose proof (Qabs_triangle (T1 + y0 * R10) (- (y0 * R10))) as Tr.
  rewrite Qabs_opp in Tr.
  assert (E : (T1 + y0 * R10 + - (y0 * R10) == T1)%Q) by ring.
  rewrite E in Tr.
  assert (Z : (Qabs 0 <= 0)%Q) by (apply Qabs_Qle_condition; lra).
  specialize (B ltac:(rewrite HT1; ring) X1 Qabs_one_le Z Z Y1 (Qabs_opp_slack _) Y2 (Qabs_opp_slack _)).
  lra.
Qed.

Lemma axis_A2 :
  (Qabs T2 <= ha2 + (hb0 * (Qabs R20 + e) + hb1 * (Qabs R21 + e) + hb2 * (Qabs R22 + e)))%Q.
Proof.
  pose proof (abs4 (T2 + y0 * R20) x2 1 0 0 y1 (- R21) y2 (- R22)
                ha2 1 0 0 hb1 (Qabs R21 + e) hb2 (Qabs R22 + e)) as B.
  pose proof (Qabs_mult_le y0 R20 hb0 (Qabs R20 + e) Y0 (Qabs_slack _)) as B0.
  pose proof (Qabs_triangle (T2 + y0 * R20) (- (y0 * R20))) as Tr.
  rewrite Qabs_opp in Tr.
  assert (E : (T2 + y0 * R20 + - (y0 * R20) == T2)%Q) by ring.
  rewrite E in Tr.
  assert (Z : (Qabs 0 <= 0)%Q) by (apply Qabs_Qle_condition; lra).
  specialize (B ltac:(rewrite HT2; ring) X2 Qabs_one_le Z Z Y1 (Qabs_opp_slack _) Y2 (Qabs_opp_slack _)).
  lra.
Qed.

Lemma axis_B0 :
  (Qabs (T0 * R00 + T1 * R10 + T2 * R20)
   <= ha0 * (Qabs R00 + e) + ha1 * (Qabs R10 + e) + ha2 * (Qabs R20 + e) + hb0)%Q.
Proof.
  pose proof (abs4 (T0 * R00 + T1 * R10 + T2 * R20) x0 R00 x1 R10 x2 R20 y0 (- (1))
                ha0 (Qabs R00 + e) ha1 (Qabs R10 + e) ha2 (Qabs R20 + e) hb0 1) as B.
  assert (O : (Qabs (- (1)) <= 1)%Q) by (apply Qabs_Qle_condition; lra).
  specialize (B ltac:(rewrite HS0; ring) X0 (Qabs_slack _) X1 (Qabs_slack _) X2 (Qabs_slack _) Y0 O).
  lra.
Qed.

Lemma axis_B1 :
  (Qabs (T0 * R01 + T1 * R11 + T2 * R21)
   <= ha0 * (Qabs R01 + e) + ha1 * (Qabs R11 + e) + ha2 * (Qabs R21 + e) + hb1)%Q.
Proof.
  pose proof (abs4 (T0 * R01 + T1 * R11 + T2 * R21) x0 R01 x1 R11 x2 R21 y1 (- (1))
                ha0 (Qabs R01 + e) ha1 (Qabs R11 + e) ha2 (Qabs R21 + e) hb1 1) as B.
  assert (O : (Qabs (- (1)) <= 1)%Q) by (apply Qabs_Qle_condition; lra).
  specialize (B ltac:(rewrite HS1; ring) X0 (Qabs_slack _) X1 (Qabs_slack _) X2 (Qabs_slack _) Y1 O).
  lra.
Qed.

Lemma axis_B2 :
  (Qabs (T0 * R02 + T1 * R12 + T2 * R22)
   <= ha0 * (Qabs R02 + e) + ha1 * (Qabs R12 + e) + ha2 * (Qabs R22 + e) + hb2)%Q.
Proof.
  pose proof (abs4 (T0 * R02 + T1 * R12 + T2 * R22) x0 R02 x1 R12 x2 R22 y2 (- (1))
                ha0 (Qabs R02 + e) ha1 (Qabs R12 + e) ha2 (Qabs R22 + e) hb2 1) as B.
  assert (O : (Qabs (- (1)) <= 1)%Q) by (apply Qabs_Qle_condition; lra).
  specialize (B ltac:(rewrite HS2; ring) X0 (Qabs_slack _) X1 (Qabs_slack _) X2 (Qabs_slack _) Y2 O).
  lra.
Qed.

Lemma axis_A0xB0 :
  (Qabs (T2 * R10 - T1 * R20)
   <= ha1 * (Qabs R20 + e) + ha2 * (Qabs R10 + e) + (hb1 * (Qabs R02 + e) + hb2 * (Qabs R01 + e)))%Q.
Proof.
  pose proof (abs4 (T2 * R10 - T1 * R20) x2 R10 x1 (- R20) y1 (R11 * R20 - R21 * R10) y2 (R12 * R20 - R22 * R10)
                ha2 (Qabs R10 + e) ha1 (Qabs R20 + e) hb1 (Qabs R02 + e) hb2 (Qabs R01 + e)) as B.
  assert (K1 : (Qabs (R11 * R20 - R21 * R10) <= (Qabs R02 + e))%Q)
    by (apply (Qabs_le_slack _ _ _ He); rewrite <- C02; ring).
  assert (K2 : (Qabs (R12 * R20 - R22 * R10) <= (Qabs R01 + e))%Q)
    by (apply (Qabs_le_slack _ _ _ He); rewrite <- C01; ring).
  specialize (B ltac:(rewrite HT2, HT1; ring) X2 (Qabs_slack _) X1 (Qabs_opp_slack _) Y1 K1 Y2 K2).
  lra.
Qed.

Lemma axis_A0xB1 :
  (Qabs (T2 * R11 - T1 * R21)
   <= ha1 * (Qabs R21 + e) + ha2 * (Qabs R11 + e) + (hb0 * (Qabs R02 + e) + hb2 * (Qabs R00 + e)))%Q.
Proof.
  pose proof (abs4 (T2 * R11 - T1 * R21) x2 R11 x1 (- R21) y0 (R10 * R21 - R20 * R11) y2 (R12 * R21 - R22 * R11)
                ha2 (Qabs R11 + e) ha1 (Qabs R21 + e) hb0 (Qabs R02 + e) hb2 (Qabs R00 + e)) as B.
  assert (K1 : (Qabs (R10 * R21 - R20 * R11) <= (Qabs R02 + e))%Q)
    by (apply (Qabs_le_slack _ _ _ He); rewrite <- C02; ring).
  assert (K2 : (Qabs (R12 * R21 - R22 * R11) <= (Qabs R00 + e))%Q)
    by (apply (Qabs_le_slack _ _ _ He); rewrite <- C00; ring).
  specialize (B ltac:(rewrite HT2, HT1; ring) X2 (Qabs_slack _) X1 (Qabs_opp_slack _) Y0 K1 Y2 K2).
  lra.
Qed.

Lemma axis_A0xB2 :
  (Qabs (T2 * R12 - T1 * R22)
   <= ha1 * (Qabs R22 + e) + ha2 * (Qabs R12 + e) + (hb0 * (Qabs R01 + e) + hb1 * (Qabs R00 + e)))%Q.
Proof.
  pose proof (abs4 (T2 * R12 - T1 * R22) x2 R12 x1 (- R22) y0 (R10 * R22 - R20 * R12) y1 (R11 * R22 - R21 * R12)
                ha2 (Qabs R12 + e) ha1 (Qabs R22 + e) hb0 (Qabs R01 + e) hb1 (Qabs R00 + e)) as B.
  assert (K1 : (Qabs (R10 * R22 - R20 * R12) <= (Qabs R01 + e))%Q)
    by (apply (Qabs_le_slack _ _ _ He); rewrite <- C01; ring).
  assert (K2 : (Qabs (R11 * R22 - R21 * R12) <= (Qabs R00 + e))%Q)
    by (apply (Qabs_le_slack _ _ _ He); rewrite <- C00; ring).
  specialize (B ltac:(rewrite HT2, HT1; ring) X2 (Qabs_slack _) X1 (Qabs_opp_slack _) Y0 K1 Y1 K2).
  lra.
Qed.

Lemma axis_A1xB0 :
  (Qabs (T0 * R20 - T2 * R00)
   <= ha0 * (Qabs R20 + e) + ha2 * (Qabs R00 + e) + (hb1 * (Qabs R12 + e) + hb2 * (Qabs R11 + e)))%Q.
Proof.
  pose proof (abs4 (T0 * R20 - T2 * R00) x0 R20 x2 (- R00) y1 (R21 * R00 - R01 * R20) y2 (R22 * R00 - R02 * R20)
                ha0 (Qabs R20 + e) ha2 (Qabs R00 + e) hb1 (Qabs R12 + e) hb2 (Qabs R11 + e)) as B.
  assert (K1 : (Qabs (R21 * R00 - R01 * R20) <= (Qabs R12 + e))%Q)
    by (apply (Qabs_le_slack _ _ _ He); rewrite <- C12; ring).
  assert (K2 : (Qabs (R22 * R00 - R02 * R20) <= (Qabs R11 + e))%Q)
    by (apply (Qabs_le_slack _ _ _ He); rewrite <- C11; ring).
  specialize (B ltac:(rewrite HT0, HT2; ring) X0 (Qabs_slack _) X2 (Qabs_opp_slack _) Y1 K1 Y2 K2).
  lra.
Qed.

Lemma axis_A1xB1 :
  (Qabs (T0 * R21 - T2 * R01)
   <= ha0 * (Qabs R21 + e) + ha2 * (Qabs R01 + e) + (hb0 * (Qabs R12 + e) + hb2 * (Qabs R10 + e)))%Q.
Proof.
  pose proof (abs4 (T0 * R21 - T2 * R01) x0 R21 x2 (- R01) y0 (R20 * R01 - R00 * R21) y2 (R22 * R01 - R02 * R21)
                ha0 (Qabs R21 + e) ha2 (Qabs R01 + e) hb0 (Qabs R12 + e) hb2 (Qabs R10 + e)) as B.
  assert (K1 : (Qabs (R20 * R01 - R00 * R21) <= (Qabs R12 + e))%Q)
    by (apply (Qabs_le_slack _ _ _ He); rewrite <- C12; ring).
  assert (K2 : (Qabs (R22 * R01 - R02 * R21) <= (Qabs R10 + e))%Q)
    by (apply (Qabs_le_slack _ _ _ He); rewrite <- C10; ring).
  specialize (B ltac:(rewrite HT0, HT2; ring) X0 (Qabs_slack _) X2 (Qabs_opp_slack _) Y0 K1 Y2 K2).
  lra.
Qed.

Lemma axis_A1xB2 :
  (Qabs (T0 * R22 - T2 * R02)
   <= ha0 * (Qabs R22 + e) + ha2 * (Qabs R02 + e) + (hb0 * (Qabs R11 + e) + hb1 * (Qabs R10 + e)))%Q.
Proof.
  pose proof (abs4 (T0 * R22 - T2 * R02) x0 R22 x2 (- R02) y0 (R20 * R02 - R00 * R22) y1 (R21 * R02 - R01 * R22)
                ha0 (Qabs R22 + e) ha2 (Qabs R02 + e) hb0 (Qabs R11 + e) hb1 (Qabs R10 + e)) as B.
  assert (K1 : (Qabs (R20 * R02 - R00 * R22) <= (Qabs R11 + e))%Q)
    by (apply (Qabs_le_slack _ _ _ He); rewrite <- C11; ring).
  assert (K2 : (Qabs (R21 * R02 - R01 * R22) <= (Qabs R10 + e))%Q)
    by (apply (Qabs_le_slack _ _ _ He); rewrite <- C10; ring).
  specialize (B ltac:(rewrite HT0, HT2; ring) X0 (Qabs_slack _) X2 (Qabs_opp_slack _) Y0 K1 Y1 K2).
  lra.
Qed.

Lemma axis_A2xB0 :
  (Qabs (T1 * R00 - T0 * R10)
   <= ha0 * (Qabs R10 + e) + ha1 * (Qabs R00 + e) + (hb1 * (Qabs R22 + e) + hb2 * (Qabs R21 + e)))%Q.
Proof.
  pose proof (abs4 (T1 * R00 - T0 * R10) x1 R00 x0 (- R10) y1 (R01 * R10 - R11 * R00) y2 (R02 * R10 - R12 * R00)
                ha1 (Qabs R00 + e) ha0 (Qabs R10 + e) hb1 (Qabs R22 + e) hb2 (Qabs R21 + e)) as B.
  assert (K1 : (Qabs (R01 * R10 - R11 * R00) <= (Qabs R22 + e))%Q)
    by (apply (Qabs_le_slack _ _ _ He); rewrite <- C22; ring).
  assert (K2 : (Qabs (R02 * R10 - R12 * R00) <= (Qabs R21 + e))%Q)
    by (apply (Qabs_le_slack _ _ _ He); rewrite <- C21; ring).
  specialize (B ltac:(rewrite HT1, HT0; ring) X1 (Qabs_slack _) X0 (Qabs_opp_slack _) Y1 K1 Y2 K2).
  lra.
Qed.

Lemma axis_A2xB1 :
  (Qabs (T1 * R01 - T0 * R11)
   <= ha0 * (Qabs R11 + e) + ha1 * (Qabs R01 + e) + (hb0 * (Qabs R22 + e) + hb2 * (Qabs R20 + e)))%Q.
Proof.
  pose proof (abs4 (T1 * R01 - T0 * R11) x1 R01 x0 (- R11) y0 (R00 * R11 - R10 * R01) y2 (R02 * R11 - R12 * R01)
                ha1 (Qabs R01 + e) ha0 (Qabs R11 + e) hb0 (Qabs R22 + e) hb2 (Qabs R20 + e)) as B.
  assert (K1 : (Qabs (R00 * R11 - R10 * R01) <= (Qabs R22 + e))%Q)
    by (apply (Qabs_le_slack _ _ _ He); rewrite <- C22; ring).
  assert (K2 : (Qabs (R02 * R11 - R12 * R01) <= (Qabs R20 + e))%Q)
    by (apply (Qabs_le_slack _ _ _ He); rewrite <- C20; ring).
  specialize (B ltac:(rewrite HT1, HT0; ring) X1 (Qabs_slack _) X0 (Qabs_opp_slack _) Y0 K1 Y2 K2).
  lra.
Qed.

Lemma axis_A2xB2 :
  (Qabs (T1 * R02 - T0 * R12)
   <= ha0 * (Qabs R12 + e) + ha1 * (Qabs R02 + e) + (hb0 * (Qabs R21 + e) + hb1 * (Qabs R20 + e)))%Q.
Proof.
  pose proof (abs4 (T1 * R02 - T0 * R12) x1 R02 x0 (- R12) y0 (R00 * R12 - R10 * R02) y1 (R01 * R12 - R11 * R02)
                ha1 (Qabs R02 + e) ha0 (Qabs R12 + e) hb0 (Qabs R21 + e) hb1 (Qabs R20 + e)) as B.
  assert (K1 : (Qabs (R00 * R12 - R10 * R02) <= (Qabs R21 + e))%Q)
    by (apply (Qabs_le_slack _ _ _ He); rewrite <- C21; ring).
  assert (K2 : (Qabs (R01 * R12 - R11 * R02) <= (Qabs R20 + e))%Q)
    by (apply (Qabs_le_slack _ _ _ He); rewrite <- C20; ring).
  specialize (B ltac:(rewrite HT1, HT0; ring) X1 (Qabs_slack _) X0 (Qabs_opp_slack _) Y0 K1 Y1 K2).
  lra.
Qed.

Lemma separating_axes :
  (Qabs T0 <= ha0 + (hb0 * (Qabs R00 + e) + hb1 * (Qabs R01 + e) + hb2 * (Qabs R02 + e)))%Q /\
  (Qabs T1 <= ha1 + (hb0 * (Qabs R10 + e) + hb1 * (Qabs R11 + e) + hb2 * (Qabs R12 + e)))%Q /\
  (Qabs T2 <= ha2 + (hb0 * (Qabs R20 + e) + hb1 * (Qabs R21 + e) + hb2 * (Qabs R22 + e)))%Q /\
  (Qabs (T0 * R00 + T1 * R10 + T2 * R20)
   <= ha0 * (Qabs R00 + e) + ha1 * (Qabs R10 + e) + ha2 * (Qabs R20 + e) + hb0)%Q /\
  (Qabs (T0 * R01 + T1 * R11 + T2 * R21)
   <= ha0 * (Qabs R01 + e) + ha1 * (Qabs R11 + e) + ha2 * (Qabs R21 + e) + hb1)%Q /\
  (Qabs (T0 * R02 + T1 * R12 + T2 * R22)
   <= ha0 * (Qabs R02 + e) + ha1 * (Qabs R12 + e) + ha2 * (Qabs R22 + e) + hb2)%Q /\
  (Qabs (T2 * R10 - T1 * R20)
   <= ha1 * (Qabs R20 + e) + ha2 * (Qabs R10 + e) + (hb1 * (Qabs R02 + e) + hb2 * (Qabs R01 + e)))%Q /\
  (Qabs (T2 * R11 - T1 * R21)
   <= ha1 * (Qabs R21 + e) + ha2 * (Qabs R11 + e) + (hb0 * (Qabs R02 + e) + hb2 * (Qabs R00 + e)))%Q /\
  (Qabs (T2 * R12 - T1 * R22)
   <= ha1 * (Qabs R22 + e) + ha2 * (Qabs R12 + e) + (hb0 * (Qabs R01 + e) + hb1 * (Qabs R00 + e)))%Q /\
  (Qabs (T0 * R20 - T2 * R00)
   <= ha0 * (Qabs R20 + e) + ha2 * (Qabs R00 + e) + (hb1 * (Qabs R12 + e) + hb2 * (Qabs R11 + e)))%Q /\
  (Qabs (T0 * R21 - T2 * R01)
   <= ha0 * (Qabs R21 + e) + ha2 * (Qabs R01 + e) + (hb0 * (Qabs R12 + e) + hb2 * (Qabs R10 + e)))%Q /\
  (Qabs (T0 * R22 - T2 * R02)
   <= ha0 * (Qabs R22 + e) + ha2 * (Qabs R02 + e) + (hb0 * (Qabs R11 + e) + hb1 * (Qabs R10 + e)))%Q /\
  (Qabs (T1 * R00 - T0 * R10)
   <= ha0 * (Qabs R10 + e) + ha1 * (Qabs R00 + e) + (hb1 * (Qabs R22 + e) + hb2 * (Qabs R21 + e)))%Q /\
  (Qabs (T1 * R01 - T0 * R11)
   <= ha0 * (Qabs R11 + e) + ha1 * (Qabs R01 + e) + (hb0 * (Qabs R22 + e) + hb2 * (Qabs R20 + e)))%Q /\
  (Qabs (T1 * R02 - T0 * R12)
   <= ha0 * (Qabs R12 + e) + ha1 * (Qabs R02 + e) + (hb0 * (Qabs R21 + e) + hb1 * (Qabs R20 + e)))%Q.
Proof using All.
  repeat split.
  - exact axis_A0.
  - exact axis_A1.
  - exact axis_A2.
  - exact axis_B0.
  - exact axis_B1.
  - exact axis_B2.
  - exact axis_A0xB0.
  - exact axis_A0xB1.
  - exact axis_A0xB2.
  - exact axis_A1xB0.
  - exact axis_A1xB1.
  - exact axis_A1xB2.
  - exact axis_A2xB0.
  - exact axis_A2xB1.
  - exact axis_A2xB2.
Qed.

End SeparatingAxes.

(** For orthonormal axes, the dot product of two vectors is the dot product
    of their coordinates along the axes. *)
Lemma polar (r0 r1 r2 r3 r4 r5 r6 r7 r8 ux uy uz wx wy wz : Q) :
  (r0*r0 + r1*r1 + r2*r2 == 1 -> r3*r3 + r4*r4 + r5*r5 == 1 ->
   r6*r6 + r7*r7 + r8*r8 == 1 -> r0*r3 + r1*r4 + r2*r5 == 0 ->
   r0*r6 + r1*r7 + r2*r8 == 0 -> r3*r6 + r4*r7 + r5*r8 == 0 ->
   ux * wx + uy * wy + uz * wz
   == (ux * r0 + uy * r1 + uz * r2) * (wx * r0 + wy * r1 + wz * r2)
      + (ux * r3 + uy * r4 + uz * r5) * (wx * r3 + wy * r4 + wz * r5)
      + (ux * r6 + uy * r7 + uz * r8) * (wx * r6 + wy * r7 + wz * r8))%Q.
Proof. intros U00 U11 U22 U01 U02 U12. nsatz. Qed.

Lemma intersectsOBB3_shared_point_fin
    (ca0 ca1 ca2 ha0 ha1 ha2 a0 a1 a2 a3 a4 a5 a6 a7 a8 : Q)
    (cb0 cb1 cb2 hb0 hb1 hb2 b0 b1 b2 b3 b4 b5 b6 b7 b8 : Q) (e p0 p1 p2 : Q) :
  let A := obb3.mkOBB3 (vec3_of ca0 ca1 ca2) (vec3_of ha0 ha1 ha2)
                       (mat3_of a0 a1 a2 a3 a4 a5 a6 a7 a8) in
  let B := obb3.mkOBB3 (vec3_of cb0 cb1 cb2) (vec3_of hb0 hb1 hb2)
                       (mat3_of b0 b1 b2 b3 b4 b5 b6 b7 b8) in
  mat3_orthonormal (obb3.rotation A) = true ->
  mat3_orthonormal (obb3.rotation B) = true ->
  (0 <= e)%Q ->
  obb3.containsPoint A (vec3_of p0 p1 p2) = true ->
  obb3.containsPoint B (vec3_of p0 p1 p2) = true ->
  obb3.intersectsOBB3 A B $e = true.
Proof.
  cbv zeta. cbn [obb3.rotation].
  intros HA HB He CA CB.
  apply mat3_orthonormal_inv in HA. destruct HA as (A00 & A11 & A22 & A01 & A02 & A12).
  apply mat3_orthonormal_inv in HB. destruct HB as (B00 & B11 & B22 & B01 & B02 & B12).
  unfold obb3.containsPoint, vec3_of, mat3_of in CA, CB.
  cbn [obb3.center obb3.halfExtents obb3.rotation
       r_0 r_1 r_2 r_3 r_4 r_5 r_6 r_7 r_8 v_0 v_1 v_2
       nadd nsub nmul nabs nleb] in CA, CB.
  rewrite !andb_true_iff, !Qle_bool_iff in CA, CB.
  destruct CA as [[X0 X1] X2]. destruct CB as [[Y0 Y1] Y2].
  pose proof (polar b0 b1 b2 b3 b4 b5 b6 b7 b8 (p0 - cb0) (p1 - cb1) (p2 - cb2) a0 a1 a2 B00 B11 B22 B01 B02 B12) as PT0.
  pose proof (polar b0 b1 b2 b3 b4 b5 b6 b7 b8 (p0 - cb0) (p1 - cb1) (p2 - cb2) a3 a4 a5 B00 B11 B22 B01 B02 B12) as PT1.
  pose proof (polar b0 b1 b2 b3 b4 b5 b6 b7 b8 (p0 - cb0) (p1 - cb1) (p2 - cb2) a6 a7 a8 B00 B11 B22 B01 B02 B12) as PT2.
  pose proof (polar a0 a1 a2 a3 a4 a5 a6 a7 a8 (p0 - cb0) (p1 - cb1) (p2 - cb2) b0 b1 b2 A00 A11 A22 A01 A02 A12) as PS0.
  pose proof (polar a0 a1 a2 a3 a4 a5 a6 a7 a8 (p0 - cb0) (p1 - cb1) (p2 - cb2) b3 b4 b5 A00 A11 A22 A01 A02 A12) as PS1.
  pose proof (polar a0 a1 a2 a3 a4 a5 a6 a7 a8 (p0 - cb0) (p1 - cb1) (p2 - cb2) b6 b7 b8 A00 A11 A22 A01 A02 A12) as PS2.
  assert (HT0 : (((cb0 - ca0) * a0 + (cb1 - ca1) * a1 + (cb2 - ca2) * a2)
                == ((p0 - ca0) * a0 + (p1 - ca1) * a1 + (p2 - ca2) * a2)
                   - (((p0 - cb0) * b0 + (p1 - cb1) * b1 + (p2 - cb2) * b2) * (a0 * b0 + a1 * b1 + a2 * b2) + ((p0 - cb0) * b3 + (p1 - cb1) * b4 + (p2 - cb2) * b5) * (a0 * b3 + a1 * b4 + a2 * b5) + ((p0 - cb0) * b6 + (p1 - cb1) * b7 + (p2 - cb2) * b8) * (a0 * b6 + a1 * b7 + a2 * b8)))%Q)
    by (rewrite <- PT0; ring).
  assert (HT1 : (((cb0 - ca0) * a3 + (cb1 - ca1) * a4 + (cb2 - ca2) * a5)
                == ((p0 - ca0) * a3 + (p1 - ca1) * a4 + (p2 - ca2) * a5)
                   - (((p0 - cb0) * b0 + (p1 - cb1) * b1 + (p2 - cb2) * b2) * (a3 * b0 + a4 * b1 + a5 * b2) + ((p0 - cb0) * b3 + (p1 - cb1) * b4 + (p2 - cb2) * b5) * (a3 * b3 + a4 * b4 + a5 * b5) + ((p0 - cb0) * b6 + (p1 - cb1) * b7 + (p2 - cb2) * b8) * (a3 * b6 + a4 * b7 + a5 * b8)))%Q)
    by (rewrite <- PT1; ring).
  assert (HT2 : (((cb0 - ca0) * a6 + (cb1 - ca1) * a7 + (cb2 - ca2) * a8)
                == ((p0 - ca0) * a6 + (p1 - ca1) * a7 + (p2 - ca2) * a8)
                   - (((p0 - cb0) * b0 + (p1 - cb1) * b1 + (p2 - cb2) * b2) * (a6 * b0 + a7 * b1 + a8 * b2) + ((p0 - cb0) * b3 + (p1 - cb1) * b4 + (p2 - cb2) * b5) * (a6 * b3 + a7 * b4 + a8 * b5) + ((p0 - cb0) * b6 + (p1 - cb1) * b7 + (p2 - cb2) * b8) * (a6 * b6 + a7 * b7 + a8 * b8)))%Q)
    by (rewrite <- PT2; ring).
  assert (HS0 : (((cb0 - ca0) * a0 + (cb1 - ca1) * a1 + (cb2 - ca2) * a2) * (a0 * b0 + a1 * b1 + a2 * b2) + ((cb0 - ca0) * a3 + (cb1 - ca1) * a4 + (cb2 - ca2) * a5) * (a3 * b0 + a4 * b1 + a5 * b2) + ((cb0 - ca0) * a6 + (cb1 - ca1) * a7 + (cb2 - ca2) * a8) * (a6 * b0 + a7 * b1 + a8 * b2)
                == ((p0 - ca0) * a0 + (p1 - ca1) * a1 + (p2 - ca2) * a2) * (a0 * b0 + a1 * b1 + a2 * b2) + ((p0 - ca0) * a3 + (p1 - ca1) * a4 + (p2 - ca2) * a5) * (a3 * b0 + a4 * b1 + a5 * b2) + ((p0 - ca0) * a6 + (p1 - ca1) * a7 + (p2 - ca2) * a8) * (a6 * b0 + a7 * b1 + a8 * b2) - ((p0 - cb0) * b0 + (p1 - cb1) * b1 + (p2 - cb2) * b2))%Q).
  { rewrite PS0. ring. }
  assert (HS1 : (((cb0 - ca0) * a0 + (cb1 - ca1) * a1 + (cb2 - ca2) * a2) * (a0 * b3 + a1 * b4 + a2 * b5) + ((cb0 - ca0) * a3 + (cb1 - ca1) * a4 + (cb2 - ca2) * a5) * (a3 * b3 + a4 * b4 + a5 * b5) + ((cb0 - ca0) * a6 + (cb1 - ca1) * a7 + (cb2 - ca2) * a8) * (a6 * b3 + a7 * b4 + a8 * b5)
                == ((p0 - ca0) * a0 + (p1 - ca1) * a1 + (p2 - ca2) * a2) * (a0 * b3 + a1 * b4 + a2 * b5) + ((p0 - ca0) * a3 + (p1 - ca1) * a4 + (p2 - ca2) * a5) * (a3 * b3 + a4 * b4 + a5 * b5) + ((p0 - ca0) * a6 + (p1 - ca1) * a7 + (p2 - ca2) * a8) * (a6 * b3 + a7 * b4 + a8 * b5) - ((p0 - cb0) * b3 + (p1 - cb1) * b4 + (p2 - cb2) * b5))%Q).
  { rewrite PS1. ring. }
  assert (HS2 : (((cb0 - ca0) * a0 + (cb1 - ca1) * a1 + (cb2 - ca2) * a2) * (a0 * b6 + a1 * b7 + a2 * b8) + ((cb0 - ca0) * a3 + (cb1 - ca1) * a4 + (cb2 - ca2) * a5) * (a3 * b6 + a4 * b7 + a5 * b8) + ((cb0 - ca0) * a6 + (cb1 - ca1) * a7 + (cb2 - ca2) * a8) * (a6 * b6 + a7 * b7 + a8 * b8)
                == ((p0 - ca0) * a0 + (p1 - ca1) * a1 + (p2 - ca2) * a2) * (a0 * b6 + a1 * b7 + a2 * b8) + ((p0 - ca0) * a3 + (p1 - ca1) * a4 + (p2 - ca2) * a5) * (a3 * b6 + a4 * b7 + a5 * b8) + ((p0 - ca0) * a6 + (p1 - ca1) * a7 + (p2 - ca2) * a8) * (a6 * b6 + a7 * b7 + a8 * b8) - ((p0 - cb0) * b6 + (p1 - cb1) * b7 + (p2 - cb2) * b8))%Q).
  { rewrite PS2. ring. }
  assert (U00 : ((a0 * b0 + a1 * b1 + a2 * b2) * (a0 * b0 + a1 * b1 + a2 * b2) + (a0 * b3 + a1 * b4 + a2 * b5) * (a0 * b3 + a1 * b4 + a2 * b5) + (a0 * b6 + a1 * b7 + a2 * b8) * (a0 * b6 + a1 * b7 + a2 * b8) == 1)%Q).
  { rewrite <- (polar b0 b1 b2 b3 b4 b5 b6 b7 b8 a0 a1 a2 a0 a1 a2 B00 B11 B22 B01 B02 B12).
    exact A00. }
  assert (U11 : ((a3 * b0 + a4 * b1 + a5 * b2) * (a3 * b0 + a4 * b1 + a5 * b2) + (a3 * b3 + a4 * b4 + a5 * b5) * (a3 * b3 + a4 * b4 + a5 * b5) + (a3 * b6 + a4 * b7 + a5 * b8) * (a3 * b6 + a4 * b7 + a5 * b8) == 1)%Q).
  { rewrite <- (polar b0 b1 b2 b3 b4 b5 b6 b7 b8 a3 a4 a5 a3 a4 a5 B00 B11 B22 B01 B02 B12).
    exact A11. }
  assert (U22 : ((a6 * b0 + a7 * b1 + a8 * b2) * (a6 * b0 + a7 * b1 + a8 * b2) + (a6 * b3 + a7 * b4 + a8 * b5) * (a6 * b3 + a7 * b4 + a8 * b5) + (a6 * b6 + a7 * b7 + a8 * b8) * (a6 * b6 + a7 * b7 + a8 * b8) == 1)%Q).
  { rewrite <- (polar b0 b1 b2 b3 b4 b5 b6 b7 b8 a6 a7 a8 a6 a7 a8 B00 B11 B22 B01 B02 B12).
    exact A22. }
  assert (U01 : ((a0 * b0 + a1 * b1 + a2 * b2) * (a3 * b0 + a4 * b1 + a5 * b2) + (a0 * b3 + a1 * b4 + a2 * b5) * (a3 * b3 + a4 * b4 + a5 * b5) + (a0 * b6 + a1 * b7 + a2 * b8) * (a3 * b6 + a4 * b7 + a5 * b8) == 0)%Q).
  { rewrite <- (polar b0 b1 b2 b3 b4 b5 b6 b7 b8 a0 a1 a2 a3 a4 a5 B00 B11 B22 B01 B02 B12).
    exact A01. }
  assert (U02 : ((a0 * b0 + a1 * b1 + a2 * b2) * (a6 * b0 + a7 * b1 + a8 * b2) + (a0 * b3 + a1 * b4 + a2 * b5) * (a6 * b3 + a7 * b4 + a8 * b5) + (a0 * b6 + a1 * b7 + a2 * b8) * (a6 * b6 + a7 * b7 + a8 * b8) == 0)%Q).
  { rewrite <- (polar b0 b1 b2 b3 b4 b5 b6 b7 b8 a0 a1 a2 a6 a7 a8 B00 B11 B22 B01 B02 B12).
    exact A02. }
  assert (U12 : ((a3 * b0 + a4 * b1 + a5 * b2) * (a6 * b0 + a7 * b1 + a8 * b2) + (a3 * b3 + a4 * b4 + a5 * b5) * (a6 * b3 + a7 * b4 + a8 * b5) + (a3 * b6 + a4 * b7 + a5 * b8) * (a6 * b6 + a7 * b7 + a8 * b8) == 0)%Q).
  { rewrite <- (polar b0 b1 b2 b3 b4 b5 b6 b7 b8 a3 a4 a5 a6 a7 a8 B00 B11 B22 B01 B02 B12).
    exact A12. }
  pose proof (cofactors (a0 * b0 + a1 * b1 + a2 * b2) (a0 * b3 + a1 * b4 + a2 * b5) (a0 * b6 + a1 * b7 + a2 * b8) (a3 * b0 + a4 * b1 + a5 * b2) (a3 * b3 + a4 * b4 + a5 * b5) (a3 * b6 + a4 * b7 + a5 * b8) (a6 * b0 + a7 * b1 + a8 * b2) (a6 * b3 + a7 * b4 + a8 * b5) (a6 * b6 + a7 * b7 + a8 * b8) U00 U11 U22 U01 U02 U12)
    as (C00 & C01 & C02 & C10 & C11 & C12 & C20 & C21 & C22).
  pose proof (separating_axes ((cb0 - ca0) * a0 + (cb1 - ca1) * a1 + (cb2 - ca2) * a2) ((cb0 - ca0) * a3 + (cb1 - ca1) * a4 + (cb2 - ca2) * a5) ((cb0 - ca0) * a6 + (cb1 - ca1) * a7 + (cb2 - ca2) * a8) (a0 * b0 + a1 * b1 + a2 * b2) (a0 * b3 + a1 * b4 + a2 * b5) (a0 * b6 + a1 * b7 + a2 * b8) (a3 * b0 + a4 * b1 + a5 * b2) (a3 * b3 + a4 * b4 + a5 * b5) (a3 * b6 + a4 * b7 + a5 * b8) (a6 * b0 + a7 * b1 + a8 * b2) (a6 * b3 + a7 * b4 + a8 * b5) (a6 * b6 + a7 * b7 + a8 * b8) ((p0 - ca0) * a0 + (p1 - ca1) * a1 + (p2 - ca2) * a2) ((p0 - ca0) * a3 + (p1 - ca1) * a4 + (p2 - ca2) * a5) ((p0 - ca0) * a6 + (p1 - ca1) * a7 + (p2 - ca2) * a8) ((p0 - cb0) * b0 + (p1 - cb1) * b1 + (p2 - cb2) * b2) ((p0 - cb0) * b3 + (p1 - cb1) * b4 + (p2 - cb2) * b5) ((p0 - cb0) * b6 + (p1 - cb1) * b7 + (p2 - cb2) * b8) ha0 ha1 ha2 hb0 hb1 hb2 e
    He X0 X1 X2 Y0 Y1 Y2 HT0 HT1 HT2 HS0 HS1 HS2
    C00 C01 C02 C10 C11 C12 C20 C21 C22)
    as (I1 & I2 & I3 & I4 & I5 & I6 & I7 & I8 & I9 & I10 & I11 & I12 & I13 & I14 & I15).
  clear PT0 PT1 PT2 PS0 PS1 PS2 HT0 HT1 HT2 HS0 HS1 HS2
    C00 C01 C02 C10 C11 C12 C20 C21 C22 U00 U11 U22 U01 U02 U12.
  cbv [obb3.intersectsOBB3 obb3._intersectsOBB3_R obb3._intersectsOBB3_AbsR
       obb3._intersectsOBB3_tInA obb3._intersectsOBB3_t obb3._intersectsOBB3_aU
       obb3._intersectsOBB3_bU obb3.a_halfExtents obb3.b_halfExtents obb3.axis
       obb3.center obb3.halfExtents obb3.rotation vec3.dot vec3.subtract
       vec3_of mat3_of vget existsb seq
       r_0 r_1 r_2 r_3 r_4 r_5 r_6 r_7 r_8 v_0 v_1 v_2
       nadd nsub nmul nabs ngtb nltb orb].
  rewrite (proj2 (Qltb_ge _ _) I1), (proj2 (Qltb_ge _ _) I2),
    (proj2 (Qltb_ge _ _) I3), (proj2 (Qltb_ge _ _) I4),
    (proj2 (Qltb_ge _ _) I5), (proj2 (Qltb_ge _ _) I6),
    (proj2 (Qltb_ge _ _) I7), (proj2 (Qltb_ge _ _) I8),
    (proj2 (Qltb_ge _ _) I9), (proj2 (Qltb_ge _ _) I10),
    (proj2 (Qltb_ge _ _) I11), (proj2 (Qltb_ge _ _) I12),
    (proj2 (Qltb_ge _ _) I13), (proj2 (Qltb_ge _ _) I14),
    (proj2 (Qltb_ge _ _) I15).
  reflexivity.
Qed.


(** ** Triangles: bounds, normal and centroid *)

Lemma third_between (x y z lo hi : Q) :
  (lo <= x -> lo <= y -> lo <= z -> x <= hi -> y <= hi -> z <= hi ->
   lo <= (x + y + z) / 3 <= hi)%Q.
Proof.
  intros. setoid_replace ((x + y + z) / 3)%Q with ((x + y + z) * (1 # 3))%Q
    by (field; discriminate).
  lra.
Qed.


Section NormalProperties.

Variable sqrt : num -> num.


End NormalProperties.

(** ** The circumcircle of a triangle *)

Section CircumcircleProperties.

Variable sqrt : num -> num.


End CircumcircleProperties.

(** ** An oriented box against an axis-aligned one *)


(** * Instances of the further properties

    Each property above that has a precondition, applied to a concrete
    input on which the precondition holds. *)

(** ** Boxes *)

(** The box [[1,2]^3] inside [[0,3]^3], and the point [[1,1,1]]. *)
Lemma containsBox3_transitive_nested_boxes :
  (box3.containsBox3 (box3_of 1 1 1 2 2 2) (box3_of 1 1 1 2 2 2) = true ->
   box3.containsBox3 (box3_of 0 0 0 3 3 3) (box3_of 1 1 1 2 2 2) = true) /\
  (box3.containsPoint (box3_of 1 1 1 2 2 2) (vec3_of 1 1 1) = true ->
   box3.containsPoint (box3_of 0 0 0 3 3 3) (vec3_of 1 1 1) = true).
Proof.
  apply (containsBox3_transitive (box3_of 0 0 0 3 3 3) (box3_of 1 1 1 2 2 2)).
  vm_compute. reflexivity.
Defined.

(** The unit box and [[2,3]^3] against [[0,3]^3]. *)
Lemma union_is_least_upper_bound_unit_box :
  box3.containsBox3 (box3_of 0 0 0 3 3 3)
    (box3.union unit_box (box3_of 2 2 2 3 3 3))
  = box3.containsBox3 (box3_of 0 0 0 3 3 3) unit_box
    && box3.containsBox3 (box3_of 0 0 0 3 3 3) (box3_of 2 2 2 3 3 3).
Proof.
  apply union_is_least_upper_bound; vm_compute; reflexivity.
Defined.

Lemma empty_box_is_neutral_unit_box :
  box3.union unit_box box3.create = unit_box /\
  box3.union box3.create unit_box = unit_box /\
  box3.expandByPoint box3.create (vec3_of 1 2 3) = mkBox3 $1 $2 $3 $1 $2 $3.
Proof.
  apply (empty_box_is_neutral unit_box (vec3_of 1 2 3)); vm_compute; reflexivity.
Defined.

(** The unit box grown to the point [[2, 1/2, -1]]. *)
Lemma expandByPoint_covers_unit_box :
  box3.containsPoint (box3.expandByPoint unit_box (vec3_of 2 0.5 (-1)))
    (vec3_of 2 0.5 (-1)) = true /\
  box3.containsBox3 (box3.expandByPoint unit_box (vec3_of 2 0.5 (-1)))
    unit_box = true /\
  (box3.containsPoint unit_box (vec3_of 2 0.5 (-1)) = true ->
   box3_eq (box3.expandByPoint unit_box (vec3_of 2 0.5 (-1))) unit_box).
Proof.
  apply expandByPoint_covers; vm_compute; reflexivity.
Defined.

(** A scale with a negative factor, which swaps the bounds of that axis. *)
Lemma scale_covers_scaled_points_unit_box :
  box3.containsPoint (box3.scale unit_box (vec3_of 2 (-3) 0.5))
    (vec3_times (vec3_of 0.5 0.25 1) (vec3_of 2 (-3) 0.5)) = true.
Proof.
  apply scale_covers_scaled_points; vm_compute; reflexivity.
Defined.

Lemma setFromCenterAndSize_round_trip_1_2_3 :
  box3_eq (box3.setFromCenterAndSize box3.create
             (box3.center (box3_of 1 2 3 4 6 8)) (box3.size (box3_of 1 2 3 4 6 8)))
          (box3_of 1 2 3 4 6 8).
Proof.
  apply setFromCenterAndSize_round_trip. vm_compute. reflexivity.
Defined.


(** The empty box does not equal itself: its bounds are infinite. *)
Lemma equals_of_empty_box_with_itself :
  box3.equals $0.000001 box3.create box3.create = box3_finite box3.create.
Proof.
  apply equals_reflexive_iff_finite. lra.
Defined.

Lemma exactEquals_implies_equals_unit_box :
  box3.equals $0.000001 unit_box (box3_of 0 0 0 1 1 1) = true.
Proof.
  apply exactEquals_implies_equals; [lra | vm_compute; reflexivity ..].
Defined.


(** ** Triangles against boxes *)



Lemma bounds_contained_iff_vertices_contained_unit_box :
  box3.containsBox3 unit_box
    (triangle3.bounds box3.create (vec3_of 0 0 0) (vec3_of 1 0 0.5) (vec3_of 0 2 0))
  = box3.containsPoint unit_box (vec3_of 0 0 0)
    && box3.containsPoint unit_box (vec3_of 1 0 0.5)
    && box3.containsPoint unit_box (vec3_of 0 2 0).
Proof.
  apply bounds_contained_iff_vertices_contained; vm_compute; reflexivity.
Defined.


(** ** Spheres and planes *)



(** Two boxes that share a corner. *)
Lemma intersectsBox3_iff_shared_point_touching :
  box3.intersectsBox3 unit_box (box3_of 1 1 1 2 2 2) = true <->
  exists x y z : Q,
    box3.containsPoint unit_box (vec3_of x y z) = true /\
    box3.containsPoint (box3_of 1 1 1 2 2 2) (vec3_of x y z) = true.
Proof.
  apply intersectsBox3_iff_shared_point; vm_compute; reflexivity.
Defined.



(** ** Rays *)




(** The same ray from the other side, with culling: a front-facing hit. *)
Lemma intersectsTriangle_hit_facing_front :
  let r := raycast3.intersectsTriangle raycast3.createIntersectsTriangleResult
             (raycast3.mkRaycast3 (vec3_of 1 1 1) (vec3_of (-1) (-1) (-1)) $10)
             (vec3_of 1 1 0) (vec3_of 0 1 1) (vec3_of 1 0 1) true in
  raycast3.frontFacing r
  = (triangle_DdN (raycast3.mkRaycast3 (vec3_of 1 1 1) (vec3_of (-1) (-1) (-1)) $10)
       (vec3_of 1 1 0) (vec3_of 0 1 1) (vec3_of 1 0 1) <? $0) /\
  (true = true -> raycast3.frontFacing r = true).
Proof.
  apply (intersectsTriangle_hit_facing raycast3.createIntersectsTriangleResult
           (raycast3.mkRaycast3 (vec3_of 1 1 1) (vec3_of (-1) (-1) (-1)) $10)
           (vec3_of 1 1 0) (vec3_of 0 1 1) (vec3_of 1 0 1) true).
  vm_compute. reflexivity.
Defined.

(** ** Oriented boxes *)





(** ** Normals and circumcircles *)



